(** * git-branch-cleanup: a shallow embedding of the CLI and its properties

    The tool lists the local branches whose upstream is missing or gone,
    resolves the protected default branch, guards the checked-out branch,
    shows a disclaimer and deletes the branches, first safely and then, on
    request, by force.

    JavaScript strings are modelled by [string]: sequences of code units
    below 256 (the Latin-1 part of UTF-16).  On those code units the
    whitespace class, [trim], [includes], [split] and [toLowerCase] below
    agree with the JavaScript built-ins.  The subprocess boundary
    ([child_process.exec]), the prompt library and [fs.existsSync] are an
    interface ([Host]) over an abstract world; a run is a function from the
    world to the events it produced, its result and the world it left.

    The callbacks of the source are written in direct style: each call of
    the host returns its answer, and what the callback does comes next.
    [process.exit] ends a run with its status.  The number answered to the
    option prompt is an integer.  The first part of the file holds the
    definitions, the second the properties. *)

From Stdlib Require Import String Ascii List Bool Arith ZArith Lia.
Import ListNotations.
Open Scope string_scope.

(** ** JavaScript string built-ins *)

Module JS.

(** WhiteSpace and LineTerminator code units below 256: TAB, LF, VT, FF, CR,
    SP and NBSP.  This is the class matched by [\s] and stripped by [trim]. *)
Definition in_range (lo hi n : nat) : bool := Nat.leb lo n && Nat.leb n hi.

Definition is_space (c : ascii) : bool :=
  let n := nat_of_ascii c in
  in_range 9 13 n || Nat.eqb n 32 || Nat.eqb n 160.

Definition non_space (c : ascii) : bool := negb (is_space c).

(** The class [[a-f0-9]]. *)
Definition is_hex (c : ascii) : bool :=
  let n := nat_of_ascii c in
  in_range 97 102 n || in_range 48 57 n.

Definition is_char (d c : ascii) : bool := Ascii.eqb c d.
Definition not_char (d c : ascii) : bool := negb (Ascii.eqb c d).

Fixpoint trimStart (s : string) : string :=
  match s with
  | String c s' => if is_space c then trimStart s' else s
  | EmptyString => EmptyString
  end.

Fixpoint trimEnd (s : string) : string :=
  match s with
  | String c s' =>
      let t := trimEnd s' in
      if is_space c && (t =? "") then "" else String c t
  | EmptyString => EmptyString
  end.

Definition trim (s : string) : string := trimEnd (trimStart s).

(** [hay.includes(needle)] *)
Fixpoint includes (needle hay : string) : bool :=
  prefix needle hay ||
  match hay with
  | String _ hay' => includes needle hay'
  | EmptyString => false
  end.

(** [s.split(sep)] for a one-character separator, as a non-empty list given
    by its head and tail. *)
Fixpoint split_ne (sep : ascii) (s : string) : string * list string :=
  match s with
  | EmptyString => ("", [])
  | String c s' =>
      let (l, ls) := split_ne sep s' in
      if Ascii.eqb c sep then ("", l :: ls) else (String c l, ls)
  end.

Definition split (sep : ascii) (s : string) : list string :=
  let (l, ls) := split_ne sep s in l :: ls.

(** Lower-casing of one code unit below 256: A-Z and the Latin-1 capitals
    (192-222 but the multiplication sign 215) move up by 32. *)
Definition lower_char (c : ascii) : ascii :=
  let n := nat_of_ascii c in
  if in_range 65 90 n || (in_range 192 222 n && negb (Nat.eqb n 215))
  then ascii_of_nat (n + 32) else c.

Fixpoint toLowerCase (s : string) : string :=
  match s with
  | String c s' => String (lower_char c) (toLowerCase s')
  | EmptyString => EmptyString
  end.

(** Every code unit of [s] is in the class [p]. *)
Fixpoint all_in (p : ascii -> bool) (s : string) : bool :=
  match s with
  | String c s' => p c && all_in p s'
  | EmptyString => true
  end.

(** Truthiness of a string-or-null/undefined value. *)
Definition truthy (v : option string) : bool :=
  match v with
  | Some (String _ _) => true
  | _ => false
  end.

End JS.

(** ** A backtracking matcher for the regular expressions of the tool

    The matcher follows the continuation semantics of ECMAScript: a matcher
    takes a state (end index, remaining input, captures) and a continuation,
    greedy quantifiers try the longest alternative first and fall back. *)

Module Regex.

Inductive regex : Type :=
| Bol                                   (* ^ *)
| Chr (p : ascii -> bool)               (* one character of a class *)
| Star (p : ascii -> bool)              (* class*, greedy *)
| Plus (p : ascii -> bool)              (* class+, greedy *)
| Opt (r : regex)                       (* r?, greedy *)
| Group (n : nat) (r : regex)           (* capturing parentheses number n *)
| Seq (r1 r2 : regex).

Definition captures := nat -> option string.

Definition no_captures : captures := fun _ => None.

Definition set_capture (n : nat) (v : string) (c : captures) : captures :=
  fun m => if Nat.eqb m n then Some v else c m.

Record mstate : Type := MState {
  endIndex : nat;
  rest : string;
  caps : captures
}.

Definition cont := mstate -> option mstate.

Fixpoint star (p : ascii -> bool) (s : string) (i : nat) (c : captures)
  (k : cont) : option mstate :=
  match s with
  | String a s' =>
      if p a then
        match star p s' (S i) c k with
        | Some y => Some y
        | None => k (MState i s c)
        end
      else k (MState i s c)
  | EmptyString => k (MState i s c)
  end.

Fixpoint rmatch (r : regex) (x : mstate) (k : cont) : option mstate :=
  match r with
  | Bol => if Nat.eqb (endIndex x) 0 then k x else None
  | Chr p =>
      match rest x with
      | String a s' =>
          if p a then k (MState (S (endIndex x)) s' (caps x)) else None
      | EmptyString => None
      end
  | Star p => star p (rest x) (endIndex x) (caps x) k
  | Plus p =>
      match rest x with
      | String a s' =>
          if p a then star p s' (S (endIndex x)) (caps x) k else None
      | EmptyString => None
      end
  | Opt r' =>
      match rmatch r' x k with
      | Some y => Some y
      | None => k x
      end
  | Group n r' =>
      rmatch r' x (fun y =>
        k (MState (endIndex y) (rest y)
             (set_capture n
                (substring 0 (endIndex y - endIndex x) (rest x)) (caps y))))
  | Seq r1 r2 => rmatch r1 x (fun y => rmatch r2 y k)
  end.

(** [RegExpBuiltinExec] without the g and y flags: the first index, from 0
    to the length of the input, at which the pattern matches. *)
Fixpoint exec_from (r : regex) (i : nat) (s : string) : option mstate :=
  match rmatch r (MState i s no_captures) Some with
  | Some y => Some y
  | None =>
      match s with
      | String _ s' => exec_from r (S i) s'
      | EmptyString => None
      end
  end.

Definition exec (r : regex) (s : string) : option captures :=
  option_map caps (exec_from r 0 s).

End Regex.

(** ** The Branch Lister: parsing of [git branch -vv] *)

Import JS Regex.

(** [/^\*?\s*(\S+)\s+[a-f0-9]+\s+(\[([^\]]+)\])?/] *)
Definition branchLineRegex : regex :=
  Seq Bol
  (Seq (Opt (Chr (is_char "*")))
  (Seq (Star is_space)
  (Seq (Group 1 (Plus non_space))
  (Seq (Plus is_space)
  (Seq (Plus is_hex)
  (Seq (Plus is_space)
       (Opt (Group 2
          (Seq (Chr (is_char "["))
          (Seq (Group 3 (Plus (not_char "]")))
               (Chr (is_char "]")))))))))))).

(** [line.match(branchLineRegex)], reduced to the two captures that the
    caller reads: [match[1]] and [match[3]]. *)
Definition match_line (line : string) : option (option string * option string) :=
  option_map (fun c => (c 1, c 3)) (Regex.exec branchLineRegex line).

(** The body of the [forEach] callback: the names pushed for one line. *)
Definition stale_of_line (line : string) : list string :=
  match match_line line with
  | Some (branchName, trackingInfo) =>
      if negb (truthy trackingInfo) ||
         match trackingInfo with
         | Some t => includes "gone" t
         | None => false
         end
      then match branchName with Some n => [n] | None => [] end
      else []
  | None => []
  end.

(** The synchronous part of [getDetachedBranches]: from the standard output
    of [git branch -vv] to [detachedBranches]. *)
Definition parseDetachedBranches (stdout : string) : list string :=
  flat_map stale_of_line (split "010" stdout).

(** ** The boundary of the tool: subprocesses, prompts, the file system *)

(** What the callback of [exec] receives: whether [error] is set, and the
    two output streams. *)
Record exec_result : Type := ExecResult {
  failed : bool;
  stdout : string;
  stderr : string
}.

(** A JavaScript [Error] with its message. *)
Inductive error : Type := Error (message : string).

Definition error_message (e : error) : string :=
  let 'Error m := e in m.

(** The validation a prompt schema asks of the prompt library. *)
Inductive validation : Type :=
| PatMainMaster     (* pattern: /^(main|master)$/i *)
| PatYesNo          (* pattern: /^(yes|no|y|n)$/i *)
| ConformOneToFour. (* type: 'number', conform: [1,2,3,4].includes(Number(value)) *)

Record schema : Type := Schema {
  name : string;
  description : string;
  validate : validation;
  message : option string
}.

(** The host of a run.  Each operation takes the world and returns its
    answer with the world it leaves.  A prompt either fails (the [err] of
    its callback) or returns the property of [result] named by the schema;
    the schema of type number has its own operation. *)
Class Host (W : Type) : Type := {
  fs_existsSync : string -> W -> bool * W;
  child_exec : string -> W -> exec_result * W;
  prompt_get : schema -> W -> (error + string) * W;
  prompt_get_number : schema -> W -> (error + Z) * W
}.

(** What a run does, in order. *)
Inductive event : Type :=
| EvExists (path : string) (r : bool)
| EvExec (cmd : string) (r : exec_result)
| EvPromptStart
| EvPrompt (q : schema) (r : error + string)
| EvPromptNumber (q : schema) (r : error + Z)
| EvLog (msg : string)                    (* console.log(msg) *)
| EvError (msg : string)                  (* console.error(msg) *)
| EvErrorObj (msg : string) (e : error).  (* console.error(msg, err) *)

Definition trace := list event.

(** ** The monad of the tool: world, the global flag, events, [process.exit] *)

Section Tool.

Context {W : Type} {host : Host W}.

Record pstate : Type := PState {
  world : W;
  disclaimerConfirmed : bool   (* the global [let disclaimerConfirmed] *)
}.

Inductive res (A : Type) : Type :=
| Ret (a : A)
| Exit (code : Z).

Arguments Ret {A} a.
Arguments Exit {A} code.

Definition M (A : Type) : Type := pstate -> trace * res A * pstate.

Definition ret {A} (a : A) : M A := fun s => ([], Ret a, s).

Definition bind {A B} (m : M A) (f : A -> M B) : M B :=
  fun s =>
    match m s with
    | (t1, Ret a, s1) =>
        match f a s1 with
        | (t2, r, s2) => ((t1 ++ t2)%list, r, s2)
        end
    | (t1, Exit c, s1) => (t1, Exit c, s1)
    end.

Definition process_exit {A} (code : Z) : M A := fun s => ([], Exit code, s).

Definition console_log (msg : string) : M unit :=
  fun s => ([EvLog msg], Ret tt, s).

Definition console_error (msg : string) : M unit :=
  fun s => ([EvError msg], Ret tt, s).

Definition console_error_obj (msg : string) (e : error) : M unit :=
  fun s => ([EvErrorObj msg e], Ret tt, s).

Definition existsSync (path : string) : M bool :=
  fun s =>
    let (b, w) := fs_existsSync path (world s) in
    ([EvExists path b], Ret b, PState w (disclaimerConfirmed s)).

Definition exec (cmd : string) : M exec_result :=
  fun s =>
    let (r, w) := child_exec cmd (world s) in
    ([EvExec cmd r], Ret r, PState w (disclaimerConfirmed s)).

Definition prompt_start : M unit :=
  fun s => ([EvPromptStart], Ret tt, s).

Definition prompt (q : schema) : M (error + string) :=
  fun s =>
    let (r, w) := prompt_get q (world s) in
    ([EvPrompt q r], Ret r, PState w (disclaimerConfirmed s)).

Definition prompt_number (q : schema) : M (error + Z) :=
  fun s =>
    let (r, w) := prompt_get_number q (world s) in
    ([EvPromptNumber q r], Ret r, PState w (disclaimerConfirmed s)).

Definition get_disclaimerConfirmed : M bool :=
  fun s => ([], Ret (disclaimerConfirmed s), s).

Definition set_disclaimerConfirmed (b : bool) : M unit :=
  fun s => ([], Ret tt, PState (world s) b).

End Tool.

Arguments Ret {A} a.
Arguments Exit {A} code.
Arguments pstate W : clear implicits.
Arguments M W A : clear implicits.

Declare Scope tool_scope.
Delimit Scope tool_scope with tool.
Notation "x <- m ;; k" := (bind m (fun x => k))
  (at level 61, m at next level, right associativity) : tool_scope.
Notation "m ;; k" := (bind m (fun _ => k))
  (at level 61, right associativity) : tool_scope.
Open Scope tool_scope.

(** ** The functions of the tool *)

Section Functions.

Context {W : Type} {host : Host W}.

Definition isGitRepo : M W bool := existsSync ".git".

Definition revParseCmd : string := "git rev-parse --abbrev-ref HEAD".

Definition getCurrentBranch : M W (error + string) :=
  r <- exec revParseCmd ;;
  if failed r
  then ret (inl (Error
         "Failed to get current branch. Are you sure this is a Git repository?"))
  else ret (inr (trim (stdout r))).

Definition listCmd (branchName : string) : string :=
  "git branch --list " ++ branchName.

(** Check if a branch exists by listing it. *)
Definition branchExists (branchName : string) : M W bool :=
  r <- exec (listCmd branchName) ;;
  if failed r then ret false
  else ret (negb (trim (stdout r) =? "")).

Definition defaultSchema : schema :=
  Schema "default"
    "Both 'main' and 'master' branches exist. Which branch do you use as your default? (enter 'main' or 'master')"
    PatMainMaster (Some "Please enter 'main' or 'master'").

(** Determine the default main branch: [inr None] is the callback
    [(null, null)]. *)
Definition getDefaultMainBranch : M W (error + option string) :=
  mainExists <- branchExists "main" ;;
  masterExists <- branchExists "master" ;;
  if mainExists && masterExists then
    prompt_start ;;
    r <- prompt defaultSchema ;;
    match r with
    | inl err => ret (inl err)
    | inr answer => ret (inr (Some (toLowerCase answer)))
    end
  else if mainExists then ret (inr (Some "main"))
  else if masterExists then ret (inr (Some "master"))
  else ret (inr None).

Definition listingCmd : string := "git branch -vv".

Definition getDetachedBranches : M W (error + list string) :=
  r <- exec listingCmd ;;
  if failed r then ret (inl (Error "Error running 'git branch -vv'."))
  else ret (inr (parseDetachedBranches (stdout r))).

Definition delCmd (forced : bool) (branch : string) : string :=
  if forced then "git branch -D " ++ branch else "git branch -d " ++ branch.

(** [deleteNext] with [index] pointing at the head of [remaining]; the
    array [failedBranches] is threaded through. *)
Fixpoint deleteNext (forced : bool) (remaining failedBranches : list string)
  : M W (error + list string) :=
  match remaining with
  | [] => ret (inr failedBranches)
  | branch :: remaining' =>
      c <- getCurrentBranch ;;
      match c with
      | inl err => ret (inl err)
      | inr currentBranch =>
          if branch =? currentBranch then
            console_log ("Skipping current branch: " ++ branch) ;;
            deleteNext forced remaining' failedBranches
          else
            r <- exec (delCmd forced branch) ;;
            if failed r then
              if negb forced && includes "not fully merged" (stderr r) then
                console_error
                  ("Unable to delete " ++ branch ++ " as it is not fully merged.") ;;
                deleteNext forced remaining' (failedBranches ++ [branch])%list
              else
                console_error
                  ("Error deleting branch " ++ branch ++ ": " ++ trim (stderr r)) ;;
                deleteNext forced remaining' failedBranches
            else
              console_log ("Deleted branch " ++ branch) ;;
              deleteNext forced remaining' failedBranches
      end
  end.

Definition deleteBranches (branches : list string) (forced : bool)
  : M W (error + list string) :=
  deleteNext forced branches [].

Definition yesNoSchema (name description : string) : schema :=
  Schema name description PatYesNo (Some "Please enter yes or no").

Definition switchSchema (defaultMain : string) : schema :=
  yesNoSchema "switch"
    ("Would you like to switch to '" ++ defaultMain ++
     "' branch before cleanup? (Yes/No)").

(** [answer.toLowerCase() === 'yes' || answer.toLowerCase() === 'y'] *)
Definition saysYes (answer : string) : bool :=
  (toLowerCase answer =? "yes") || (toLowerCase answer =? "y").

Definition checkoutCmd (branch : string) : string := "git checkout " ++ branch.

(** [b => b.toLowerCase() !== other.toLowerCase()] *)
Definition differsIgnoringCase (other b : string) : bool :=
  negb (toLowerCase b =? toLowerCase other).

Definition preCleanupCheck (branchesToDelete : list string)
  (defaultMain : option string) : M W (error + list string) :=
  match defaultMain with
  | Some (String _ _ as defaultMain) =>
      c <- getCurrentBranch ;;
      match c with
      | inl err => ret (inl err)
      | inr currentBranch =>
          if toLowerCase currentBranch =? toLowerCase defaultMain then
            ret (inr branchesToDelete)
          else
            console_log ("You are not currently on the '" ++ defaultMain ++
                         "' branch. (Current branch: '" ++ currentBranch ++ "')") ;;
            r <- prompt (switchSchema defaultMain) ;;
            match r with
            | inl err => ret (inl err)
            | inr answer =>
                if saysYes answer then
                  x <- exec (checkoutCmd defaultMain) ;;
                  if failed x then
                    ret (inl (Error ("Failed to switch to " ++ defaultMain ++
                                     ": " ++ trim (stderr x))))
                  else
                    console_log ("Switched to " ++ defaultMain ++ ".") ;;
                    ret (inr branchesToDelete)
                else
                  ret (inr (filter (differsIgnoringCase currentBranch)
                              branchesToDelete))
            end
      end
  | _ => ret (inr branchesToDelete)
  end.

Definition ESC : string := String (ascii_of_nat 27) "".

Definition warningMessage : string :=
  ESC ++ "[31m" ++ ESC ++ "[1m" ++
  "WARNING: Branches deleted locally cannot be recovered. If you have any local unsaved work that has not been pushed to a remote repository, IT WILL BE LOST. Use this tool at your own risk. The maintainers assume no responsibility for any data loss. Always review the branches marked for deletion before confirming the cleanup process." ++
  ESC ++ "[0m".

Definition confirmSchema : schema :=
  yesNoSchema "confirm" "Do you wish to proceed? (Yes/No)".

(** Returns when the callback is called; otherwise the process has exited. *)
Definition confirmDisclaimer : M W unit :=
  confirmed <- get_disclaimerConfirmed ;;
  if confirmed then ret tt
  else
    console_log warningMessage ;;
    r <- prompt confirmSchema ;;
    match r with
    | inl err => console_error_obj "Prompt error:" err ;; process_exit 1
    | inr answer =>
        if saysYes answer then set_disclaimerConfirmed true ;; ret tt
        else console_log "Cleanup operation cancelled by user." ;; process_exit 0
    end.

(** The bullet U+2022 of the listing, a code unit above 255: written as the
    three bytes of its UTF-8 form. *)
Definition bullet : string :=
  String (ascii_of_nat 226) (String (ascii_of_nat 128)
    (String (ascii_of_nat 162) "")).

Fixpoint forEach_log (f : string -> string) (l : list string) : M W unit :=
  match l with
  | [] => ret tt
  | b :: l' => console_log (f b) ;; forEach_log f l'
  end.

Definition optionSchema : schema :=
  Schema "option" "Enter the number for your option" ConformOneToFour None.

Definition forceSchema : schema :=
  yesNoSchema "force"
    "The above branches were not fully merged and could not be deleted. Do you want to force delete them? (Yes/No)".

(** [main], lines 260-293: the listing of the branches, the four options
    and the choice.  Returns [option] to the rest of [main]. *)
Definition main_menu (defaultMain : option string) (branches : list string)
  : M W Z :=
  console_log
    ("The following local branches have no active upstream branch (or their upstream is gone):"
     ++ String "010" "") ;;
  forEach_log (fun b => "  " ++ bullet ++ " " ++ b) branches ;;
  console_log "" ;;
  console_log "Choose one of the following options:" ;;
  console_log "  1. Delete all detached local branches (safe delete)" ;;
  console_log "  2. Delete all detached local branches (forced delete)" ;;
  (match defaultMain with
   | Some (String _ _ as defaultMain) =>
       console_log ("  3. Delete all such local branches except '" ++
                    defaultMain ++ "' (safe delete)")
   | _ =>
       console_log
         "  3. Delete all such local branches except 'main/master' (safe delete)"
   end) ;;
  console_log "  4. Cancel" ;;
  prompt_start ;;
  r <- prompt_number optionSchema ;;
  match r with
  | inl err => console_error_obj "Prompt error:" err ;; process_exit 1
  | inr option =>
      if Z.eqb option 4 then
        console_log "Operation cancelled." ;; process_exit 0
      else ret option
  end.

(** [main], lines 295-314: option 3's filter and the pre-cleanup check.
    Returns [finalBranchesToDelete]. *)
Definition main_target (defaultMain : option string) (branches : list string)
  (option : Z) : M W (list string) :=
  branchesToDelete <-
    (match defaultMain with
     | Some (String _ _ as defaultMain) =>
         if Z.eqb option 3 then
           let filtered := filter (differsIgnoringCase defaultMain) branches in
           if Nat.eqb (length filtered) 0 then
             console_log ("No branches available to delete after filtering out '"
                          ++ defaultMain ++ "'.") ;;
             process_exit 0
           else ret filtered
         else ret branches
     | _ => ret branches
     end) ;;
  g <- preCleanupCheck branchesToDelete defaultMain ;;
  match g with
  | inl err =>
      console_error_obj "Error during pre-cleanup check:" err ;; process_exit 1
  | inr finalBranchesToDelete =>
      if Nat.eqb (length finalBranchesToDelete) 0 then
        console_log "No branches available to delete after pre-cleanup adjustments." ;;
        process_exit 0
      else ret finalBranchesToDelete
  end.

(** [main], lines 319-367: the callback of [confirmDisclaimer]. *)
Definition main_delete (option : Z) (finalBranchesToDelete : list string)
  : M W unit :=
  if Z.eqb option 1 || Z.eqb option 3 then
    d <- deleteBranches finalBranchesToDelete false ;;
    match d with
    | inl err =>
        console_error_obj "Error during branch deletion:" err ;; process_exit 1
    | inr failedBranches =>
        if Nat.ltb 0 (length failedBranches) then
          r <- prompt forceSchema ;;
          match r with
          | inl err => console_error_obj "Prompt error:" err ;; process_exit 1
          | inr answer =>
              if saysYes answer then
                d' <- deleteBranches failedBranches true ;;
                match d' with
                | inl err =>
                    console_error_obj "Error during forced branch deletion:" err ;;
                    process_exit 1
                | inr _ =>
                    console_log "Forced deletion completed." ;; process_exit 0
                end
              else
                console_log "Cleanup operation completed with safe deletion." ;;
                process_exit 0
          end
        else
          console_log "Cleanup operation completed." ;; process_exit 0
    end
  else if Z.eqb option 2 then
    d <- deleteBranches finalBranchesToDelete true ;;
    match d with
    | inl err =>
        console_error_obj "Error during forced branch deletion:" err ;;
        process_exit 1
    | inr _ => console_log "Forced deletion completed." ;; process_exit 0
    end
  else ret tt.

(** [main], from the callback of the option prompt on (lines 295-368). *)
Definition main_selected (defaultMain : option string) (branches : list string)
  (option : Z) : M W unit :=
  finalBranchesToDelete <- main_target defaultMain branches option ;;
  confirmDisclaimer ;;
  main_delete option finalBranchesToDelete.

(** [main]: a result [Ret tt] is a run whose callbacks all returned without
    a call of [process.exit]. *)
Definition main : M W unit :=
  repo <- isGitRepo ;;
  if negb repo then
    console_error
      "Error: This script must be run inside a Git repository (no .git folder found)." ;;
    process_exit 1
  else
  (* First, determine the default main branch. *)
  d <- getDefaultMainBranch ;;
  match d with
  | inl err =>
      console_error_obj "Error determining default branch:" err ;;
      process_exit 1
  | inr defaultMain =>
  (* Next, get the list of branches that need cleanup. *)
  l <- getDetachedBranches ;;
  match l with
  | inl err => console_error (error_message err) ;; process_exit 1
  | inr branches =>
  if Nat.eqb (length branches) 0 then
    console_log "No local branches with missing or gone upstreams were found." ;;
    process_exit 0
  else
  option <- main_menu defaultMain branches ;;
  main_selected defaultMain branches option
  end
  end.

(** A run of the program: the flag starts at [false]. *)
Definition run (w : W) : trace * res unit * pstate W := main (PState w false).

End Functions.

(** ** A scripted host

    The world is the list of the answers still to be given.  An operation
    takes the next answer when it is of its kind; otherwise it fails (a
    subprocess error, a prompt error, a missing path) and leaves the script
    as it is. *)

Inductive reply : Type :=
| SExists (b : bool)
| SExec (r : exec_result)
| SAnswer (a : error + string)
| SNumber (n : error + Z).

Definition script := list reply.

Definition exec_ok (out : string) : reply := SExec (ExecResult false out "").
Definition exec_fail (err : string) : reply := SExec (ExecResult true "" err).
Definition says (a : string) : reply := SAnswer (inr a).

#[export] Instance script_host : Host script := {
  fs_existsSync _ w :=
    match w with
    | SExists b :: w' => (b, w')
    | _ => (false, w)
    end;
  child_exec _ w :=
    match w with
    | SExec r :: w' => (r, w')
    | _ => (ExecResult true "" "", w)
    end;
  prompt_get _ w :=
    match w with
    | SAnswer a :: w' => (a, w')
    | _ => (inl (Error "canceled"), w)
    end;
  prompt_get_number _ w :=
    match w with
    | SNumber n :: w' => (n, w')
    | _ => (inl (Error "canceled"), w)
    end
}.

(** ** The grammar of a listing line, in the words of the specification *)

Module Grammar.

(** The longest prefix of [s] in the class [p], and what follows it. *)
Fixpoint span (p : ascii -> bool) (s : string) : string * string :=
  match s with
  | String a s' =>
      if p a then let (run, rest) := span p s' in (String a run, rest)
      else ("", s)
  | EmptyString => ("", "")
  end.

(** The optional [[...]] block at the head of [s]: its content. *)
Definition bracket_block (s : string) : option string :=
  match s with
  | String a s' =>
      if Ascii.eqb a "[" then
        match span (not_char "]") s' with
        | (String _ _ as t, String b _) =>
            if Ascii.eqb b "]" then Some t else None
        | _ => None
        end
      else None
  | EmptyString => None
  end.

(** Whitespace, name token (non-whitespace run), whitespace, hex commit id,
    whitespace, optional block. *)
Definition tokens (s : string) : option (string * option string) :=
  let (_, s1) := span is_space s in
  match span non_space s1 with
  | (String _ _ as name, s2) =>
      match span is_space s2 with
      | (String _ _, s3) =>
          match span is_hex s3 with
          | (String _ _, s4) =>
              match span is_space s4 with
              | (String _ _, s5) => Some (name, bracket_block s5)
              | _ => None
              end
          | _ => None
          end
      | _ => None
      end
  | _ => None
  end.

(** The optional leading current-branch marker: taken when the line parses
    with it, else the line is read without a marker. *)
Definition tokenize_line (line : string) : option (string * option string) :=
  match line with
  | String a s' =>
      if Ascii.eqb a "*" then
        match tokens s' with
        | Some r => Some r
        | None => tokens line
        end
      else tokens line
  | EmptyString => tokens line
  end.

(** A line is stale when the block is absent, or present with the
    substring [gone]; a line outside the grammar gives no branch. *)
Definition stale_names (line : string) : list string :=
  match tokenize_line line with
  | Some (name, None) => [name]
  | Some (name, Some block) => if includes "gone" block then [name] else []
  | None => []
  end.

End Grammar.

(** ** Reading traces *)

(** A deletion subprocess: [git branch -d <name>] or [git branch -D <name>]. *)
Definition is_deletion_cmd (cmd : string) : bool :=
  prefix "git branch -d " cmd || prefix "git branch -D " cmd.

Definition is_deletion (e : event) : bool :=
  match e with
  | EvExec cmd _ => is_deletion_cmd cmd
  | _ => false
  end.

(** A forced deletion subprocess. *)
Definition is_forced_deletion (e : event) : bool :=
  match e with
  | EvExec cmd _ => prefix "git branch -D " cmd
  | _ => false
  end.

Definition is_prompt (e : event) : bool :=
  match e with
  | EvPrompt _ _ | EvPromptNumber _ _ => true
  | _ => false
  end.

(** The disclaimer being shown. *)
Definition is_disclaimer (e : event) : bool :=
  match e with
  | EvLog msg => msg =? warningMessage
  | _ => false
  end.

(** The prompt that follows the disclaimer. *)
Definition is_confirm_prompt (e : event) : bool :=
  match e with
  | EvPrompt q _ => name q =? "confirm"
  | _ => false
  end.

(** The disclaimer being affirmed: an answer yes or y, in any case. *)
Definition is_affirmation (e : event) : bool :=
  match e with
  | EvPrompt q (inr answer) => (name q =? "confirm") && saysYes answer
  | _ => false
  end.

(** The forced-retry offer. *)
Definition is_force_offer (e : event) : bool :=
  match e with
  | EvPrompt q _ => name q =? "force"
  | _ => false
  end.

(** An existence query for the protected name [b]. *)
Definition is_exists_query (b : string) (e : event) : bool :=
  match e with
  | EvExec cmd _ => cmd =? listCmd b
  | _ => false
  end.

Definition is_listing (e : event) : bool :=
  match e with
  | EvExec cmd _ => cmd =? listingCmd
  | _ => false
  end.

Definition count (p : event -> bool) (t : trace) : nat :=
  length (filter p t).

Definition trace_of {W A} (x : trace * res A * pstate W) : trace := fst (fst x).
Definition result_of {W A} (x : trace * res A * pstate W) : res A := snd (fst x).
Definition state_of {W A} (x : trace * res A * pstate W) : pstate W := snd x.

(** ** The listing of scenario A *)

Definition scenarioA : string :=
  "* feature 1a2b3c4 [origin/feature] msg" ++ String "010" "" ++
  "  bugfix 5d6e7f8 msg" ++ String "010" "" ++
  "  oldfeat 9a8b7c6 [origin/oldfeat: gone] msg".

(** ** Continuations of the matcher *)

Section MatcherReadings.

Variable p : ascii -> bool.

(** A continuation that fails wherever the input starts in the class. *)
Definition fails_on_class (k : cont) : Prop :=
  forall a s j c, p a = true -> k (MState j (String a s) c) = None.

(** A continuation that never fails. *)
Definition succeeds (k : cont) : Prop := forall x, k x <> None.

(** What [class+] does, in terms of the span. *)
Definition after_run (k : cont) (x : mstate) : option mstate :=
  match Grammar.span p (rest x) with
  | (String _ _ as run, tl) =>
      k (MState (endIndex x + String.length run) tl (caps x))
  | _ => None
  end.

End MatcherReadings.

(** ** The line pattern in parts *)

(** The optional block [(\[([^\]]+)\])?], last in the pattern. *)
Definition blockRegex : regex :=
  Opt (Group 2
    (Seq (Chr (is_char "["))
    (Seq (Group 3 (Plus (not_char "]")))
         (Chr (is_char "]"))))).

(** The pattern after [^\*?]. *)
Definition tailRegex : regex :=
  Seq (Star is_space)
  (Seq (Group 1 (Plus non_space))
  (Seq (Plus is_space)
  (Seq (Plus is_hex)
  (Seq (Plus is_space) blockRegex)))).

(** The two captures the caller reads. *)
Definition read (y : option mstate) : option (option string * option string) :=
  option_map (fun y => (caps y 1, caps y 3)) y.

Definition lift (r : option (string * option string))
  : option (option string * option string) :=
  option_map (fun r => (Some (fst r), snd r)) r.

(** ** Reading traces, continued *)

Definition is_reread (e : event) : bool :=
  match e with
  | EvExec cmd _ => cmd =? revParseCmd
  | _ => false
  end.

(** The two messages about an emptied list of targets. *)
Definition is_empty_notice (msg : string) : bool :=
  (msg =? "No branches available to delete after pre-cleanup adjustments.") ||
  prefix "No branches available to delete after filtering out '" msg.

Definition is_notice (e : event) : bool :=
  match e with
  | EvLog msg => is_empty_notice msg
  | _ => false
  end.

Definition is_default_prompt (e : event) : bool :=
  match e with
  | EvPrompt q _ => name q =? "default"
  | _ => false
  end.

Definition is_log (e : event) : bool :=
  match e with
  | EvLog _ => true
  | _ => false
  end.

Definition is_checkout (e : event) : bool :=
  match e with
  | EvExec cmd _ => prefix "git checkout " cmd
  | _ => false
  end.

(** Before the disclaimer: no deletion, no disclaimer, no confirmation, no
    forced-retry offer. *)
Definition calm (e : event) : bool :=
  negb (is_deletion e) && negb (is_disclaimer e) &&
  negb (is_confirm_prompt e) && negb (is_force_offer e).

(** Nothing that the choice of the targets does: no message about an
    emptied list, no checkout. *)
Definition silent (e : event) : bool :=
  negb (is_notice e) && negb (is_checkout e).

(** After the disclaimer: it is neither shown nor asked again. *)
Definition gate_passed (e : event) : bool :=
  negb (is_disclaimer e) && negb (is_confirm_prompt e).

(** After the resolution of the default branch and the listing: no
    existence query, no question about the default, no listing. *)
Definition resolved (e : event) : bool :=
  negb (is_listing e) && negb (is_exists_query "main" e) &&
  negb (is_exists_query "master" e) && negb (is_default_prompt e).

Definition early (e : event) : bool := calm e && silent e.

Definition after_gate (e : event) : bool :=
  gate_passed e && silent e && resolved e.

(** Reading a trace from its start, an affirmation of the disclaimer comes
    before the first deletion subprocess, if there is one. *)
Fixpoint gated (t : trace) : bool :=
  match t with
  | [] => true
  | e :: t' => is_affirmation e || (negb (is_deletion e) && gated t')
  end.

(** The name a deletion command is about. *)
Definition deletion_target (cmd : string) : string :=
  substring 14 (String.length cmd - 14) cmd.

(** The names whose safe deletion failed as not fully merged, in order. *)
Definition unmerged_in (t : trace) : list string :=
  flat_map (fun e =>
    match e with
    | EvExec cmd d =>
        if prefix "git branch -d " cmd && failed d &&
           includes "not fully merged" (stderr d)
        then [deletion_target cmd] else []
    | _ => []
    end) t.

(** Every deletion subprocess of [t] comes right after a successful
    reading of the current branch that gave another name than the one
    deleted. *)
Definition reread_before_deletion (t : trace) : Prop :=
  forall i cmd d,
    nth_error t i = Some (EvExec cmd d) ->
    is_deletion_cmd cmd = true ->
    exists j r,
      i = S j /\ nth_error t j = Some (EvExec revParseCmd r) /\
      failed r = false /\ trim (stdout r) <> deletion_target cmd.

(** The step a reading of the current branch belongs to: the number of
    readings before it. *)
Definition step_of (t : trace) (i : nat) : nat := count is_reread (firstn i t).

(** What an existence query says: the branch exists when the subprocess
    succeeded and printed something else than white space. *)
Definition exists_of (r : exec_result) : bool :=
  negb (failed r) && negb (trim (stdout r) =? "").

(** A literal matched under the flag [i], on code units below 256: the two
    strings are equal up to the case of their letters. *)
Fixpoint matches_ci (pat s : string) : bool :=
  match pat, s with
  | EmptyString, EmptyString => true
  | String p pat', String c s' =>
      Ascii.eqb (lower_char c) (lower_char p) && matches_ci pat' s'
  | _, _ => false
  end.

(** [/^(main|master)$/i] *)
Definition accepts_default (answer : string) : bool :=
  matches_ci "main" answer || matches_ci "master" answer.

(** [branchesToDelete] as [main] hands it to the Guard: option 3 with a
    default branch filters the default out. *)
Definition branchesToDelete_of (defaultMain : option string)
  (branches : list string) (option : Z) : list string :=
  match defaultMain with
  | Some (String _ _ as defaultMain) =>
      if Z.eqb option 3 then filter (differsIgnoringCase defaultMain) branches
      else branches
  | _ => branches
  end.

Definition filteredNotice (defaultMain : string) : string :=
  "No branches available to delete after filtering out '" ++ defaultMain ++ "'.".

Definition adjustedNotice : string :=
  "No branches available to delete after pre-cleanup adjustments.".

Definition repoError : string :=
  "Error: This script must be run inside a Git repository (no .git folder found).".

Definition noneFound : string :=
  "No local branches with missing or gone upstreams were found.".

Definition currentBranchError : error :=
  Error "Failed to get current branch. Are you sure this is a Git repository?".

Definition guard_notice (defaultMain current : string) : event :=
  EvLog ("You are not currently on the '" ++ defaultMain ++
         "' branch. (Current branch: '" ++ current ++ "')").

Definition switchError (defaultMain : string) (c : exec_result) : error :=
  Error ("Failed to switch to " ++ defaultMain ++ ": " ++ trim (stderr c)).

(** The runs of the engine on a batch: one rule for the end of the batch,
    one for the fatal failure to read the current branch, and one for each
    outcome of a name (skipped as current, deleted, failed as unmerged,
    failed otherwise).  [engine_run forced names failed0 t out] relates the
    batch still to do and the failures recorded so far to the events and
    the value given to the callback. *)
Inductive engine_run (forced : bool)
  : list string -> list string -> trace -> error + list string -> Prop :=
| run_done failed0 :
    engine_run forced [] failed0 [] (inr failed0)
| run_fatal b bs failed0 r :
    failed r = true ->
    engine_run forced (b :: bs) failed0
      [EvExec revParseCmd r] (inl currentBranchError)
| run_skipped b bs failed0 r t out :
    failed r = false ->
    b = trim (stdout r) ->
    engine_run forced bs failed0 t out ->
    engine_run forced (b :: bs) failed0
      (EvExec revParseCmd r :: EvLog ("Skipping current branch: " ++ b) :: t)
      out
| run_deleted b bs failed0 r d t out :
    failed r = false ->
    b <> trim (stdout r) ->
    failed d = false ->
    engine_run forced bs failed0 t out ->
    engine_run forced (b :: bs) failed0
      (EvExec revParseCmd r :: EvExec (delCmd forced b) d ::
       EvLog ("Deleted branch " ++ b) :: t) out
| run_unmerged b bs failed0 r d t out :
    failed r = false ->
    b <> trim (stdout r) ->
    failed d = true ->
    forced = false ->
    includes "not fully merged" (stderr d) = true ->
    engine_run forced bs (failed0 ++ [b])%list t out ->
    engine_run forced (b :: bs) failed0
      (EvExec revParseCmd r :: EvExec (delCmd forced b) d ::
       EvError ("Unable to delete " ++ b ++ " as it is not fully merged.") :: t)
      out
| run_failed b bs failed0 r d t out :
    failed r = false ->
    b <> trim (stdout r) ->
    failed d = true ->
    negb forced && includes "not fully merged" (stderr d) = false ->
    engine_run forced bs failed0 t out ->
    engine_run forced (b :: bs) failed0
      (EvExec revParseCmd r :: EvExec (delCmd forced b) d ::
       EvError ("Error deleting branch " ++ b ++ ": " ++ trim (stderr d)) :: t)
      out.

(** A safe deletion subprocess. *)
Definition is_safe_deletion (e : event) : bool :=
  match e with
  | EvExec cmd _ => prefix "git branch -d " cmd
  | _ => false
  end.

(** Before the deletion stage: no deletion subprocess and no forced-retry
    offer. *)
Definition before_pass (e : event) : bool :=
  negb (is_deletion e) && negb (is_force_offer e).

(** The run ended on a safe pass that the engine gave up: a reading of the
    current branch failed, the engine called back with the error, and
    [main] reported it (lines 127 and 322-325). *)
Definition cut_short (t : trace) : Prop :=
  exists pre r,
    t = (pre ++ [EvExec revParseCmd r;
                 EvErrorObj "Error during branch deletion:"
                   currentBranchError])%list /\
    failed r = true.

(** ** Runs read off the answers of the host *)

Section Readings.

Context {W : Type} {host : Host W}.

(** Every event of [m] satisfies [p]. *)
Definition emits (p : event -> bool) {A} (m : M W A) : Prop :=
  forall s, forallb p (trace_of (m s)) = true.

(** Every run of [m] has its deletions right after a reading of the
    current branch. *)
Definition rereads {A} (m : M W A) : Prop :=
  forall s, reread_before_deletion (trace_of (m s)).

(** [m] leaves the flag [disclaimerConfirmed] as it found it. *)
Definition keeps_flag {A} (m : M W A) : Prop :=
  forall s, disclaimerConfirmed (state_of (m s)) = disclaimerConfirmed s.

(** [evs] followed by the run [x]. *)
Definition prepend {A} (evs : trace) (x : trace * res A * pstate W)
  : trace * res A * pstate W :=
  ((evs ++ trace_of x)%list, result_of x, state_of x).

(** One step of [deleteNext], read off the answers of the host. *)
Definition deleteNext_unfolded (forced : bool) (branch : string)
  (remaining failedBranches : list string) (s : pstate W)
  : trace * res (error + list string) * pstate W :=
  let (r, w1) := child_exec revParseCmd (world s) in
  let s1 := PState w1 (disclaimerConfirmed s) in
  if failed r then
    ([EvExec revParseCmd r], Ret (inl currentBranchError), s1)
  else if branch =? trim (stdout r) then
    prepend [EvExec revParseCmd r; EvLog ("Skipping current branch: " ++ branch)]
      (deleteNext forced remaining failedBranches s1)
  else
    let (d, w2) := child_exec (delCmd forced branch) w1 in
    let s2 := PState w2 (disclaimerConfirmed s) in
    if failed d then
      if negb forced && includes "not fully merged" (stderr d) then
        prepend [EvExec revParseCmd r; EvExec (delCmd forced branch) d;
                 EvError ("Unable to delete " ++ branch ++
                          " as it is not fully merged.")]
          (deleteNext forced remaining (failedBranches ++ [branch])%list s2)
      else
        prepend [EvExec revParseCmd r; EvExec (delCmd forced branch) d;
                 EvError ("Error deleting branch " ++ branch ++ ": " ++
                          trim (stderr d))]
          (deleteNext forced remaining failedBranches s2)
    else
      prepend [EvExec revParseCmd r; EvExec (delCmd forced branch) d;
               EvLog ("Deleted branch " ++ branch)]
        (deleteNext forced remaining failedBranches s2).

(** What [confirmDisclaimer] does when the flag is not set. *)
Definition confirmDisclaimer_unfolded (s : pstate W) : trace * res unit * pstate W :=
  let (r, w1) := prompt_get confirmSchema (world s) in
  match r with
  | inl err =>
      ([EvLog warningMessage; EvPrompt confirmSchema r;
        EvErrorObj "Prompt error:" err], Exit 1, PState w1 false)
  | inr answer =>
      if saysYes answer then
        ([EvLog warningMessage; EvPrompt confirmSchema r], Ret tt,
         PState w1 true)
      else
        ([EvLog warningMessage; EvPrompt confirmSchema r;
          EvLog "Cleanup operation cancelled by user."], Exit 0,
         PState w1 false)
  end.

(** What holds of a run started with the flag unset. *)
Definition gate_holds {A} (x : trace * res A * pstate W) : Prop :=
  gated (trace_of x) = true /\
  (forall q answer,
     In (EvPrompt q (inr answer)) (trace_of x) ->
     name q = "confirm" -> saysYes answer = false ->
     result_of x = Exit 0 /\
     forallb (fun e => negb (is_deletion e)) (trace_of x) = true) /\
  count is_disclaimer (trace_of x) <= 1 /\
  count is_confirm_prompt (trace_of x) <= 1.

Definition gate_ok {A} (m : M W A) : Prop :=
  forall s, disclaimerConfirmed s = false -> gate_holds (m s).

(** How a forced pass ends the run. *)
Definition forced_closing (x : trace * res (error + list string) * pstate W)
  : trace * res unit * pstate W :=
  match result_of x with
  | Ret (inl err) =>
      ((trace_of x ++ [EvErrorObj "Error during forced branch deletion:" err])%list,
       Exit 1, state_of x)
  | Ret (inr _) =>
      ((trace_of x ++ [EvLog "Forced deletion completed."])%list,
       Exit 0, state_of x)
  | Exit c => (trace_of x, Exit c, state_of x)
  end.

(** The safe pass of [main_delete], then the offer. *)
Definition safe_then_offer (final : list string) (s : pstate W)
  : trace * res unit * pstate W :=
  let safe := deleteBranches final false s in
  match result_of safe with
  | Ret (inl err) =>
      ((trace_of safe ++ [EvErrorObj "Error during branch deletion:" err])%list,
       Exit 1, state_of safe)
  | Ret (inr []) =>
      ((trace_of safe ++ [EvLog "Cleanup operation completed."])%list,
       Exit 0, state_of safe)
  | Ret (inr failedBranches) =>
      let (r, w2) := prompt_get forceSchema (world (state_of safe)) in
      let s2 := PState w2 (disclaimerConfirmed (state_of safe)) in
      match r with
      | inl err =>
          ((trace_of safe ++
            [EvPrompt forceSchema r; EvErrorObj "Prompt error:" err])%list,
           Exit 1, s2)
      | inr answer =>
          if saysYes answer then
            prepend (trace_of safe ++ [EvPrompt forceSchema r])%list
              (forced_closing (deleteBranches failedBranches true s2))
          else
            ((trace_of safe ++
              [EvPrompt forceSchema r;
               EvLog "Cleanup operation completed with safe deletion."])%list,
             Exit 0, s2)
      end
  | Exit c => (trace_of safe, Exit c, state_of safe)
  end.

(** [preCleanupCheck] with a default branch, read off the answers of the
    host. *)
Definition preCleanupCheck_unfolded (bs : list string) (d : string)
  (s : pstate W) : trace * res (error + list string) * pstate W :=
  let flag := disclaimerConfirmed s in
  let (r, w1) := child_exec revParseCmd (world s) in
  if failed r then
    ([EvExec revParseCmd r], Ret (inl currentBranchError), PState w1 flag)
  else
    let current := trim (stdout r) in
    if toLowerCase current =? toLowerCase d then
      ([EvExec revParseCmd r], Ret (inr bs), PState w1 flag)
    else
      let (a, w2) := prompt_get (switchSchema d) w1 in
      let asked := [EvExec revParseCmd r; guard_notice d current;
                    EvPrompt (switchSchema d) a] in
      match a with
      | inl err => (asked, Ret (inl err), PState w2 flag)
      | inr answer =>
          if saysYes answer then
            let (c, w3) := child_exec (checkoutCmd d) w2 in
            if failed c then
              ((asked ++ [EvExec (checkoutCmd d) c])%list,
               Ret (inl (switchError d c)), PState w3 flag)
            else
              ((asked ++ [EvExec (checkoutCmd d) c;
                          EvLog ("Switched to " ++ d ++ ".")])%list,
               Ret (inr bs), PState w3 flag)
          else
            (asked, Ret (inr (filter (differsIgnoringCase current) bs)),
             PState w2 flag)
      end.

(** What the choice of the targets can end in: a message about an emptied
    list is its last event and comes with status 0; a failed checkout comes
    with status 1. *)
Definition target_outcomes {A} (y : trace * res A * pstate W) : Prop :=
  (forall msg,
     In (EvLog msg) (trace_of y) -> is_empty_notice msg = true ->
     result_of y = Exit 0 /\ exists pre, trace_of y = (pre ++ [EvLog msg])%list) /\
  (forall cmd c,
     In (EvExec cmd c) (trace_of y) -> prefix "git checkout " cmd = true ->
     failed c = true -> result_of y = Exit 1).

(** A run started with the flag unset either stops before the choice of
    the targets, on events of the early phases only, or is such events
    followed by [main_selected]. *)
Definition staged (x : trace * res unit * pstate W) : Prop :=
  (forallb early (trace_of x) = true /\ exists c, result_of x = Exit c) \/
  (exists defaultMain branches option s1 pre,
     forallb early pre = true /\ disclaimerConfirmed s1 = false /\
     x = prepend pre (main_selected defaultMain branches option s1)).

Definition stages (m : M W unit) : Prop :=
  forall s, disclaimerConfirmed s = false -> staged (m s).

(** [getDefaultMainBranch], read off the answers of the host. *)
Definition getDefaultMainBranch_unfolded (s : pstate W)
  : trace * res (error + option string) * pstate W :=
  let flag := disclaimerConfirmed s in
  let (r1, w1) := child_exec (listCmd "main") (world s) in
  let (r2, w2) := child_exec (listCmd "master") w1 in
  let queries := [EvExec (listCmd "main") r1; EvExec (listCmd "master") r2] in
  if exists_of r1 && exists_of r2 then
    let (a, w3) := prompt_get defaultSchema w2 in
    ((queries ++ [EvPromptStart; EvPrompt defaultSchema a])%list,
     Ret (match a with
          | inl err => inl err
          | inr answer => inr (Some (toLowerCase answer))
          end),
     PState w3 flag)
  else
    (queries,
     Ret (inr (if exists_of r1 then Some "main"
               else if exists_of r2 then Some "master" else None)),
     PState w2 flag).

(** A run up to the listing, read off the answers of the host. *)
Definition run_unfolded (w : W) : trace * res unit * pstate W :=
  let (repo, w0) := fs_existsSync ".git" w in
  if negb repo then
    ([EvExists ".git" repo; EvError repoError], Exit 1, PState w0 false)
  else
    let x := getDefaultMainBranch (PState w0 false) in
    match result_of x with
    | Ret (inl err) =>
        (EvExists ".git" repo ::
           (trace_of x ++
            [EvErrorObj "Error determining default branch:" err])%list,
         Exit 1, state_of x)
    | Ret (inr defaultMain) =>
        let (l, w4) := child_exec listingCmd (world (state_of x)) in
        let s4 := PState w4 (disclaimerConfirmed (state_of x)) in
        let head :=
          EvExists ".git" repo :: (trace_of x ++ [EvExec listingCmd l])%list in
        if failed l then
          ((head ++ [EvError "Error running 'git branch -vv'."])%list,
           Exit 1, s4)
        else
          let branches := parseDetachedBranches (stdout l) in
          if Nat.eqb (length branches) 0 then
            ((head ++ [EvLog noneFound])%list, Exit 0, s4)
          else
            prepend head
              (bind (main_menu defaultMain branches)
                 (fun option => main_selected defaultMain branches option) s4)
    | Exit c => (EvExists ".git" repo :: trace_of x, Exit c, state_of x)
    end.

End Readings.

Section OfferReadings.

Context {W : Type} {host : Host W}.

(** What the forced-retry offer of a run is followed by. *)
Definition offer_outcome (x : trace * res unit * pstate W) (pre : trace)
  (r : error + string) (post : trace) : Prop :=
  match r with
  | inl err =>
      post = [EvErrorObj "Prompt error:" err] /\ result_of x = Exit 1
  | inr answer =>
      if saysYes answer then
        (exists s2,
           post = trace_of (forced_closing
                              (deleteBranches (unmerged_in pre) true s2)) /\
           result_of x =
             result_of (forced_closing
                          (deleteBranches (unmerged_in pre) true s2))) /\
        (forall e, In e (trace_of x) -> is_forced_deletion e = true ->
                   exists b d,
                     In b (unmerged_in pre) /\ e = EvExec (delCmd true b) d)
      else
        post = [EvLog "Cleanup operation completed with safe deletion."] /\
        result_of x = Exit 0 /\
        forallb (fun e => negb (is_forced_deletion e)) (trace_of x) = true
  end.

End OfferReadings.

(** ** Sample sessions of the scripted host *)

(** Both protected branches exist, with live upstreams, and nothing is
    stale: the host answers the repository check, the two existence
    queries, the question about the default and the listing. *)
Definition both_defaults_no_stale : script :=
  [SExists true; exec_ok "  main"; exec_ok "  master"; says "main";
   exec_ok ("* main   1a2b3c4 [origin/main] one" ++ String "010" "" ++
            "  master 5d6e7f8 [origin/master] two")].

(** The current branch is [beta]; [alpha] gets deleted, [beta] is skipped. *)
Definition skip_session : script :=
  [exec_ok "beta"; exec_ok ""; exec_ok ("beta" ++ String "010" "")].

(** Scenarios A and D in one session: main exists, the listing is the one
    of scenario A, option 1, stay on [feature], yes to the disclaimer;
    [bugfix] is not fully merged, [oldfeat] gets deleted, yes to the offer. *)
Definition cleanup_session : script :=
  [SExists true; exec_ok "  main"; exec_fail "";
   exec_ok scenarioA; SNumber (inr 1%Z);
   exec_ok "feature"; says "n"; says "YES";
   exec_ok "feature";
   exec_fail "error: The branch 'bugfix' is not fully merged.";
   exec_ok "feature"; exec_ok "Deleted branch oldfeat.";
   says "y"; exec_ok "feature"; exec_ok "Deleted branch bugfix."].

(** Scenario D: the safe deletion of [bugfix] fails as not fully merged;
    the offer is answered by y. *)
Definition retry_session : script :=
  [exec_ok "feature";
   exec_fail "error: The branch 'bugfix' is not fully merged.";
   says "y"; exec_ok "feature"; exec_ok "Deleted branch bugfix."].

(** The deletion of [alpha] fails for another reason than unmerged work. *)
Definition failure_session : script :=
  [exec_ok "main"; exec_fail "error: branch 'alpha' not found."].

(** Scenario C: the plan is [alpha], [beta]; the current branch is [beta],
    the default is [main], and the user stays. *)
Definition stay_session : script := [exec_ok "beta"; says "no"].

(** Only main exists, and its upstream is live: nothing is stale. *)
Definition no_stale_session : script :=
  [SExists true; exec_ok "  main"; exec_fail "";
   exec_ok "* main 1a2b3c4 [origin/main] msg"].

(** [Feature] is in the batch while [feature] is checked out. *)
Definition case_session : script := [exec_ok "feature"; exec_ok ""].

(** Scenario B: main and master both exist, the user answers master, then
    cancels at the menu. *)
Definition scenarioB_session : script :=
  [SExists true; exec_ok "  main"; exec_ok "  master"; says "master";
   exec_ok scenarioA; SNumber (inr 4%Z)].

(** Option 1 on [alpha] and [beta] with [main] checked out: the safe
    deletion of [alpha] fails as not fully merged, and the reading of the
    current branch before [beta] fails. *)
Definition cut_short_session : script :=
  [SExists true; exec_ok "  main"; exec_fail "";
   exec_ok ("  alpha 1a2b3c4 one" ++ String "010" "" ++ "  beta 5d6e7f8 two");
   SNumber (inr 1%Z);
   exec_ok "main"; says "yes";
   exec_ok "main";
   exec_fail "error: The branch 'alpha' is not fully merged.";
   exec_fail "fatal: not a git repository"].

(** ** Reading strings, lists and traces, continued *)

(** [s] is empty or starts with a code unit outside the class [p]. *)
Definition starts_outside (p : ascii -> bool) (s : string) : bool :=
  match s with
  | String c _ => negb (p c)
  | EmptyString => true
  end.

(** The two columns git prints before a branch name: the marker of the
    current branch and a blank, or two blanks. *)
Definition lead (current : bool) : string := if current then "* " else "  ".

(** [l1] is [l2] with some of its elements left out. *)
Inductive subseq : list string -> list string -> Prop :=
| subseq_nil : subseq [] []
| subseq_skip b l1 l2 : subseq l1 l2 -> subseq l1 (b :: l2)
| subseq_take b l1 l2 : subseq l1 l2 -> subseq (b :: l1) (b :: l2).

(** The names of the deletion subprocesses of a trace, in order. *)
Definition deletion_targets (t : trace) : list string :=
  flat_map (fun e =>
    match e with
    | EvExec cmd _ => if is_deletion_cmd cmd then [deletion_target cmd] else []
    | _ => []
    end) t.

(** The message of the engine about a name it skipped. *)
Definition is_skip (e : event) : bool :=
  match e with
  | EvLog msg => prefix "Skipping current branch: " msg
  | _ => false
  end.

(** A message on the standard output or on the error stream. *)
Definition is_message (e : event) : bool :=
  match e with
  | EvLog _ | EvError _ => true
  | _ => false
  end.


(** ** The menu and what comes before it, read off the answers of the host *)

(** The third line of the menu. *)
Definition optionThree (defaultMain : option string) : string :=
  match defaultMain with
  | Some (String _ _ as defaultMain) =>
      "  3. Delete all such local branches except '" ++ defaultMain ++
      "' (safe delete)"
  | _ => "  3. Delete all such local branches except 'main/master' (safe delete)"
  end.

(** The lines of the menu, as [main_menu] prints them. *)
Definition menu_lines (defaultMain : option string) (branches : list string)
  : trace :=
  EvLog ("The following local branches have no active upstream branch (or their upstream is gone):"
         ++ String "010" "") ::
  (map (fun b => EvLog ("  " ++ bullet ++ " " ++ b)) branches ++
   [EvLog ""; EvLog "Choose one of the following options:";
    EvLog "  1. Delete all detached local branches (safe delete)";
    EvLog "  2. Delete all detached local branches (forced delete)";
    EvLog (optionThree defaultMain); EvLog "  4. Cancel"; EvPromptStart])%list.

(** The events of [main_menu] up to the answer [r] to the option prompt. *)
Definition menu_events (defaultMain : option string) (branches : list string)
  (r : error + Z) : trace :=
  (menu_lines defaultMain branches ++ [EvPromptNumber optionSchema r])%list.

(** What a run does before the menu: the repository check, the existence
    queries, the question about the default, the listing, and the message
    it may end with. *)
Definition head_event (e : event) : bool :=
  match e with
  | EvExists _ _ | EvPromptStart | EvError _ | EvErrorObj _ _ => true
  | EvExec cmd _ =>
      (cmd =? listCmd "main") || (cmd =? listCmd "master") || (cmd =? listingCmd)
  | EvPrompt q _ => name q =? "default"
  | EvLog msg => msg =? noneFound
  | EvPromptNumber _ _ => false
  end.

Definition is_number_prompt (e : event) : bool :=
  match e with
  | EvPromptNumber _ _ => true
  | _ => false
  end.

(** A deletion subprocess, if [e] is one, is about a name of [bs]. *)
Definition within (bs : list string) (e : event) : bool :=
  match e with
  | EvExec cmd _ =>
      negb (is_deletion_cmd cmd) ||
      existsb (String.eqb (deletion_target cmd)) bs
  | _ => true
  end.

(** [conform] of the option prompt: [[1, 2, 3, 4].includes(Number(value))]. *)
Definition conform (value : Z) : bool := existsb (Z.eqb value) [1; 2; 3; 4]%Z.

Section MenuReadings.

Context {W : Type} {host : Host W}.

(** [main_menu], read off the answer of the host. *)
Definition main_menu_unfolded (defaultMain : option string)
  (branches : list string) (s : pstate W) : trace * res Z * pstate W :=
  let (r, w1) := prompt_get_number optionSchema (world s) in
  let s1 := PState w1 (disclaimerConfirmed s) in
  match r with
  | inl err =>
      ((menu_events defaultMain branches r ++
        [EvErrorObj "Prompt error:" err])%list, Exit 1, s1)
  | inr option =>
      if Z.eqb option 4 then
        ((menu_events defaultMain branches r ++
          [EvLog "Operation cancelled."])%list, Exit 0, s1)
      else (menu_events defaultMain branches r, Ret option, s1)
  end.

(** A run from the menu on. *)
Definition after_listing (defaultMain : option string)
  (branches : list string) : M W unit :=
  option <- main_menu defaultMain branches ;;
  main_selected defaultMain branches option.

End MenuReadings.


(** Nothing that touches the repository, and no disclaimer: no deletion,
    no checkout, no reading of the current branch. *)
Definition harmless (e : event) : bool :=
  negb (is_deletion e) && negb (is_checkout e) && negb (is_reread e) &&
  negb (is_disclaimer e).


(** The consent to a forced deletion: option 2 at the menu, or yes (or y)
    to the forced-retry offer. *)
Definition is_force_consent (e : event) : bool :=
  match e with
  | EvPromptNumber q (inr option) => (name q =? "option") && Z.eqb option 2
  | EvPrompt q (inr answer) => (name q =? "force") && saysYes answer
  | _ => false
  end.

(** Reading a trace from its start, an event of the kind [key] comes
    before the first event of the kind [act], if there is one. *)
Fixpoint guarded_by (key act : event -> bool) (t : trace) : bool :=
  match t with
  | [] => true
  | e :: t' => key e || (negb (act e) && guarded_by key act t')
  end.

(** A message on the error stream. *)
Definition is_failure_report (e : event) : bool :=
  match e with
  | EvError _ | EvErrorObj _ _ => true
  | _ => false
  end.

(** The last event of [t] is of the kind [p]. *)
Definition ends_with (p : event -> bool) (t : trace) : Prop :=
  exists pre e, t = (pre ++ [e])%list /\ p e = true.

(** The front of a run that reached the menu: what came before it, and
    the menu up to the answer [r]. *)
Definition front (head : trace) (d : option string) (bs : list string)
  (r : error + Z) : trace :=
  (head ++ menu_events d bs r)%list.


(** The only checkout of a trace, if there is one, comes right after an
    answer yes (or y) to the question of the Guard, and is the checkout of
    the branch that the question named. *)
Definition checkout_by_consent (t : trace) : Prop :=
  forallb (fun e => negb (is_checkout e)) t = true \/
  exists pre post d answer c,
    t = (pre ++ EvPrompt (switchSchema d) (inr answer) ::
                EvExec (checkoutCmd d) c :: post)%list /\
    saysYes answer = true /\
    forallb (fun e => negb (is_checkout e)) pre = true /\
    forallb (fun e => negb (is_checkout e)) post = true.


(** The error of a failed listing. *)
Definition listingError : error := Error "Error running 'git branch -vv'.".

(** The failures that a function of the tool hands to its callback as an
    error: a failed prompt, a failed reading of the current branch, a
    failed listing. *)
Definition failure_of (ev : event) : option error :=
  match ev with
  | EvPrompt _ (inl e) | EvPromptNumber _ (inl e) => Some e
  | EvExec cmd r =>
      if failed r then
        if cmd =? revParseCmd then Some currentBranchError
        else if cmd =? listingCmd then Some listingError
        else None
      else None
  | _ => None
  end.

Definition no_failure (ev : event) : bool :=
  match failure_of ev with
  | Some _ => false
  | None => true
  end.

(** [t] is the report of the error [e] on the error stream, by
    [console.error(msg, err)] or by [console.error(err.message)]. *)
Definition reported (e : error) (t : trace) : Prop :=
  (exists msg, t = [EvErrorObj msg e]) \/ t = [EvError (error_message e)].

Section EndingReadings.

Context {W : Type} {host : Host W}.

(** A process that ends, ends with status 0 after a message on the standard
    output, or with status 1 after a message on the error stream. *)
Definition ends_well {A} (x : trace * res A * pstate W) : Prop :=
  forall c,
    result_of x = Exit c ->
    (c = 0%Z /\ ends_with is_log (trace_of x)) \/
    (c = 1%Z /\ ends_with is_failure_report (trace_of x)).

Definition closes {A} (m : M W A) : Prop := forall s, ends_well (m s).

(** [m] always calls back. *)
Definition returns {A} (m : M W A) : Prop :=
  forall s, exists a, result_of (m s) = Ret a.

(** A run without failure, or one whose failure was reported at once and
    ended the process with status 1. *)
Definition settled {A} (x : trace * res A * pstate W) : Prop :=
  forallb no_failure (trace_of x) = true \/
  exists pre ev e post,
    trace_of x = (pre ++ ev :: post)%list /\
    forallb no_failure pre = true /\ failure_of ev = Some e /\
    reported e post /\ result_of x = Exit 1.

Definition settles {A} (m : M W A) : Prop := forall s, settled (m s).

(** A function without failure, or one that hands its failure, the last
    thing it did, to its callback. *)
Definition hands_over {A} (m : M W (error + A)) : Prop :=
  forall s,
    forallb no_failure (trace_of (m s)) = true \/
    exists pre ev e,
      trace_of (m s) = (pre ++ [ev])%list /\
      forallb no_failure pre = true /\ failure_of ev = Some e /\
      result_of (m s) = Ret (inl e).

End EndingReadings.


(** [/^(yes|no|y|n)$/i], the pattern of the three yes/no prompts. *)
Definition accepts_yes_no (answer : string) : bool :=
  matches_ci "yes" answer || matches_ci "no" answer ||
  matches_ci "y" answer || matches_ci "n" answer.

(** ** The first version of the tool

    The source holds a first version of the script, [git-cleanup.js]: no
    resolution of the default branch, no Guard and no disclaimer.  Its
    [isGitRepo], [getCurrentBranch], [getDetachedBranches] and
    [deleteBranches] are, statement for statement, those of the current
    version, and are the definitions above; its [main] differs.  The flag
    [disclaimerConfirmed] of the state does not exist in this version, and
    nothing here reads or writes it. *)

(** [list.join(sep)] *)
Fixpoint join (sep : string) (l : list string) : string :=
  match l with
  | [] => ""
  | [a] => a
  | a :: l' => a ++ sep ++ join sep l'
  end.

Module Legacy.

Section Functions.

Context {W : Type} {host : Host W}.

(** The pattern of the offer, [/^(yes|no)$/i], is not one of the three
    validations of the current version: the schema takes it as given. *)
Variable yesOrNo : validation.

(** [b => (b.toLowerCase() !== 'main') && (b.toLowerCase() !== 'master')] *)
Definition notMainNorMaster (b : string) : bool :=
  negb (toLowerCase b =? "main") && negb (toLowerCase b =? "master").

Definition forceSchema (failedBranches : list string) : schema :=
  Schema "force"
    ("The following branches were not fully merged and could not be deleted: "
     ++ join ", " failedBranches ++
     ". Do you want to force delete them? (yes/no)")
    yesOrNo (Some "Please enter yes or no").

(** [main], the listing of the branches, the four options and the
    choice. *)
Definition main_menu (branches : list string) : M W Z :=
  console_log
    ("The following local branches have no active upstream branch (or their upstream is gone):"
     ++ String "010" "") ;;
  forEach_log (fun b => "  " ++ bullet ++ " " ++ b) branches ;;
  console_log "" ;;
  console_log "Choose one of the following options:" ;;
  console_log "  1. Delete all such local branches (safe delete)" ;;
  console_log "  2. Delete all such local branches (forced delete)" ;;
  console_log
    "  3. Delete all such local branches except 'main'/'master' (safe delete)" ;;
  console_log "  4. Cancel" ;;
  prompt_start ;;
  r <- prompt_number optionSchema ;;
  match r with
  | inl err => console_error_obj "Prompt error:" err ;; process_exit 1
  | inr option =>
      if Z.eqb option 4 then
        console_log "Operation cancelled." ;; process_exit 0
      else ret option
  end.

(** [main], the filter of option 3.  Returns [branchesToDelete]. *)
Definition main_filter (option : Z) (branches : list string)
  : M W (list string) :=
  if Z.eqb option 3 then
    let branchesToDelete := filter notMainNorMaster branches in
    if Nat.eqb (length branchesToDelete) 0 then
      console_log
        "No branches available to delete after filtering out main/master." ;;
      process_exit 0
    else ret branchesToDelete
  else ret branches.

(** [main], the two statements that delete: the safe pass of options 1
    and 3 with the offer of a forced retry, and the forced pass of option
    2. *)
Definition main_delete (option : Z) (branchesToDelete : list string)
  : M W unit :=
  (if Z.eqb option 1 || Z.eqb option 3 then
     d <- deleteBranches branchesToDelete false ;;
     match d with
     | inl err =>
         console_error_obj "Error during branch deletion:" err ;; process_exit 1
     | inr failedBranches =>
         if Nat.ltb 0 (length failedBranches) then
           r <- prompt (forceSchema failedBranches) ;;
           match r with
           | inl err => console_error_obj "Prompt error:" err ;; process_exit 1
           | inr answer =>
               if toLowerCase answer =? "yes" then
                 d' <- deleteBranches failedBranches true ;;
                 match d' with
                 | inl err =>
                     console_error_obj "Error during forced branch deletion:" err ;;
                     process_exit 1
                 | inr _ =>
                     console_log "Forced deletion completed." ;; process_exit 0
                 end
               else
                 console_log "Cleanup operation completed with safe deletion." ;;
                 process_exit 0
           end
         else
           console_log "Cleanup operation completed." ;; process_exit 0
     end
   else ret tt) ;;
  if Z.eqb option 2 then
    d <- deleteBranches branchesToDelete true ;;
    match d with
    | inl err =>
        console_error_obj "Error during forced branch deletion:" err ;;
        process_exit 1
    | inr _ => console_log "Forced deletion completed." ;; process_exit 0
    end
  else ret tt.

(** [main], from the callback of the option prompt on. *)
Definition main_selected (branches : list string) (option : Z) : M W unit :=
  branchesToDelete <- main_filter option branches ;;
  main_delete option branchesToDelete.

Definition main : M W unit :=
  repo <- isGitRepo ;;
  if negb repo then
    console_error
      "Error: This script must be run inside a Git repository (no .git folder found)." ;;
    process_exit 1
  else
  l <- getDetachedBranches ;;
  match l with
  | inl err => console_error (error_message err) ;; process_exit 1
  | inr branches =>
  if Nat.eqb (length branches) 0 then
    console_log "No local branches with missing or gone upstreams were found." ;;
    process_exit 0
  else
  option <- main_menu branches ;;
  main_selected branches option
  end.

Definition run (w : W) : trace * res unit * pstate W := main (PState w false).

(** A run up to the menu, read off the answers of the host. *)
Definition run_unfolded (w : W) : trace * res unit * pstate W :=
  let (repo, w0) := fs_existsSync ".git" w in
  if negb repo then
    ([EvExists ".git" repo; EvError repoError], Exit 1, PState w0 false)
  else
    let (l, w1) := child_exec listingCmd w0 in
    let s1 := PState w1 false in
    let head := [EvExists ".git" repo; EvExec listingCmd l] in
    if failed l then
      ((head ++ [EvError "Error running 'git branch -vv'."])%list, Exit 1, s1)
    else
      let branches := parseDetachedBranches (stdout l) in
      if Nat.eqb (length branches) 0 then
        ((head ++ [EvLog noneFound])%list, Exit 0, s1)
      else
        prepend head
          (bind (main_menu branches)
             (fun option => main_selected branches option) s1).

End Functions.

(** The lines of the menu, as [main_menu] prints them. *)
Definition menu_lines (branches : list string) : trace :=
  EvLog ("The following local branches have no active upstream branch (or their upstream is gone):"
         ++ String "010" "") ::
  (map (fun b => EvLog ("  " ++ bullet ++ " " ++ b)) branches ++
   [EvLog ""; EvLog "Choose one of the following options:";
    EvLog "  1. Delete all such local branches (safe delete)";
    EvLog "  2. Delete all such local branches (forced delete)";
    EvLog "  3. Delete all such local branches except 'main'/'master' (safe delete)";
    EvLog "  4. Cancel"; EvPromptStart])%list.

(** The events of a run up to the answer [r] to the option prompt: the
    repository check, the listing [l], the menu and the prompt. *)
Definition front (l : exec_result) (r : error + Z) : trace :=
  (EvExists ".git" true :: EvExec listingCmd l ::
   menu_lines (parseDetachedBranches (stdout l)) ++
   [EvPromptNumber optionSchema r])%list.

(** The consent to a forced deletion in this version: option 2 at the
    menu, or yes to the offer. *)
Definition is_force_consent (e : event) : bool :=
  match e with
  | EvPromptNumber q (inr option) => (name q =? "option") && Z.eqb option 2
  | EvPrompt q (inr answer) => (name q =? "force") && (toLowerCase answer =? "yes")
  | _ => false
  end.

End Legacy.

(** ** More sample sessions of the scripted host *)

(** [main] is checked out and has no upstream; [bugfix] has none either. *)
Definition two_stale : string :=
  "* main   1a2b3c4 one" ++ String "010" "" ++ "  bugfix 5d6e7f8 two".

(** Only main exists; option 3, and the current branch is the default;
    yes to the disclaimer; [bugfix] gets deleted. *)
Definition option_three_session : script :=
  [SExists true; exec_ok "  main"; exec_fail ""; exec_ok two_stale;
   SNumber (inr 3%Z); exec_ok "main"; says "yes";
   exec_ok "main"; exec_ok "Deleted branch bugfix."].

(** The option prompt hands 7 to its callback. *)
Definition unknown_option_session : script :=
  [SExists true; exec_ok "  main"; exec_fail ""; exec_ok two_stale;
   SNumber (inr 7%Z); exec_ok "main"; says "y"].

(** The listing fails. *)
Definition listing_failure_session : script :=
  [SExists true; exec_ok "  main"; exec_fail ""; exec_fail "fatal: bad object"].

(** git prints the current branch with a line feed after it. *)
Definition current_branch_session : script :=
  [exec_ok ("main" ++ String "010" "")].

(** The first version: nothing is stale. *)
Definition legacy_no_stale_session : script :=
  [SExists true; exec_ok "* main 1a2b3c4 [origin/main] msg"].

(** The first version: option 3 with [main] checked out; [bugfix] gets
    deleted. *)
Definition legacy_option_three_session : script :=
  [SExists true; exec_ok two_stale; SNumber (inr 3%Z);
   exec_ok "main"; exec_ok "Deleted branch bugfix."].

(** The first version: option 2 with [main] checked out; [main] is
    skipped and [bugfix] gets deleted by force. *)
Definition legacy_forced_session : script :=
  [SExists true; exec_ok two_stale; SNumber (inr 2%Z);
   exec_ok "main"; exec_ok "main"; exec_ok "Deleted branch bugfix."].

(** * Properties *)

(** ** Scenarios A and B *)

Example scenarioA_stale :
  parseDetachedBranches scenarioA = ["bugfix"; "oldfeat"].
Proof. vm_compute. reflexivity. Qed.

Example scenarioA_grammar :
  flat_map Grammar.stale_names (split "010" scenarioA) = ["bugfix"; "oldfeat"].
Proof. vm_compute. reflexivity. Qed.

Example scenarioB_label :
  In (EvLog "  3. Delete all such local branches except 'master' (safe delete)")
    (trace_of (run scenarioB_session)) /\
  result_of (run scenarioB_session) = Exit 0.
Proof. split; [vm_compute; tauto | reflexivity]. Qed.

(** ** Strings *)

Section SpanFacts.

Import Grammar.

Variable p : ascii -> bool.

Lemma span_append (s : string) : fst (span p s) ++ snd (span p s) = s.
Proof.
  induction s as [|a s IH]; simpl; [reflexivity|].
  destruct (p a); simpl; [|reflexivity].
  destruct (span p s) as [run tl]; simpl in *. now rewrite IH.
Qed.

Lemma substring_append (r tl : string) :
  substring 0 (String.length r) (r ++ tl) = r.
Proof.
  induction r as [|a r IH]; simpl.
  - now destruct tl.
  - now rewrite IH.
Qed.

(** What a group around a run captures. *)
Lemma substring_span (s : string) (i : nat) :
  substring 0 (i + String.length (fst (span p s)) - i) s = fst (span p s).
Proof.
  replace (i + String.length (fst (span p s)) - i)
    with (String.length (fst (span p s))) by lia.
  rewrite <- (span_append s) at 2. apply substring_append.
Qed.

(** The rest of a span does not start in the class. *)
Lemma span_stops (s : string) (a : ascii) (tl : string) :
  snd (span p s) = String a tl -> p a = false.
Proof.
  induction s as [|b s IH]; simpl; [discriminate|].
  destruct (p b) eqn:Hb.
  - destruct (span p s); simpl in *. exact IH.
  - simpl. intros [= -> _]. exact Hb.
Qed.

End SpanFacts.

(** ** The matcher on greedy runs *)

Section GreedyRuns.

Import Grammar.

Variable p : ascii -> bool.

(** The greedy star gives its continuation the longest run when the
    continuation cannot start inside the run. *)
Lemma star_longest (k : cont) (s : string) (i : nat) (c : captures) :
  fails_on_class p k ->
  star p s i c k =
  k (MState (i + String.length (fst (span p s))) (snd (span p s)) c).
Proof.
  intros Hk. revert i.
  induction s as [|a s IH]; intros i; simpl.
  - now rewrite Nat.add_0_r.
  - destruct (p a) eqn:Ha.
    + rewrite IH. destruct (span p s) as [run tl]; simpl.
      rewrite Nat.add_succ_r.
      destruct (k (MState (S (i + String.length run)) tl c)); [reflexivity|].
      now rewrite Hk.
    + simpl. now rewrite Nat.add_0_r.
Qed.

(** The same when the continuation accepts whatever follows. *)
Lemma star_longest_total (k : cont) (s : string) (i : nat) (c : captures) :
  succeeds k ->
  star p s i c k =
  k (MState (i + String.length (fst (span p s))) (snd (span p s)) c).
Proof.
  intros Hk. revert i.
  induction s as [|a s IH]; intros i; simpl.
  - now rewrite Nat.add_0_r.
  - destruct (p a) eqn:Ha.
    + rewrite IH. destruct (span p s) as [run tl]; simpl.
      rewrite Nat.add_succ_r.
      destruct (k (MState (S (i + String.length run)) tl c)) eqn:E;
        [reflexivity|]. now apply Hk in E.
    + simpl. now rewrite Nat.add_0_r.
Qed.

Lemma plus_longest (k : cont) (x : mstate) :
  fails_on_class p k \/ succeeds k ->
  rmatch (Plus p) x k = after_run p k x.
Proof.
  intros Hk. unfold after_run. destruct x as [i s c]; simpl.
  destruct s as [|a s]; simpl; [reflexivity|].
  destruct (p a) eqn:Ha; [|reflexivity].
  assert (E : star p s (S i) c k =
              k (MState (S i + String.length (fst (span p s)))
                   (snd (span p s)) c))
    by (destruct Hk; [now apply star_longest | now apply star_longest_total]).
  rewrite E. destruct (span p s) as [run tl]; simpl.
  now rewrite Nat.add_succ_r.
Qed.

Lemma rmatch_group (n : nat) (r : regex) (k : cont) (x : mstate) :
  rmatch (Group n r) x k =
  rmatch r x (fun y =>
    k (MState (endIndex y) (rest y)
         (set_capture n
            (substring 0 (endIndex y - endIndex x) (rest x)) (caps y)))).
Proof. reflexivity. Qed.

Lemma rmatch_seq (r1 r2 : regex) (k : cont) (x : mstate) :
  rmatch (Seq r1 r2) x k = rmatch r1 x (fun y => rmatch r2 y k).
Proof. reflexivity. Qed.

Lemma rmatch_bol (k : cont) (x : mstate) :
  rmatch Bol x k = if Nat.eqb (endIndex x) 0 then k x else None.
Proof. reflexivity. Qed.

Lemma rmatch_chr (q : ascii -> bool) (k : cont) (x : mstate) :
  rmatch (Chr q) x k =
  match rest x with
  | String a s' => if q a then k (MState (S (endIndex x)) s' (caps x)) else None
  | EmptyString => None
  end.
Proof. reflexivity. Qed.

Lemma rmatch_plus_head (q : ascii -> bool) (k : cont) (i : nat) (a : ascii)
  (s : string) (c : captures) :
  q a = false -> rmatch (Plus q) (MState i (String a s) c) k = None.
Proof. intros Ha. cbn. now rewrite Ha. Qed.

Lemma rmatch_opt (r : regex) (k : cont) (x : mstate) :
  rmatch (Opt r) x k =
  match rmatch r x k with Some y => Some y | None => k x end.
Proof. reflexivity. Qed.

(** A capturing group around [class+] records the run. *)
Lemma group_plus_longest (n : nat) (k : cont) (x : mstate) :
  fails_on_class p k ->
  rmatch (Group n (Plus p)) x k =
  match span p (rest x) with
  | (String _ _ as run, tl) =>
      k (MState (endIndex x + String.length run) tl
           (set_capture n run (caps x)))
  | _ => None
  end.
Proof.
  intros Hk. rewrite rmatch_group, plus_longest.
  - unfold after_run. pose proof (substring_span p (rest x) (endIndex x)) as Hs.
    destruct (span p (rest x)) as [run tl]; simpl in *.
    destruct run; [reflexivity|]. cbn [endIndex rest caps]. now rewrite Hs.
  - left. intros a s j c Ha. cbn [endIndex rest caps]. now apply Hk.
Qed.

End GreedyRuns.

(** ** The line pattern against the grammar *)

Section LinePattern.

Import Grammar.

Lemma hex_not_space (a : ascii) : is_hex a = true -> is_space a = false.
Proof.
  destruct a as [[] [] [] [] [] [] [] []]; vm_compute; congruence.
Qed.

Lemma space_not_hex (a : ascii) : is_space a = true -> is_hex a = false.
Proof.
  destruct (is_hex a) eqn:E; [|reflexivity].
  rewrite (hex_not_space a E). discriminate.
Qed.

Lemma branchLineRegex_parts :
  branchLineRegex = Seq Bol (Seq (Opt (Chr (is_char "*"))) tailRegex).
Proof. reflexivity. Qed.

Lemma block_succeeds : succeeds (fun y => rmatch blockRegex y Some).
Proof.
  intros x. unfold blockRegex. rewrite rmatch_opt.
  now destruct (rmatch _ x Some).
Qed.

Lemma block_captures (i : nat) (s : string) (c : captures) :
  c 3 = None ->
  read (rmatch blockRegex (MState i s c) Some) = Some (c 1, bracket_block s).
Proof.
  intros Hc. unfold blockRegex.
  rewrite rmatch_opt, rmatch_group, rmatch_seq, rmatch_chr.
  assert (Hnone : read (Some (MState i s c)) = Some (c 1, None))
    by (cbn; now rewrite Hc).
  destruct s as [|a s]; cbn [rest endIndex caps bracket_block]; [exact Hnone|].
  unfold is_char at 1. destruct (Ascii.eqb a "["); [|exact Hnone].
  rewrite rmatch_seq, group_plus_longest.
  - cbn [rest endIndex caps].
    destruct (span (not_char "]") s) as [t tl].
    destruct t as [|b t]; [exact Hnone|].
    rewrite rmatch_chr. cbn [rest endIndex caps].
    destruct tl as [|e tl]; [exact Hnone|].
    unfold is_char. destruct (Ascii.eqb e "]"); [reflexivity | exact Hnone].
  - intros b tl j c' Hb. rewrite rmatch_chr. cbn [rest].
    unfold is_char. unfold not_char in Hb.
    now destruct (Ascii.eqb b "]").
Qed.

(** The pattern after the marker reads a line as the grammar does. *)
Lemma tail_tokens (i : nat) (s : string) :
  read (rmatch tailRegex (MState i s no_captures) Some) = lift (tokens s).
Proof.
  unfold tailRegex, tokens. rewrite rmatch_seq.
  change (rmatch (Star is_space) (MState i s no_captures) ?k)
    with (star is_space s i no_captures k).
  rewrite star_longest.
  2:{ intros a tl j c Ha. rewrite rmatch_seq, rmatch_group.
      apply rmatch_plus_head. unfold non_space. now rewrite Ha. }
  destruct (span is_space s) as [ws s1]; cbn [fst snd].
  rewrite rmatch_seq, group_plus_longest.
  2:{ intros a tl j c Ha. rewrite rmatch_seq. apply rmatch_plus_head.
      unfold non_space in Ha. now destruct (is_space a). }
  cbn [rest endIndex caps].
  destruct (span non_space s1) as [nm s2].
  destruct nm as [|n0 nm]; [reflexivity|].
  rewrite rmatch_seq, plus_longest.
  2:{ left. intros a tl j c Ha. rewrite rmatch_seq. apply rmatch_plus_head.
      now apply space_not_hex. }
  unfold after_run at 1. cbn [rest endIndex caps].
  destruct (span is_space s2) as [w1 s3].
  destruct w1 as [|w0 w1]; [reflexivity|].
  rewrite rmatch_seq, plus_longest.
  2:{ left. intros a tl j c Ha. rewrite rmatch_seq. apply rmatch_plus_head.
      now apply hex_not_space. }
  unfold after_run at 1. cbn [rest endIndex caps].
  destruct (span is_hex s3) as [hx s4].
  destruct hx as [|h0 hx]; [reflexivity|].
  rewrite rmatch_seq.
  rewrite plus_longest by (right; exact block_succeeds).
  unfold after_run. cbn [rest endIndex caps].
  destruct (span is_space s4) as [w2 s5].
  destruct w2 as [|w3 w2]; [reflexivity|].
  now rewrite block_captures.
Qed.

Lemma anchored_later (r : regex) (s : string) (i : nat) :
  exec_from (Seq Bol r) (S i) s = None.
Proof.
  revert i. induction s as [|a s IH]; intros i; cbn; [reflexivity|apply IH].
Qed.

Lemma marker_fails_tail (s : string) (a : ascii) (i : nat) :
  Ascii.eqb a "*" = false ->
  rmatch (Seq (Opt (Chr (is_char "*"))) tailRegex)
    (MState i (String a s) no_captures) Some =
  rmatch tailRegex (MState i (String a s) no_captures) Some.
Proof.
  intros Ha. rewrite rmatch_seq, rmatch_opt, rmatch_chr. cbn [rest].
  unfold is_char. now rewrite Ha.
Qed.

(** [line.match(branchLineRegex)] reads a line as the grammar does. *)
Lemma match_line_tokenize (line : string) :
  match_line line = lift (tokenize_line line).
Proof.
  unfold match_line, Regex.exec. rewrite branchLineRegex_parts.
  assert (E : forall y, option_map (fun c : captures => (c 1, c 3))
                (option_map caps y) = read y) by (now intros [y|]).
  rewrite E. clear E.
  assert (Hx : exec_from (Seq Bol (Seq (Opt (Chr (is_char "*"))) tailRegex)) 0 line =
               rmatch (Seq (Opt (Chr (is_char "*"))) tailRegex)
                 (MState 0 line no_captures) Some).
  { destruct line as [|a s]; cbn [exec_from];
      rewrite (rmatch_seq Bol), rmatch_bol; cbn [endIndex Nat.eqb].
    - now destruct (rmatch _ _ Some).
    - rewrite anchored_later. now destruct (rmatch _ _ Some). }
  rewrite Hx. clear Hx. unfold tokenize_line.
  destruct line as [|a s].
  - rewrite rmatch_seq, rmatch_opt, rmatch_chr. cbn [rest]. apply tail_tokens.
  - destruct (Ascii.eqb a "*") eqn:Ha.
    + rewrite rmatch_seq, rmatch_opt, rmatch_chr. cbn [rest endIndex caps].
      unfold is_char. rewrite Ha.
      pose proof (tail_tokens 1 s) as H1.
      pose proof (tail_tokens 0 (String a s)) as H0.
      destruct (rmatch tailRegex (MState 1 s no_captures) Some) as [y|];
        destruct (tokens s) as [r|]; try discriminate H1.
      * exact H1.
      * exact H0.
    + rewrite marker_fails_tail by exact Ha. apply tail_tokens.
Qed.

End LinePattern.

(** ** The Branch Lister *)

Section Lister.

Import Grammar.

Lemma span_all (p : ascii -> bool) (s : string) :
  all_in p s = true -> span p s = (s, "").
Proof.
  induction s as [|a s IH]; simpl; [reflexivity|].
  destruct (p a); simpl; [|discriminate].
  intros H. now rewrite (IH H).
Qed.

Lemma tokens_blank (s : string) : all_in is_space s = true -> tokens s = None.
Proof.
  intros H. unfold tokens. now rewrite (span_all _ _ H).
Qed.

Lemma bracket_block_nonempty (s blk : string) :
  bracket_block s = Some blk -> exists b blk', blk = String b blk'.
Proof.
  unfold bracket_block.
  repeat match goal with
         | |- context [match ?x with _ => _ end] => destruct x; try discriminate
         | |- context [if ?x then _ else _] => destruct x; try discriminate
         end.
  intros [= <-]. eauto.
Qed.

Lemma stale_of_line_grammar (line : string) :
  stale_of_line line = stale_names line.
Proof.
  unfold stale_of_line, stale_names. rewrite match_line_tokenize.
  destruct (tokenize_line line) as [[nm [blk|]]|] eqn:E; cbn; try reflexivity.
  assert (Hb : exists s, bracket_block s = Some blk).
  { assert (Ht : forall s, tokens s = Some (nm, Some blk) ->
                 exists s', bracket_block s' = Some blk).
    { intros s. unfold tokens.
      repeat match goal with
             | |- context [match ?x with _ => _ end] =>
                 destruct x; try discriminate
             end.
      intros [= _ Hs]. eauto. }
    unfold tokenize_line in E.
    destruct line as [|a s]; [now apply Ht in E|].
    destruct (Ascii.eqb a "*"); [|now apply Ht in E].
    destruct (tokens s) as [r|] eqn:Es; [|now apply Ht in E].
    injection E as ->. now apply Ht in Es. }
  destruct Hb as [s Hs]. apply bracket_block_nonempty in Hs.
  destruct Hs as (b & blk' & ->). reflexivity.
Qed.

(** C2. A line of the listing that the pattern matches with no bracketed
    block gives its name as stale; one whose block contains [gone] gives its
    name as stale whatever else the block holds; one whose block lacks
    [gone] gives nothing; a line the pattern does not match gives nothing,
    and blank lines and the lines git prints for a detached HEAD (or for no
    branch) are such lines.  The pattern reads a line exactly as the grammar
    (marker, name, commit id, optional block) does. *)
Theorem lister_classifies_lines :
  (forall line,
     match tokenize_line line with
     | Some (name, None) =>
         match_line line = Some (Some name, None) /\
         stale_of_line line = [name]
     | Some (name, Some block) =>
         match_line line = Some (Some name, Some block) /\
         stale_of_line line = if includes "gone" block then [name] else []
     | None =>
         match_line line = None /\ stale_of_line line = []
     end) /\
  (forall line,
     all_in is_space line = true ->
     match_line line = None /\ stale_of_line line = []) /\
  (forall tl,
     match_line ("* (HEAD detached " ++ tl) = None /\
     stale_of_line ("* (HEAD detached " ++ tl) = []) /\
  (forall tl,
     match_line ("* (no branch" ++ tl) = None /\
     stale_of_line ("* (no branch" ++ tl) = []) /\
  (forall out,
     parseDetachedBranches out = flat_map stale_names (split "010" out)).
Proof.
  assert (Hnone : forall line, tokenize_line line = None ->
            match_line line = None /\ stale_of_line line = []).
  { intros line E. rewrite stale_of_line_grammar, match_line_tokenize.
    unfold stale_names. now rewrite E. }
  split; [|split; [|split; [|split]]].
  - intros line. rewrite stale_of_line_grammar, match_line_tokenize.
    unfold stale_names.
    destruct (tokenize_line line) as [[nm [blk|]]|]; cbn; auto.
  - intros line H. apply Hnone. unfold tokenize_line.
    destruct line as [|a s]; [reflexivity|].
    destruct (Ascii.eqb a "*") eqn:Ha.
    + apply Ascii.eqb_eq in Ha. subst a. discriminate H.
    + now apply tokens_blank.
  - intros tl. apply Hnone. reflexivity.
  - intros tl. apply Hnone. reflexivity.
  - intros out. unfold parseDetachedBranches.
    induction (split "010" out) as [|l ls IH]; simpl; [reflexivity|].
    now rewrite IH, stale_of_line_grammar.
Qed.

End Lister.

(** ** Runs: traces, results and the flag through [bind] *)

Section Runs.

Context {W : Type} {host : Host W}.

Lemma trace_bind {A B} (m : M W A) (f : A -> M W B) (s : pstate W) :
  trace_of (bind m f s) =
  (trace_of (m s) ++
   match result_of (m s) with
   | Ret a => trace_of (f a (state_of (m s)))
   | Exit _ => []
   end)%list.
Proof.
  unfold bind, trace_of, result_of, state_of.
  destruct (m s) as [[t1 [a|c]] s1]; simpl.
  - now destruct (f a s1) as [[t2 r] s2].
  - now rewrite app_nil_r.
Qed.

Lemma result_bind {A B} (m : M W A) (f : A -> M W B) (s : pstate W) :
  result_of (bind m f s) =
  match result_of (m s) with
  | Ret a => result_of (f a (state_of (m s)))
  | Exit c => Exit c
  end.
Proof.
  unfold bind, trace_of, result_of, state_of.
  destruct (m s) as [[t1 [a|c]] s1]; simpl; [|reflexivity].
  now destruct (f a s1) as [[t2 r] s2].
Qed.

Lemma state_bind {A B} (m : M W A) (f : A -> M W B) (s : pstate W) :
  state_of (bind m f s) =
  match result_of (m s) with
  | Ret a => state_of (f a (state_of (m s)))
  | Exit c => state_of (m s)
  end.
Proof.
  unfold bind, trace_of, result_of, state_of.
  destruct (m s) as [[t1 [a|c]] s1]; simpl; [|reflexivity].
  now destruct (f a s1) as [[t2 r] s2].
Qed.

Lemma emits_bind p {A B} (m : M W A) (f : A -> M W B) :
  emits p m -> (forall a, emits (W:=W) p (f a)) -> emits (W:=W) p (bind m f).
Proof.
  intros Hm Hf s. rewrite trace_bind, forallb_app, Hm.
  destruct (result_of (m s)); [apply Hf | reflexivity].
Qed.

Lemma keeps_flag_bind {A B} (m : M W A) (f : A -> M W B) :
  keeps_flag m -> (forall a, keeps_flag (W:=W) (f a)) -> keeps_flag (W:=W) (bind m f).
Proof.
  intros Hm Hf s. rewrite state_bind.
  destruct (result_of (m s)); [rewrite Hf|]; apply Hm.
Qed.

Lemma emits_ret p {A} (a : A) : emits (W:=W) p (ret a).
Proof. intros s. reflexivity. Qed.

Lemma emits_exit p {A} (c : Z) : emits (W:=W) p (@process_exit W A c).
Proof. intros s. reflexivity. Qed.

Lemma emits_get p : emits (W:=W) p (@get_disclaimerConfirmed W).
Proof. intros s. reflexivity. Qed.

Lemma emits_set p b : emits (W:=W) p (@set_disclaimerConfirmed W b).
Proof. intros s. reflexivity. Qed.

Lemma emits_log p msg : p (EvLog msg) = true -> emits (W:=W) p (console_log msg).
Proof. intros H s. cbn. now rewrite H. Qed.

Lemma emits_error p msg : p (EvError msg) = true -> emits (W:=W) p (console_error msg).
Proof. intros H s. cbn. now rewrite H. Qed.

Lemma emits_error_obj p msg e :
  p (EvErrorObj msg e) = true -> emits (W:=W) p (console_error_obj msg e).
Proof. intros H s. cbn. now rewrite H. Qed.

Lemma emits_prompt_start p :
  p EvPromptStart = true -> emits (W:=W) p (@prompt_start W).
Proof. intros H s. cbn. now rewrite H. Qed.

Lemma emits_exists p path :
  (forall b, p (EvExists path b) = true) -> emits (W:=W) p (existsSync path).
Proof.
  intros H s. unfold existsSync, trace_of.
  destruct (fs_existsSync path (world s)). cbn. now rewrite H.
Qed.

Lemma emits_exec p cmd :
  (forall r, p (EvExec cmd r) = true) -> emits (W:=W) p (exec cmd).
Proof.
  intros H s. unfold exec, trace_of.
  destruct (child_exec cmd (world s)). cbn. now rewrite H.
Qed.

Lemma emits_prompt p q :
  (forall r, p (EvPrompt q r) = true) -> emits (W:=W) p (prompt q).
Proof.
  intros H s. unfold prompt, trace_of.
  destruct (prompt_get q (world s)). cbn. now rewrite H.
Qed.

Lemma emits_prompt_number p q :
  (forall r, p (EvPromptNumber q r) = true) -> emits (W:=W) p (prompt_number q).
Proof.
  intros H s. unfold prompt_number, trace_of.
  destruct (prompt_get_number q (world s)). cbn. now rewrite H.
Qed.

Lemma keeps_flag_ret {A} (a : A) : keeps_flag (W:=W) (ret a).
Proof. intros s. reflexivity. Qed.

Lemma keeps_flag_exit {A} (c : Z) : keeps_flag (W:=W) (@process_exit W A c).
Proof. intros s. reflexivity. Qed.

Lemma keeps_flag_log msg : keeps_flag (W:=W) (console_log msg).
Proof. intros s. reflexivity. Qed.

Lemma keeps_flag_error msg : keeps_flag (W:=W) (console_error msg).
Proof. intros s. reflexivity. Qed.

Lemma keeps_flag_error_obj msg e : keeps_flag (W:=W) (console_error_obj msg e).
Proof. intros s. reflexivity. Qed.

Lemma keeps_flag_prompt_start : keeps_flag (W:=W) (@prompt_start W).
Proof. intros s. reflexivity. Qed.

Lemma keeps_flag_exists path : keeps_flag (W:=W) (existsSync path).
Proof.
  intros s. unfold existsSync, state_of.
  now destruct (fs_existsSync path (world s)).
Qed.

Lemma keeps_flag_exec cmd : keeps_flag (W:=W) (exec cmd).
Proof.
  intros s. unfold exec, state_of. now destruct (child_exec cmd (world s)).
Qed.

Lemma keeps_flag_prompt q : keeps_flag (W:=W) (prompt q).
Proof.
  intros s. unfold prompt, state_of. now destruct (prompt_get q (world s)).
Qed.

Lemma keeps_flag_prompt_number q : keeps_flag (W:=W) (prompt_number q).
Proof.
  intros s. unfold prompt_number, state_of.
  now destruct (prompt_get_number q (world s)).
Qed.

End Runs.

(** Syntax-directed proofs of [emits] and [keeps_flag]: follow the binds
    and the case analyses of the program, and settle each event by
    evaluation. *)
Ltac case_step :=
  match goal with
  | |- context [match ?x with _ => _ end] =>
      lazymatch x with
      | context [match _ with _ => _ end] => fail
      | _ => destruct x
      end
  end.

Ltac emits_step :=
  first
    [ apply emits_ret | apply emits_exit | apply emits_get | apply emits_set
    | apply emits_bind; [|intros]
    | apply emits_log; reflexivity
    | apply emits_error; reflexivity
    | apply emits_error_obj; reflexivity
    | apply emits_prompt_start; reflexivity
    | apply emits_exists; intros; reflexivity
    | apply emits_exec; intros; reflexivity
    | apply emits_prompt; intros; reflexivity
    | apply emits_prompt_number; intros; reflexivity
    | assumption
    | case_step ].

Ltac emits_tac := repeat emits_step.

Ltac keeps_step :=
  first
    [ apply keeps_flag_ret | apply keeps_flag_exit
    | apply keeps_flag_bind; [|intros]
    | apply keeps_flag_log | apply keeps_flag_error
    | apply keeps_flag_error_obj | apply keeps_flag_prompt_start
    | apply keeps_flag_exists | apply keeps_flag_exec
    | apply keeps_flag_prompt | apply keeps_flag_prompt_number
    | assumption
    | case_step ].

Ltac keeps_tac := repeat keeps_step.

(** ** The Deletion Engine *)

Section Engine.

Context {W : Type} {host : Host W}.

Lemma deleteNext_step (forced : bool) (branch : string)
  (remaining failedBranches : list string) (s : pstate W) :
  deleteNext forced (branch :: remaining) failedBranches s =
  deleteNext_unfolded forced branch remaining failedBranches s.
Proof.
  unfold deleteNext_unfolded. cbn [deleteNext].
  unfold getCurrentBranch, bind at 1 2, exec at 1.
  destruct (child_exec revParseCmd (world s)) as [r w1].
  destruct (failed r); [reflexivity|]. cbn [ret].
  destruct (branch =? trim (stdout r)).
  { unfold bind, console_log, prepend, trace_of, result_of, state_of.
    now destruct (deleteNext forced remaining failedBranches _) as [[t x] s']. }
  unfold bind at 1, exec. cbn [world disclaimerConfirmed].
  destruct (child_exec (delCmd forced branch) w1) as [d w2].
  destruct (failed d); [destruct (negb forced && _)|];
    unfold bind, console_log, console_error, prepend, trace_of, result_of,
      state_of;
    now destruct (deleteNext forced remaining _ _) as [[t x] s'].
Qed.

End Engine.

Section EngineRuns.

Context {W : Type} {host : Host W}.

(** Every run of [deleteNext] is a run of the engine: it calls back, and
    never exits the process. *)
Lemma deleteNext_engine_run (forced : bool) (bs failed0 : list string)
  (s : pstate W) :
  exists out,
    result_of (deleteNext forced bs failed0 s) = Ret out /\
    engine_run forced bs failed0 (trace_of (deleteNext forced bs failed0 s)) out.
Proof.
  revert failed0 s. induction bs as [|b bs IH]; intros failed0 s.
  - exists (inr failed0). split; [reflexivity | constructor].
  - rewrite deleteNext_step. unfold deleteNext_unfolded.
    destruct (child_exec revParseCmd (world s)) as [r w1].
    destruct (failed r) eqn:Hr.
    { eexists. split; [reflexivity | now constructor]. }
    destruct (b =? trim (stdout r)) eqn:Hb.
    { apply String.eqb_eq in Hb.
      destruct (IH failed0 (PState w1 (disclaimerConfirmed s))) as (out & Ho & Ht).
      exists out. split; [exact Ho | now constructor]. }
    apply String.eqb_neq in Hb.
    destruct (child_exec (delCmd forced b) w1) as [d w2].
    destruct (failed d) eqn:Hd;
      [destruct (negb forced && includes "not fully merged" (stderr d)) eqn:Hu|].
    + destruct (IH (failed0 ++ [b])%list (PState w2 (disclaimerConfirmed s)))
        as (out & Ho & Ht).
      exists out. split; [exact Ho|].
      apply andb_prop in Hu. destruct Hu as [Hf Hi].
      apply run_unmerged; auto. now destruct forced.
    + destruct (IH failed0 (PState w2 (disclaimerConfirmed s))) as (out & Ho & Ht).
      exists out. split; [exact Ho | now apply run_failed].
    + destruct (IH failed0 (PState w2 (disclaimerConfirmed s))) as (out & Ho & Ht).
      exists out. split; [exact Ho | now apply run_deleted].
Qed.

End EngineRuns.

(** *** What the runs of the engine look like *)

Section EngineTraces.

Variable forced : bool.

Lemma delCmd_is_deletion (b : string) : is_deletion_cmd (delCmd forced b) = true.
Proof. now destruct forced, b. Qed.

Lemma delCmd_not_reread (b : string) : delCmd forced b <> revParseCmd.
Proof. destruct forced; discriminate. Qed.

(** Each deletion subprocess comes right after a successful reading of the
    current branch that gave another name. *)
Lemma engine_run_deletion bs failed0 t out :
  engine_run forced bs failed0 t out ->
  forall i cmd d,
    nth_error t i = Some (EvExec cmd d) ->
    is_deletion_cmd cmd = true ->
    exists j r b,
      i = S j /\ nth_error t j = Some (EvExec revParseCmd r) /\
      failed r = false /\ In b bs /\ cmd = delCmd forced b /\
      trim (stdout r) <> b.
Proof.
  induction 1 as [ f0 | b bs f0 r Hr | b bs f0 r t out Hr Hb _ IH
                 | b bs f0 r d t out Hr Hb Hd _ IH
                 | b bs f0 r d t out Hr Hb Hd Hf Hi _ IH
                 | b bs f0 r d t out Hr Hb Hd Hu _ IH ];
    intros i cmd d' Hn Hc.
  - now destruct i.
  - destruct i as [|[|i]]; try discriminate Hn.
    injection Hn as <- _. discriminate Hc.
  - destruct i as [|[|i]]; try discriminate Hn.
    + injection Hn as <- _. discriminate Hc.
    + destruct (IH i cmd d' Hn Hc) as (j & r' & b' & -> & Hj & ? & ? & ? & ?).
      exists (S (S j)), r', b'. simpl. auto 10.
  - destruct i as [|[|[|i]]]; try discriminate Hn.
    + injection Hn as <- _. discriminate Hc.
    + injection Hn as <- _. exists 0, r, b. simpl. auto 10.
    + destruct (IH i cmd d' Hn Hc) as (j & r' & b' & -> & Hj & ? & ? & ? & ?).
      exists (S (S (S j))), r', b'. simpl. auto 10.
  - destruct i as [|[|[|i]]]; try discriminate Hn.
    + injection Hn as <- _. discriminate Hc.
    + injection Hn as <- _. exists 0, r, b. simpl. auto 10.
    + destruct (IH i cmd d' Hn Hc) as (j & r' & b' & -> & Hj & ? & ? & ? & ?).
      exists (S (S (S j))), r', b'. simpl. auto 10.
  - destruct i as [|[|[|i]]]; try discriminate Hn.
    + injection Hn as <- _. discriminate Hc.
    + injection Hn as <- _. exists 0, r, b. simpl. auto 10.
    + destruct (IH i cmd d' Hn Hc) as (j & r' & b' & -> & Hj & ? & ? & ? & ?).
      exists (S (S (S j))), r', b'. simpl. auto 10.
Qed.

Lemma delCmd_reread_false (b : string) (d : exec_result) :
  is_reread (EvExec (delCmd forced b) d) = false.
Proof. now destruct forced. Qed.

Lemma deletion_target_delCmd (b : string) : deletion_target (delCmd forced b) = b.
Proof.
  assert (E : forall n, substring 0 (String.length b + n - n) b = b).
  { intros n. replace (String.length b + n - n) with (String.length b) by lia.
    rewrite <- (substring_append b "") at 2.
    f_equal. induction b as [|a b' IH]; simpl; [reflexivity | now rewrite IH]. }
  unfold deletion_target.
  destruct forced; cbn [delCmd];
    (replace (String.length (_ ++ b)) with (String.length b + 14)
       by (simpl; lia));
    apply (E 14).
Qed.

(** After a successful reading of the current branch the engine acts on the
    name of that step: a skip when the name is the current branch, a
    deletion subprocess for it otherwise. *)
Lemma engine_run_step bs failed0 t out :
  engine_run forced bs failed0 t out ->
  forall i r,
    nth_error t i = Some (EvExec revParseCmd r) ->
    exists b,
      nth_error bs (step_of t i) = Some b /\
      (failed r = false ->
       if b =? trim (stdout r)
       then nth_error t (S i) = Some (EvLog ("Skipping current branch: " ++ b))
       else exists d, nth_error t (S i) = Some (EvExec (delCmd forced b) d)).
Proof.
  unfold step_of, count.
  induction 1 as [ f0 | b bs f0 r Hr | b bs f0 r t out Hr Hb _ IH
                 | b bs f0 r d t out Hr Hb Hd _ IH
                 | b bs f0 r d t out Hr Hb Hd Hf Hi _ IH
                 | b bs f0 r d t out Hr Hb Hd Hu _ IH ];
    intros i r' Hn.
  - now destruct i.
  - destruct i as [|[|i]]; try discriminate Hn.
    injection Hn as <-. exists b. split; [reflexivity | congruence].
  - destruct i as [|[|i]]; try discriminate Hn.
    + injection Hn as <-. exists b. split; [reflexivity|]. intros _.
      now rewrite (proj2 (String.eqb_eq _ _) Hb).
    + destruct (IH i r' Hn) as (b' & Hb' & Hs). exists b'.
      split; [|exact Hs]. cbn. exact Hb'.
  - destruct i as [|[|[|i]]]; try discriminate Hn.
    + injection Hn as <-. exists b. split; [reflexivity|]. intros _.
      rewrite (proj2 (String.eqb_neq _ _) Hb). simpl. eauto.
    + injection Hn as E _. now apply delCmd_not_reread in E.
    + destruct (IH i r' Hn) as (b' & Hb' & Hs). exists b'.
      split; [|exact Hs]. cbn [firstn filter is_reread].
      rewrite String.eqb_refl. cbn [filter].
      fold (is_reread (EvExec (delCmd forced b) d)).
      rewrite delCmd_reread_false. cbn. exact Hb'.
  - destruct i as [|[|[|i]]]; try discriminate Hn.
    + injection Hn as <-. exists b. split; [reflexivity|]. intros _.
      rewrite (proj2 (String.eqb_neq _ _) Hb). simpl. eauto.
    + injection Hn as E _. now apply delCmd_not_reread in E.
    + destruct (IH i r' Hn) as (b' & Hb' & Hs). exists b'.
      split; [|exact Hs]. cbn [firstn filter is_reread].
      rewrite String.eqb_refl. cbn [filter].
      fold (is_reread (EvExec (delCmd forced b) d)).
      rewrite delCmd_reread_false. cbn. exact Hb'.
  - destruct i as [|[|[|i]]]; try discriminate Hn.
    + injection Hn as <-. exists b. split; [reflexivity|]. intros _.
      rewrite (proj2 (String.eqb_neq _ _) Hb). simpl. eauto.
    + injection Hn as E _. now apply delCmd_not_reread in E.
    + destruct (IH i r' Hn) as (b' & Hb' & Hs). exists b'.
      split; [|exact Hs]. cbn [firstn filter is_reread].
      rewrite String.eqb_refl. cbn [filter].
      fold (is_reread (EvExec (delCmd forced b) d)).
      rewrite delCmd_reread_false. cbn. exact Hb'.
Qed.

Lemma unmerged_in_step (r d : exec_result) (b : string) (report : event)
  (t : trace) :
  (forall cmd x, report <> EvExec cmd x) ->
  unmerged_in (EvExec revParseCmd r :: EvExec (delCmd forced b) d :: report :: t) =
  ((if negb forced && failed d && includes "not fully merged" (stderr d)
    then [b] else []) ++ unmerged_in t)%list.
Proof.
  intros Hrep. unfold unmerged_in. cbn [flat_map].
  change (prefix "git branch -d " revParseCmd) with false. cbn [andb app].
  rewrite deletion_target_delCmd.
  replace (prefix "git branch -d " (delCmd forced b)) with (negb forced)
    by (now destruct forced, b).
  destruct report; try reflexivity. now elim (Hrep cmd r0).
Qed.

Lemma reread_in_step (r r' : exec_result) (e1 e2 : event) (t : trace)
  (P : Prop) :
  failed r = false ->
  (forall cmd x, e1 = EvExec cmd x -> cmd <> revParseCmd) ->
  (forall cmd x, e2 <> EvExec cmd x) ->
  (In (EvExec revParseCmd r') t -> failed r' = false) ->
  In (EvExec revParseCmd r') (EvExec revParseCmd r :: e1 :: e2 :: t) ->
  failed r' = false.
Proof.
  intros Hr H1 H2 Ht [E|[E|[E|E]]].
  - now injection E as <-.
  - now elim (H1 _ _ E).
  - now elim (H2 _ _ E).
  - now apply Ht.
Qed.

(** The value the engine calls back with.  With a list it has read the
    current branch once for each name, every time with success, and the
    list is made of the names whose safe deletion failed as not fully
    merged.  With an error the last thing it did was a failed reading of
    the current branch, the only one that failed. *)
Lemma engine_run_result bs failed0 t out :
  engine_run forced bs failed0 t out ->
  match out with
  | inr failedBranches =>
      count is_reread t = length bs /\
      (forall r, In (EvExec revParseCmd r) t -> failed r = false) /\
      failedBranches = (failed0 ++ unmerged_in t)%list
  | inl e =>
      e = currentBranchError /\
      exists t0 r,
        t = (t0 ++ [EvExec revParseCmd r])%list /\ failed r = true /\
        (forall r', In (EvExec revParseCmd r') t0 -> failed r' = false)
  end.
Proof.
  pose proof reread_in_step as Hin.
  induction 1 as [ f0 | b bs f0 r Hr | b bs f0 r t out Hr Hb _ IH
                 | b bs f0 r d t out Hr Hb Hd _ IH
                 | b bs f0 r d t out Hr Hb Hd Hf Hi _ IH
                 | b bs f0 r d t out Hr Hb Hd Hu _ IH ].
  - repeat split; [now intros r []| now rewrite app_nil_r].
  - split; [reflexivity|]. exists [], r. now repeat split.
  - destruct out as [e|fb].
    + destruct IH as (-> & t0 & r' & -> & Hf' & Hall). split; [reflexivity|].
      exists (EvExec revParseCmd r :: EvLog ("Skipping current branch: " ++ b) :: t0), r'.
      repeat split; [exact Hf'|].
      intros r0 [E|[E|E]]; [now injection E as <- | discriminate E | now apply Hall].
    + destruct IH as (Hc & Hall & ->). repeat split.
      * unfold count in *. cbn. now rewrite Hc.
      * intros r0 [E|[E|E]];
          [now injection E as <- | discriminate E | now apply Hall].
  - destruct out as [e|fb].
    + destruct IH as (-> & t0 & r' & -> & Hf' & Hall). split; [reflexivity|].
      exists (EvExec revParseCmd r :: EvExec (delCmd forced b) d ::
              EvLog ("Deleted branch " ++ b) :: t0), r'.
      repeat split; [exact Hf'|]. intros r0.
      apply (Hin r r0 _ _ t0 True Hr); [|discriminate|apply Hall].
      intros cmd x [= <- _]. apply delCmd_not_reread.
    + destruct IH as (Hc & Hall & ->). repeat split.
      * unfold count in *. cbn [filter is_reread].
        rewrite String.eqb_refl. cbn [filter].
        fold (is_reread (EvExec (delCmd forced b) d)).
        rewrite delCmd_reread_false. cbn. now rewrite Hc.
      * intros r0. apply (Hin r r0 _ _ t True Hr); [|discriminate|apply Hall].
        intros cmd x [= <- _]. apply delCmd_not_reread.
      * rewrite unmerged_in_step by discriminate.
        rewrite Hd, andb_false_r. reflexivity.
  - destruct out as [e|fb].
    + destruct IH as (-> & t0 & r' & -> & Hf' & Hall). split; [reflexivity|].
      exists (EvExec revParseCmd r :: EvExec (delCmd forced b) d ::
              EvError ("Unable to delete " ++ b ++ " as it is not fully merged.")
              :: t0), r'.
      repeat split; [exact Hf'|]. intros r0.
      apply (Hin r r0 _ _ t0 True Hr); [|discriminate|apply Hall].
      intros cmd x [= <- _]. apply delCmd_not_reread.
    + destruct IH as (Hc & Hall & ->). repeat split.
      * unfold count in *. cbn [filter is_reread].
        rewrite String.eqb_refl. cbn [filter].
        fold (is_reread (EvExec (delCmd forced b) d)).
        rewrite delCmd_reread_false. cbn. now rewrite Hc.
      * intros r0. apply (Hin r r0 _ _ t True Hr); [|discriminate|apply Hall].
        intros cmd x [= <- _]. apply delCmd_not_reread.
      * rewrite unmerged_in_step by discriminate.
        rewrite Hd, Hi, Hf. cbn [negb andb]. now rewrite <- app_assoc.
  - destruct out as [e|fb].
    + destruct IH as (-> & t0 & r' & -> & Hf' & Hall). split; [reflexivity|].
      exists (EvExec revParseCmd r :: EvExec (delCmd forced b) d ::
              EvError ("Error deleting branch " ++ b ++ ": " ++ trim (stderr d))
              :: t0), r'.
      repeat split; [exact Hf'|]. intros r0.
      apply (Hin r r0 _ _ t0 True Hr); [|discriminate|apply Hall].
      intros cmd x [= <- _]. apply delCmd_not_reread.
    + destruct IH as (Hc & Hall & ->). repeat split.
      * unfold count in *. cbn [filter is_reread].
        rewrite String.eqb_refl. cbn [filter].
        fold (is_reread (EvExec (delCmd forced b) d)).
        rewrite delCmd_reread_false. cbn. now rewrite Hc.
      * intros r0. apply (Hin r r0 _ _ t True Hr); [|discriminate|apply Hall].
        intros cmd x [= <- _]. apply delCmd_not_reread.
      * rewrite unmerged_in_step by discriminate.
        replace (negb forced && failed d && includes "not fully merged" (stderr d))
          with false; [reflexivity|].
        rewrite Hd, andb_true_r. now rewrite Hu.
Qed.

(** A failed deletion is reported on the error stream, and is never the
    last thing the engine does: the batch goes on. *)
Lemma engine_run_report bs failed0 t out :
  engine_run forced bs failed0 t out ->
  forall i b d,
    nth_error t i = Some (EvExec (delCmd forced b) d) ->
    failed d = true ->
    nth_error t (S i) =
    Some (EvError
      (if negb forced && includes "not fully merged" (stderr d)
       then "Unable to delete " ++ b ++ " as it is not fully merged."
       else "Error deleting branch " ++ b ++ ": " ++ trim (stderr d))).
Proof.
  assert (Hinj : forall b b', delCmd forced b = delCmd forced b' -> b = b').
  { intros b b' E. rewrite <- (deletion_target_delCmd b), E.
    apply deletion_target_delCmd. }
  induction 1 as [ f0 | b bs f0 r Hr | b bs f0 r t out Hr Hb _ IH
                 | b bs f0 r d t out Hr Hb Hd _ IH
                 | b bs f0 r d t out Hr Hb Hd Hf Hi _ IH
                 | b bs f0 r d t out Hr Hb Hd Hu _ IH ];
    intros i b' d' Hn Hd'.
  - now destruct i.
  - destruct i as [|[|i]]; try discriminate Hn.
    injection Hn as E _. symmetry in E. now apply delCmd_not_reread in E.
  - destruct i as [|[|i]]; try discriminate Hn.
    + injection Hn as E _. symmetry in E. now apply delCmd_not_reread in E.
    + now apply IH.
  - destruct i as [|[|[|i]]]; try discriminate Hn.
    + injection Hn as E _. symmetry in E. now apply delCmd_not_reread in E.
    + injection Hn as E <-. congruence.
    + now apply IH.
  - destruct i as [|[|[|i]]]; try discriminate Hn.
    + injection Hn as E _. symmetry in E. now apply delCmd_not_reread in E.
    + injection Hn as E <-. apply Hinj in E. subst b'.
      cbn [nth_error]. now rewrite Hi, Hf.
    + now apply IH.
  - destruct i as [|[|[|i]]]; try discriminate Hn.
    + injection Hn as E _. symmetry in E. now apply delCmd_not_reread in E.
    + injection Hn as E <-. apply Hinj in E. subst b'.
      cbn [nth_error]. now rewrite Hu.
    + now apply IH.
Qed.

End EngineTraces.

Section EngineClaims.

Context {W : Type} {host : Host W}.

(** C5. The Deletion Engine always calls back and never exits the process.
    It calls back with an error only when a reading of the current branch
    failed, and then that reading is the last thing it did.  Otherwise it
    read the current branch once for every name of the batch, whatever the
    deletions did, and calls back with the names whose safe deletion failed
    as not fully merged.  Every failed deletion is reported on the error
    stream, as unmerged in safe mode when the error text says so, as an
    error otherwise. *)
Theorem engine_survives_deletion_failures (branches : list string)
  (forced : bool) (s : pstate W) :
  let x := deleteBranches branches forced s in
  exists out,
    result_of x = Ret out /\
    match out with
    | inr failedBranches =>
        count is_reread (trace_of x) = length branches /\
        (forall r, In (EvExec revParseCmd r) (trace_of x) -> failed r = false) /\
        failedBranches = unmerged_in (trace_of x)
    | inl e =>
        e = currentBranchError /\
        exists t0 r,
          trace_of x = (t0 ++ [EvExec revParseCmd r])%list /\
          failed r = true /\
          (forall r', In (EvExec revParseCmd r') t0 -> failed r' = false)
    end /\
    (forall i b d,
       nth_error (trace_of x) i = Some (EvExec (delCmd forced b) d) ->
       failed d = true ->
       nth_error (trace_of x) (S i) =
       Some (EvError
         (if negb forced && includes "not fully merged" (stderr d)
          then "Unable to delete " ++ b ++ " as it is not fully merged."
          else "Error deleting branch " ++ b ++ ": " ++ trim (stderr d)))).
Proof.
  intros x. subst x. unfold deleteBranches.
  destruct (deleteNext_engine_run forced branches [] s) as (out & Hout & Hrun).
  exists out. split; [exact Hout|]. split.
  - exact (engine_run_result forced _ _ _ _ Hrun).
  - exact (engine_run_report forced _ _ _ _ Hrun).
Qed.

Lemma filter_drops_same_case (current b : string) (l : list string) :
  toLowerCase b = toLowerCase current ->
  ~ In b (filter (differsIgnoringCase current) l).
Proof.
  intros E H. apply filter_In in H. destruct H as [_ H].
  unfold differsIgnoringCase in H. rewrite E, String.eqb_refl in H.
  discriminate H.
Qed.

(** C9. The engine's skip compares by exact equality.  At a step whose
    name differs from the branch just read, be it only in letter case, the
    engine issues the deletion subprocess for that name; the filter of the
    Guard, which compares in lower case, would have removed that name. *)
Theorem engine_skip_is_case_sensitive (branches : list string) (forced : bool)
  (s : pstate W) (i : nat) (r : exec_result) (b : string) :
  let t := trace_of (deleteBranches branches forced s) in
  nth_error t i = Some (EvExec revParseCmd r) ->
  failed r = false ->
  nth_error branches (step_of t i) = Some b ->
  b <> trim (stdout r) ->
  toLowerCase b = toLowerCase (trim (stdout r)) ->
  (exists d,
     nth_error t (S i) = Some (EvExec (delCmd forced b) d) /\
     is_deletion (EvExec (delCmd forced b) d) = true) /\
  ~ In b (filter (differsIgnoringCase (trim (stdout r))) branches).
Proof.
  intros t Hn Hr Hb Hne Hlow. subst t. unfold deleteBranches in *.
  destruct (deleteNext_engine_run forced branches [] s) as (out & _ & Hrun).
  destruct (engine_run_step forced _ _ _ _ Hrun i r Hn) as (b' & Hb' & Hs).
  rewrite Hb in Hb'. injection Hb' as <-. specialize (Hs Hr).
  rewrite (proj2 (String.eqb_neq _ _) Hne) in Hs.
  destruct Hs as [d Hd]. split.
  - exists d. split; [exact Hd | apply delCmd_is_deletion].
  - now apply filter_drops_same_case.
Qed.

End EngineClaims.

(** ** The phases of [main] *)

Section Phases.

Context {W : Type} {host : Host W}.

Lemma emits_weaken (p q : event -> bool) {A} (m : M W A) :
  (forall e, p e = true -> q e = true) -> emits p m -> emits q m.
Proof.
  intros Hpq Hm s. specialize (Hm s).
  rewrite forallb_forall in *. auto.
Qed.

Lemma forEach_log_emits p f (l : list string) :
  (forall b, p (EvLog (f b)) = true) -> emits p (@forEach_log W f l).
Proof.
  intros H. induction l as [|b l IH]; cbn [forEach_log].
  - apply emits_ret.
  - apply emits_bind; [apply emits_log, H | intros; exact IH].
Qed.

Lemma forEach_log_keeps_flag f (l : list string) :
  keeps_flag (@forEach_log W f l).
Proof.
  induction l as [|b l IH]; cbn [forEach_log].
  - apply keeps_flag_ret.
  - apply keeps_flag_bind; [apply keeps_flag_log | intros; exact IH].
Qed.

(** The events of the engine satisfy [p] when the five kinds of events it
    can produce do. *)
Lemma deleteNext_emits p (forced : bool) :
  (forall r, p (EvExec revParseCmd r) = true) ->
  (forall b d, p (EvExec (delCmd forced b) d) = true) ->
  (forall msg, p (EvLog ("Skipping current branch: " ++ msg)) = true) ->
  (forall msg, p (EvLog ("Deleted branch " ++ msg)) = true) ->
  (forall msg, p (EvError msg) = true) ->
  forall bs failed0, emits p (@deleteNext W host forced bs failed0).
Proof.
  intros H1 H2 H3 H4 H5 bs.
  induction bs as [|b bs IH]; intros failed0; cbn [deleteNext].
  - apply emits_ret.
  - unfold getCurrentBranch.
    repeat first
      [ apply emits_ret | apply IH
      | apply emits_bind; [|intros]
      | apply emits_exec; intros; (apply H1 || apply H2)
      | apply emits_log; (apply H3 || apply H4)
      | apply emits_error; apply H5
      | case_step ].
Qed.

Lemma deleteNext_keeps_flag (forced : bool) bs failed0 :
  keeps_flag (@deleteNext W host forced bs failed0).
Proof.
  revert failed0. induction bs as [|b bs IH]; intros failed0; cbn [deleteNext].
  - apply keeps_flag_ret.
  - unfold getCurrentBranch. repeat first [apply IH | keeps_step].
Qed.

Lemma engine_after_gate (forced : bool) bs failed0 :
  emits after_gate (@deleteNext W host forced bs failed0).
Proof.
  apply deleteNext_emits; try (intros; reflexivity).
  intros b d. now destruct forced.
Qed.

Lemma engine_no_offer (forced : bool) bs failed0 :
  emits (fun e => negb (is_force_offer e) && negb (is_prompt e))
    (@deleteNext W host forced bs failed0).
Proof. apply deleteNext_emits; intros; reflexivity. Qed.

(** The safe pass issues no forced deletion. *)
Lemma engine_safe_not_forced bs failed0 :
  emits (fun e => negb (is_forced_deletion e))
    (@deleteNext W host false bs failed0).
Proof. apply deleteNext_emits; intros; reflexivity. Qed.

Lemma main_menu_early defaultMain branches :
  emits early (@main_menu W host defaultMain branches).
Proof.
  unfold main_menu.
  repeat first [apply forEach_log_emits; intros; reflexivity | emits_step].
Qed.

Lemma main_menu_resolved defaultMain branches :
  emits resolved (@main_menu W host defaultMain branches).
Proof.
  unfold main_menu.
  repeat first [apply forEach_log_emits; intros; reflexivity | emits_step].
Qed.

Lemma main_menu_keeps_flag defaultMain branches :
  keeps_flag (@main_menu W host defaultMain branches).
Proof.
  unfold main_menu. repeat first [apply forEach_log_keeps_flag | keeps_step].
Qed.

Lemma preCleanupCheck_calm bs defaultMain :
  emits (fun e => calm e && negb (is_notice e) && resolved e)
    (@preCleanupCheck W host bs defaultMain).
Proof. unfold preCleanupCheck, getCurrentBranch. emits_tac. Qed.

Lemma preCleanupCheck_keeps_flag bs defaultMain :
  keeps_flag (@preCleanupCheck W host bs defaultMain).
Proof. unfold preCleanupCheck, getCurrentBranch. keeps_tac. Qed.

Lemma main_target_calm defaultMain branches option :
  emits (fun e => calm e && resolved e)
    (@main_target W host defaultMain branches option).
Proof.
  unfold main_target. apply emits_bind; [emits_tac | intros bs].
  apply emits_bind; [|intros; emits_tac].
  apply (emits_weaken (fun e => calm e && negb (is_notice e) && resolved e));
    [|apply preCleanupCheck_calm].
  intros e. now destruct (calm e), (is_notice e), (resolved e).
Qed.

Lemma main_target_keeps_flag defaultMain branches option :
  keeps_flag (@main_target W host defaultMain branches option).
Proof.
  unfold main_target.
  repeat first [apply preCleanupCheck_keeps_flag | keeps_step].
Qed.

Lemma confirmDisclaimer_quiet :
  emits (fun e => silent e && resolved e && negb (is_deletion e) &&
                  negb (is_force_offer e))
    (@confirmDisclaimer W host).
Proof. unfold confirmDisclaimer. emits_tac. Qed.

Lemma confirmDisclaimer_run (s : pstate W) :
  disclaimerConfirmed s = false ->
  confirmDisclaimer s = confirmDisclaimer_unfolded s.
Proof.
  intros Hs. unfold confirmDisclaimer, confirmDisclaimer_unfolded.
  unfold bind at 1, get_disclaimerConfirmed. rewrite Hs.
  unfold bind at 1, console_log. unfold bind at 1, prompt.
  destruct (prompt_get confirmSchema (world s)) as [[err|answer] w1];
    rewrite ?Hs; [reflexivity|].
  now destruct (saysYes answer).
Qed.

Lemma main_delete_after_gate option final :
  emits after_gate (@main_delete W host option final).
Proof.
  unfold main_delete, deleteBranches.
  repeat first [apply engine_after_gate | emits_step].
Qed.

End Phases.

(** ** Deletions and the reading of the current branch *)

Section Rereads.

Context {W : Type} {host : Host W}.

Lemma reread_before_deletion_app (t1 t2 : trace) :
  reread_before_deletion t1 -> reread_before_deletion t2 ->
  reread_before_deletion (t1 ++ t2)%list.
Proof.
  intros H1 H2 i cmd d Hn Hc.
  destruct (Nat.lt_ge_cases i (length t1)) as [Hi|Hi].
  - rewrite nth_error_app1 in Hn by exact Hi.
    destruct (H1 i cmd d Hn Hc) as (j & r & -> & Hj & Hr & Hne).
    exists j, r. repeat split; try assumption.
    rewrite nth_error_app1 by lia. exact Hj.
  - rewrite nth_error_app2 in Hn by exact Hi.
    destruct (H2 _ cmd d Hn Hc) as (j & r & Hij & Hj & Hr & Hne).
    exists (length t1 + j), r. repeat split; try assumption; [lia|].
    rewrite nth_error_app2 by lia.
    now replace (length t1 + j - length t1) with j by lia.
Qed.

Lemma quiet_reread_before_deletion (t : trace) :
  forallb (fun e => negb (is_deletion e)) t = true ->
  reread_before_deletion t.
Proof.
  intros H i cmd d Hn Hc. exfalso.
  apply nth_error_In in Hn. rewrite forallb_forall in H.
  apply H in Hn. cbn in Hn. rewrite Hc in Hn. discriminate Hn.
Qed.

Lemma rereads_bind {A B} (m : M W A) (f : A -> M W B) :
  rereads m -> (forall a, rereads (f a)) -> rereads (bind m f).
Proof.
  intros Hm Hf s. rewrite trace_bind.
  apply reread_before_deletion_app; [apply Hm|].
  destruct (result_of (m s)); [apply Hf | now intros [|i]].
Qed.

Lemma rereads_quiet {A} (m : M W A) :
  emits (fun e => negb (is_deletion e)) m -> rereads m.
Proof. intros H s. apply quiet_reread_before_deletion, H. Qed.

Lemma rereads_engine (forced : bool) (names failed0 : list string) :
  rereads (deleteNext forced names failed0).
Proof.
  intros s i cmd d Hn Hc.
  destruct (deleteNext_engine_run forced names failed0 s) as (out & _ & Hrun).
  destruct (engine_run_deletion forced _ _ _ _ Hrun i cmd d Hn Hc)
    as (j & r & b & -> & Hj & Hr & _ & -> & Hne).
  exists j, r. rewrite deletion_target_delCmd. auto.
Qed.

Ltac rereads_step :=
  first
    [ apply rereads_engine
    | apply rereads_bind; [|intros]
    | solve [apply rereads_quiet; emits_tac]
    | case_step ].

Lemma main_rereads : rereads (@main W host).
Proof.
  unfold main, main_selected, main_target, main_delete, deleteBranches,
    confirmDisclaimer, preCleanupCheck, getCurrentBranch, main_menu,
    getDetachedBranches, getDefaultMainBranch, branchExists, isGitRepo.
  repeat first
    [ solve [apply rereads_quiet, forEach_log_emits; intros; reflexivity]
    | rereads_step ].
Qed.

End Rereads.

Section RereadClaims.

Context {W : Type} {host : Host W}.

(** C1. In a run of the Deletion Engine, in either mode, a deletion
    subprocess is only ever issued right after a successful re-reading of
    the current branch that returned a name other than the one deleted; and
    each re-reading belongs to one position of the batch, whose name is
    skipped (with the event recording it) when it equals the branch just
    read, and is otherwise the name the deletion is issued for.  So no
    deletion subprocess is issued for the branch checked out at that step;
    and in a whole run of the tool every deletion subprocess comes right
    after such a re-reading. *)
Theorem engine_never_deletes_current (branches : list string) (forced : bool)
  (s : pstate W) :
  let t := trace_of (deleteBranches branches forced s) in
  (forall i cmd d,
     nth_error t i = Some (EvExec cmd d) ->
     is_deletion_cmd cmd = true ->
     exists j r b,
       i = S j /\ nth_error t j = Some (EvExec revParseCmd r) /\
       failed r = false /\ In b branches /\ cmd = delCmd forced b /\
       trim (stdout r) <> b) /\
  (forall i r,
     nth_error t i = Some (EvExec revParseCmd r) ->
     exists b,
       nth_error branches (step_of t i) = Some b /\
       (failed r = false ->
        if b =? trim (stdout r)
        then nth_error t (S i) = Some (EvLog ("Skipping current branch: " ++ b))
        else exists d, nth_error t (S i) = Some (EvExec (delCmd forced b) d))) /\
  (forall w : W, reread_before_deletion (trace_of (run w))).
Proof.
  intros t. subst t. unfold deleteBranches.
  destruct (deleteNext_engine_run forced branches [] s) as (out & _ & Hrun).
  split; [|split].
  - exact (engine_run_deletion forced _ _ _ _ Hrun).
  - exact (engine_run_step forced _ _ _ _ Hrun).
  - intros w. apply main_rereads.
Qed.

End RereadClaims.

(** ** The disclaimer as the gate of deletion *)

Section TraceFacts.

Lemma count_app (p : event -> bool) (t1 t2 : trace) :
  count p (t1 ++ t2)%list = count p t1 + count p t2.
Proof. unfold count. now rewrite filter_app, length_app. Qed.

Lemma count_none (p q : event -> bool) (t : trace) :
  (forall e, q e = true -> p e = false) ->
  forallb q t = true -> count p t = 0.
Proof.
  intros Hqp Ht. unfold count.
  induction t as [|e t IH]; [reflexivity|].
  cbn in *. apply andb_prop in Ht. destruct Ht as [He Ht].
  rewrite (Hqp e He). now apply IH.
Qed.

Lemma forallb_weaken (p q : event -> bool) (t : trace) :
  (forall e, p e = true -> q e = true) ->
  forallb p t = true -> forallb q t = true.
Proof. intros Hpq. rewrite !forallb_forall. auto. Qed.

Lemma gated_spec (t : trace) :
  gated t = true ->
  forall pre e post,
    t = (pre ++ e :: post)%list -> is_deletion e = true ->
    existsb is_affirmation pre = true.
Proof.
  induction t as [|a t IH]; intros Hg pre e post Ht He.
  - now destruct pre.
  - cbn in Hg. destruct pre as [|a' pre]; cbn in Ht; injection Ht as <- Ht.
    + rewrite He in Hg. cbn in Hg. rewrite orb_false_r in Hg.
      destruct a; discriminate.
    + cbn. destruct (is_affirmation a); [reflexivity|]. cbn in *.
      apply andb_prop in Hg. destruct Hg as [_ Hg]. now apply (IH Hg pre e post).
Qed.

Lemma gated_quiet (t : trace) :
  forallb (fun e => negb (is_deletion e)) t = true -> gated t = true.
Proof.
  induction t as [|a t IH]; [reflexivity|]. cbn. intros H.
  apply andb_prop in H. destruct H as [Ha Ht].
  rewrite Ha, (IH Ht). apply orb_true_r.
Qed.

Lemma gated_app (t1 t2 : trace) :
  forallb (fun e => negb (is_deletion e)) t1 = true ->
  gated t2 = true -> gated (t1 ++ t2)%list = true.
Proof.
  induction t1 as [|a t IH]; [auto|]. cbn. intros H H2.
  apply andb_prop in H. destruct H as [Ha Ht].
  rewrite Ha, (IH Ht H2). apply orb_true_r.
Qed.

Lemma calm_no_deletion (e : event) : calm e = true -> negb (is_deletion e) = true.
Proof. unfold calm. now destruct (is_deletion e). Qed.

Lemma calm_no_disclaimer (e : event) : calm e = true -> is_disclaimer e = false.
Proof. unfold calm. destruct (is_disclaimer e); [|reflexivity]. now rewrite andb_false_r. Qed.

Lemma calm_no_confirm (e : event) : calm e = true -> is_confirm_prompt e = false.
Proof.
  unfold calm. destruct (is_confirm_prompt e); [|reflexivity].
  now rewrite andb_false_r.
Qed.

Lemma calm_no_offer (e : event) : calm e = true -> is_force_offer e = false.
Proof.
  unfold calm. destruct (is_force_offer e); [|reflexivity].
  now rewrite andb_false_r.
Qed.

End TraceFacts.

Section Gate.

Context {W : Type} {host : Host W}.

Lemma calm_gate_holds {A} (x : trace * res A * pstate W) :
  forallb calm (trace_of x) = true -> gate_holds x.
Proof.
  intros H. repeat split.
  - apply gated_quiet. revert H. apply forallb_weaken, calm_no_deletion.
  - exfalso. rewrite forallb_forall in H. apply H in H0.
    apply calm_no_confirm in H0. cbn in H0. rewrite H1 in H0. discriminate.
  - exfalso. rewrite forallb_forall in H. apply H in H0.
    apply calm_no_confirm in H0. cbn in H0. rewrite H1 in H0. discriminate.
  - rewrite (count_none _ calm); [lia | apply calm_no_disclaimer | exact H].
  - rewrite (count_none _ calm); [lia | apply calm_no_confirm | exact H].
Qed.

Lemma gate_ok_calm {A} (m : M W A) : emits calm m -> gate_ok m.
Proof. intros H s _. apply calm_gate_holds, H. Qed.

Lemma gate_ok_bind {A B} (m : M W A) (f : A -> M W B) :
  emits calm m -> keeps_flag m -> (forall a, gate_ok (f a)) ->
  gate_ok (bind m f).
Proof.
  intros Hm Hk Hf s Hs. specialize (Hm s). specialize (Hk s).
  unfold gate_holds. rewrite trace_bind, result_bind.
  destruct (result_of (m s)) as [a|c] eqn:Hr.
  - assert (Hs1 : disclaimerConfirmed (state_of (m s)) = false) by congruence.
    destruct (Hf a _ Hs1) as (Hg & Hd & Hc1 & Hc2).
    assert (Hnd : forallb (fun e => negb (is_deletion e)) (trace_of (m s)) = true)
      by (revert Hm; apply forallb_weaken, calm_no_deletion).
    repeat split.
    + now apply gated_app.
    + apply in_app_or in H. destruct H as [H|H]; [exfalso|now apply (Hd q answer)].
      rewrite forallb_forall in Hm. apply Hm in H.
      apply calm_no_confirm in H. cbn in H. rewrite H0 in H. discriminate.
    + rewrite forallb_app, Hnd.
      apply in_app_or in H. destruct H as [H|H]; [exfalso|now apply (Hd q answer)].
      rewrite forallb_forall in Hm. apply Hm in H.
      apply calm_no_confirm in H. cbn in H. rewrite H0 in H. discriminate.
    + rewrite count_app, (count_none _ calm _ calm_no_disclaimer Hm). exact Hc1.
    + rewrite count_app, (count_none _ calm _ calm_no_confirm Hm). exact Hc2.
  - rewrite app_nil_r.
    destruct (calm_gate_holds (m s) Hm) as (Hg & Hd & Hc1 & Hc2).
    repeat split; auto.
    + destruct (Hd q answer H H0 H1) as [E _]. congruence.
    + now destruct (Hd q answer H H0 H1).
Qed.

(** The disclaimer, then the deletions. *)
Lemma gate_ok_disclaimer option final :
  gate_ok (bind confirmDisclaimer (fun _ => main_delete option final)).
Proof.
  intros s Hs. unfold gate_holds. rewrite trace_bind, result_bind.
  rewrite (confirmDisclaimer_run s Hs). unfold confirmDisclaimer_unfolded.
  destruct (prompt_get confirmSchema (world s)) as [[err|answer] w1].
  { repeat split; try (cbn; lia).
    all: destruct H as [E|[E|[E|[]]]]; discriminate E. }
  destruct (saysYes answer) eqn:Hy.
  2:{ repeat split; try (cbn; lia); try (cbn; now rewrite Hy). }
  cbn [trace_of result_of state_of fst snd].
  set (t := trace_of (main_delete option final (PState w1 true))).
  pose proof (main_delete_after_gate option final (PState w1 true)) as Hm.
  fold t in Hm.
  assert (Hd : count is_disclaimer t = 0).
  { apply (count_none _ after_gate); [|exact Hm]. intros e.
    unfold after_gate, gate_passed. now destruct (is_disclaimer e). }
  assert (Hc : count is_confirm_prompt t = 0).
  { apply (count_none _ after_gate); [|exact Hm]. intros e.
    unfold after_gate, gate_passed.
    destruct (is_confirm_prompt e); [|reflexivity].
    now rewrite andb_false_r. }
  repeat split.
  - cbn. now rewrite Hy.
  - exfalso. cbn in H. destruct H as [E|[E|H]]; [discriminate E| |].
    + injection E as _ E. congruence.
    + rewrite forallb_forall in Hm. apply Hm in H.
      unfold after_gate, gate_passed in H. cbn in H. rewrite H0 in H.
      vm_compute in H. discriminate H.
  - exfalso. cbn in H. destruct H as [E|[E|H]]; [discriminate E| |].
    + injection E as _ E. congruence.
    + rewrite forallb_forall in Hm. apply Hm in H.
      unfold after_gate, gate_passed in H. cbn in H. rewrite H0 in H.
      vm_compute in H. discriminate H.
  - change (count is_disclaimer
              ([EvLog warningMessage; EvPrompt confirmSchema (inr answer)] ++ t)%list
            <= 1).
    rewrite count_app, Hd. cbn. lia.
  - change (count is_confirm_prompt
              ([EvLog warningMessage; EvPrompt confirmSchema (inr answer)] ++ t)%list
            <= 1).
    rewrite count_app, Hc. cbn. lia.
Qed.

End Gate.

Section RunGate.

Context {W : Type} {host : Host W}.

Lemma early_calm (e : event) : early e = true -> calm e = true.
Proof. unfold early. now destruct (calm e). Qed.

Lemma main_selected_gate_ok defaultMain branches option :
  gate_ok (@main_selected W host defaultMain branches option).
Proof.
  unfold main_selected. apply gate_ok_bind.
  - apply (emits_weaken (fun e => calm e && resolved e));
      [|apply main_target_calm].
    intros e. now destruct (calm e).
  - apply main_target_keeps_flag.
  - intros final. apply gate_ok_disclaimer.
Qed.

Ltac gate_step :=
  first
    [ apply main_selected_gate_ok
    | apply gate_ok_bind;
        [ first [ solve [eapply emits_weaken;
                           [exact early_calm | apply main_menu_early]]
                | solve [unfold isGitRepo, getDefaultMainBranch, branchExists,
                           getDetachedBranches; emits_tac] ]
        | first [ solve [apply main_menu_keeps_flag]
                | solve [unfold isGitRepo, getDefaultMainBranch, branchExists,
                           getDetachedBranches; keeps_tac] ]
        | intros ]
    | solve [apply gate_ok_calm; emits_tac]
    | case_step ].

Lemma main_gate_ok : gate_ok (@main W host).
Proof. unfold main. repeat gate_step. Qed.

(** C3. In every run: an affirmation of the disclaimer (an answer yes or
    y, in any letter case, to its prompt) comes before every deletion
    subprocess; an answer to the disclaimer that is not an affirmation ends
    the run with status 0 and without any deletion subprocess; and the
    disclaimer is shown at most once and asked at most once, so a later
    forced-retry pass runs without showing it again. *)
Theorem disclaimer_gates_deletion (w : W) :
  let x := run w in
  (forall pre e post,
     trace_of x = (pre ++ e :: post)%list ->
     is_deletion e = true ->
     existsb is_affirmation pre = true) /\
  (forall q answer,
     In (EvPrompt q (inr answer)) (trace_of x) ->
     name q = "confirm" ->
     saysYes answer = false ->
     result_of x = Exit 0 /\
     forallb (fun e => negb (is_deletion e)) (trace_of x) = true) /\
  count is_disclaimer (trace_of x) <= 1 /\
  count is_confirm_prompt (trace_of x) <= 1.
Proof.
  intros x. subst x. unfold run.
  destruct (main_gate_ok (PState w false) eq_refl) as (Hg & Hd & Hc1 & Hc2).
  repeat split; try assumption.
  - intros pre e post. now apply gated_spec.
  - now apply (Hd q answer).
  - now apply (Hd q answer).
Qed.

End RunGate.

(** ** The forced-retry offer *)

Section Retry.

Context {W : Type} {host : Host W}.

Lemma bind_run {A B} (m : M W A) (f : A -> M W B) (s : pstate W) :
  bind m f s =
  match result_of (m s) with
  | Ret a => prepend (trace_of (m s)) (f a (state_of (m s)))
  | Exit c => (trace_of (m s), Exit c, state_of (m s))
  end.
Proof.
  unfold bind, prepend, trace_of, result_of, state_of.
  destruct (m s) as [[t1 [a|c]] s1]; cbn; [|reflexivity].
  now destruct (f a s1) as [[t2 r] s2].
Qed.

Lemma prepend_prepend {A} (t1 t2 : trace) (x : trace * res A * pstate W) :
  prepend t1 (prepend t2 x) = prepend (t1 ++ t2)%list x.
Proof. unfold prepend. cbn. now rewrite app_assoc. Qed.

Lemma forced_pass_run (names : list string) (s : pstate W) :
  bind (deleteBranches names true)
    (fun d' =>
       match d' with
       | inl err =>
           console_error_obj "Error during forced branch deletion:" err ;;
           process_exit 1
       | inr _ => console_log "Forced deletion completed." ;; process_exit 0
       end) s =
  forced_closing (deleteBranches names true s).
Proof.
  rewrite bind_run. unfold forced_closing.
  destruct (result_of (deleteBranches names true s)) as [[err|fb]|c];
    reflexivity.
Qed.

Lemma main_delete_safe (option : Z) (final : list string) (s : pstate W) :
  (option = 1 \/ option = 3)%Z ->
  main_delete option final s = safe_then_offer final s.
Proof.
  intros Ho. unfold main_delete, safe_then_offer.
  replace (Z.eqb option 1 || Z.eqb option 3) with true
    by (destruct Ho; subst; reflexivity).
  rewrite bind_run.
  destruct (result_of (deleteBranches final false s)) as [[err|fb]|c];
    try reflexivity.
  destruct fb as [|b fb]; [reflexivity|]. cbn [length Nat.ltb Nat.leb].
  rewrite bind_run. unfold prompt at 1 2 3, trace_of at 2 3, result_of at 1,
    state_of at 3.
  destruct (prompt_get forceSchema (world _)) as [[err|answer] w2]; cbn [fst snd].
  - reflexivity.
  - destruct (saysYes answer); [|reflexivity].
    cbn [state_of snd]. rewrite forced_pass_run. apply prepend_prepend.
Qed.

Lemma existsb_none (p : event -> bool) (t : trace) :
  forallb (fun e => negb (p e)) t = true -> existsb p t = false.
Proof.
  induction t as [|e t IH]; [reflexivity|]. cbn. intros H.
  apply andb_prop in H. destruct H as [He Ht].
  rewrite (IH Ht). now destruct (p e).
Qed.

Lemma engine_offers_nothing (forced : bool) (names : list string)
  (s : pstate W) :
  existsb is_force_offer (trace_of (deleteBranches names forced s)) = false.
Proof.
  apply existsb_none.
  generalize (engine_no_offer forced names [] s). apply forallb_weaken.
  intros e. now destruct (is_force_offer e).
Qed.

Lemma forced_closing_offers_nothing (names : list string) (s : pstate W) :
  existsb is_force_offer
    (trace_of (forced_closing (deleteBranches names true s))) = false.
Proof.
  unfold forced_closing.
  destruct (result_of (deleteBranches names true s)) as [[err|fb]|c];
    cbn [trace_of fst]; rewrite ?existsb_app, engine_offers_nothing;
    reflexivity.
Qed.

(** The forced deletions of a forced pass are deletions of its names. *)
Lemma forced_pass_targets (names : list string) (s : pstate W) (e : event) :
  In e (trace_of (forced_closing (deleteBranches names true s))) ->
  is_forced_deletion e = true ->
  exists b d, In b names /\ e = EvExec (delCmd true b) d.
Proof.
  intros Hin He.
  assert (Hin' : In e (trace_of (deleteBranches names true s))).
  { unfold forced_closing in Hin.
    destruct (result_of (deleteBranches names true s)) as [[err|fb]|c];
      cbn [trace_of fst] in Hin; try exact Hin;
      apply in_app_or in Hin; destruct Hin as [H|[<-|[]]]; try exact H;
      discriminate He. }
  destruct e as [| cmd d | | | | | |]; try discriminate He.
  apply In_nth_error in Hin'. destruct Hin' as [i Hi].
  unfold deleteBranches in Hi.
  destruct (deleteNext_engine_run true names [] s) as (out & _ & Hrun).
  destruct (engine_run_deletion true _ _ _ _ Hrun i cmd d Hi)
    as (j & r & b & _ & _ & _ & Hb & -> & _).
  - unfold is_deletion_cmd. cbn in He. rewrite He. apply orb_true_r.
  - eauto.
Qed.

End Retry.

(** ** The Pre-Cleanup Guard *)

Section Guard.

Context {W : Type} {host : Host W}.

Lemma preCleanupCheck_run (bs : list string) (a : ascii) (d : string)
  (s : pstate W) :
  preCleanupCheck bs (Some (String a d)) s =
  preCleanupCheck_unfolded bs (String a d) s.
Proof.
  unfold preCleanupCheck, preCleanupCheck_unfolded, getCurrentBranch.
  unfold bind at 1 2, exec at 1.
  destruct (child_exec revParseCmd (world s)) as [r w1].
  destruct (failed r); [reflexivity|]. cbn [ret].
  destruct (toLowerCase (trim (stdout r)) =? toLowerCase (String a d));
    [reflexivity|].
  unfold bind at 1, console_log. unfold bind at 1, prompt.
  cbn [world disclaimerConfirmed].
  destruct (prompt_get (switchSchema (String a d)) w1) as [[err|answer] w2];
    [reflexivity|].
  destruct (saysYes answer); [|reflexivity].
  unfold bind at 1, exec. cbn [world disclaimerConfirmed].
  destruct (child_exec (checkoutCmd (String a d)) w2) as [c w3].
  now destruct (failed c).
Qed.

Lemma preCleanupCheck_none (bs : list string) (defaultMain : option string)
  (s : pstate W) :
  truthy defaultMain = false ->
  preCleanupCheck bs defaultMain s = ([], Ret (inr bs), s).
Proof. now destruct defaultMain as [[|a d]|]. Qed.

(** A failed checkout makes the Guard call back with an error. *)
Lemma guard_checkout_failed bs defaultMain (s : pstate W) cmd c :
  In (EvExec cmd c) (trace_of (preCleanupCheck bs defaultMain s)) ->
  prefix "git checkout " cmd = true ->
  failed c = true ->
  exists err, result_of (preCleanupCheck bs defaultMain s) = Ret (inl err).
Proof.
  destruct defaultMain as [[|a d]|]; try (intros []).
  rewrite preCleanupCheck_run. unfold preCleanupCheck_unfolded.
  destruct (child_exec revParseCmd (world s)) as [r w1].
  destruct (failed r); [intros; eexists; reflexivity|].
  destruct (toLowerCase (trim (stdout r)) =? toLowerCase (String a d)).
  { intros [E|[]] Hp. injection E as <- _. discriminate Hp. }
  destruct (prompt_get (switchSchema (String a d)) w1) as [[err|answer] w2];
    [intros; eexists; reflexivity|].
  destruct (saysYes answer).
  - destruct (child_exec (checkoutCmd (String a d)) w2) as [c' w3].
    destruct (failed c') eqn:Hc; [intros; eexists; reflexivity|].
    intros [E|[E|[E|[E|[E|[]]]]]] Hp Hf; try discriminate E.
    + injection E as <- _. discriminate Hp.
    + injection E as _ <-. congruence.
  - intros [E|[E|[E|[]]]] Hp; try discriminate E.
    injection E as <- _. discriminate Hp.
Qed.

End Guard.

(** ** The choice of the targets and the stages of a run *)

Section Stages.

Context {W : Type} {host : Host W}.

Lemma guard_no_notice bs defaultMain (s : pstate W) (msg : string) :
  In (EvLog msg) (trace_of (preCleanupCheck bs defaultMain s)) ->
  is_empty_notice msg = false.
Proof.
  intros H. pose proof (preCleanupCheck_calm bs defaultMain s) as Hc.
  rewrite forallb_forall in Hc. apply Hc in H. cbn [is_notice] in H.
  unfold is_notice in H. destruct (is_empty_notice msg); [|reflexivity].
  now rewrite andb_false_r in H.
Qed.

Lemma guard_tail_outcomes bs defaultMain (s : pstate W) :
  target_outcomes
    (bind (preCleanupCheck bs defaultMain)
       (fun g =>
          match g with
          | inl err =>
              console_error_obj "Error during pre-cleanup check:" err ;;
              process_exit 1
          | inr finalBranchesToDelete =>
              if Nat.eqb (length finalBranchesToDelete) 0 then
                console_log
                  "No branches available to delete after pre-cleanup adjustments." ;;
                process_exit 0
              else ret finalBranchesToDelete
          end) s).
Proof.
  rewrite bind_run.
  pose proof (guard_no_notice bs defaultMain s) as Hn.
  pose proof (guard_checkout_failed bs defaultMain s) as Hc.
  destruct (result_of (preCleanupCheck bs defaultMain s)) as [[err|final]|c];
    [|destruct (Nat.eqb (length final) 0)|];
    unfold target_outcomes, prepend; cbn [trace_of result_of fst snd];
    rewrite ?app_nil_r; split.
  - intros msg H Hm. apply in_app_or in H.
    destruct H as [H|[E|[]]]; [|discriminate E].
    apply Hn in H. congruence.
  - reflexivity.
  - intros msg H Hm. apply in_app_or in H.
    destruct H as [H|[E|[]]]; [apply Hn in H; congruence|].
    injection E as <-. split; [reflexivity | eauto].
  - intros cmd c H Hp Hf. apply in_app_or in H.
    destruct H as [H|[E|[]]]; [|discriminate E].
    destruct (Hc cmd c H Hp Hf) as [err E]. discriminate E.
  - intros msg H Hm. apply Hn in H. congruence.
  - intros cmd c H Hp Hf.
    destruct (Hc cmd c H Hp Hf) as [err E]. discriminate E.
  - intros msg H Hm. apply Hn in H. congruence.
  - intros cmd c' H Hp Hf.
    destruct (Hc cmd c' H Hp Hf) as [err E]. discriminate E.
Qed.

Lemma prepend_nil {A} (x : trace * res A * pstate W) : prepend [] x = x.
Proof. now destruct x as [[t r] s]. Qed.

Lemma main_target_outcomes defaultMain branches option (s : pstate W) :
  target_outcomes (main_target defaultMain branches option s).
Proof.
  unfold main_target. rewrite bind_run.
  pose proof (fun bs => guard_tail_outcomes bs defaultMain s) as Hg.
  destruct defaultMain as [[|a d]|];
    try (cbn [ret trace_of result_of state_of fst snd];
         rewrite prepend_nil; exact (Hg branches)).
  destruct (Z.eqb option 3);
    [destruct (Nat.eqb (length (filter (differsIgnoringCase (String a d)) branches)) 0)|].
  - cbn. split.
    + intros msg [E|[]] _. injection E as <-. split; [reflexivity|].
      now exists [].
    + intros cmd c [E|[]]. discriminate E.
  - cbn [ret trace_of result_of state_of fst snd].
    rewrite prepend_nil. apply Hg.
  - cbn [ret trace_of result_of state_of fst snd].
    rewrite prepend_nil. apply Hg.
Qed.

Lemma stages_bind {A} (m : M W A) (f : A -> M W unit) :
  emits early m -> keeps_flag m -> (forall a, stages (f a)) ->
  stages (bind m f).
Proof.
  intros Hm Hk Hf s Hs. specialize (Hm s). specialize (Hk s).
  rewrite bind_run. destruct (result_of (m s)) as [a|c] eqn:Hr.
  - assert (Hs1 : disclaimerConfirmed (state_of (m s)) = false) by congruence.
    destruct (Hf a _ Hs1) as [[He [c Hc]]|(d & bs & o & s1 & pre & He & H1 & Hx)].
    + left. unfold prepend. cbn [trace_of result_of fst snd].
      rewrite forallb_app, Hm, He. eauto.
    + right. exists d, bs, o, s1, (trace_of (m s) ++ pre)%list.
      rewrite forallb_app, Hm, He, Hx, prepend_prepend. auto.
  - left. cbn [trace_of result_of fst snd]. eauto.
Qed.

Lemma stages_exit (c : Z) : stages (@process_exit W unit c).
Proof. intros s _. left. cbn. eauto. Qed.

Lemma stages_selected defaultMain branches option :
  stages (@main_selected W host defaultMain branches option).
Proof.
  intros s Hs. right. exists defaultMain, branches, option, s, [].
  repeat split; [exact Hs|].
  unfold prepend. cbn. now destruct (main_selected _ _ _ s) as [[t r] s'].
Qed.

Ltac stage_step :=
  first
    [ apply stages_selected
    | apply stages_exit
    | apply stages_bind;
        [ first [ solve [apply main_menu_early]
                | solve [unfold isGitRepo, getDefaultMainBranch, branchExists,
                           getDetachedBranches; emits_tac] ]
        | first [ solve [apply main_menu_keeps_flag]
                | solve [unfold isGitRepo, getDefaultMainBranch, branchExists,
                           getDetachedBranches; keeps_tac] ]
        | intros ]
    | case_step ].

Lemma main_stages : stages (@main W host).
Proof. unfold main. repeat stage_step. Qed.

End Stages.

Section RunStages.

Context {W : Type} {host : Host W}.

Lemma early_silent (e : event) : early e = true -> silent e = true.
Proof. unfold early. now destruct (calm e), (silent e). Qed.

Lemma silent_no_notice (msg : string) :
  silent (EvLog msg) = true -> is_empty_notice msg = false.
Proof. unfold silent. cbn. now destruct (is_empty_notice msg). Qed.

Lemma silent_no_checkout (cmd : string) (c : exec_result) :
  silent (EvExec cmd c) = true -> prefix "git checkout " cmd = false.
Proof. unfold silent. cbn. now destruct (prefix "git checkout " cmd). Qed.

Lemma after_target_silent option final :
  emits silent (bind (@confirmDisclaimer W host)
                  (fun _ => main_delete option final)).
Proof.
  apply emits_bind.
  - generalize (@confirmDisclaimer_quiet W host). apply emits_weaken.
    intros e. now destruct (silent e).
  - intros _. generalize (@main_delete_after_gate W host option final).
    apply emits_weaken. intros e. unfold after_gate.
    destruct (silent e); [reflexivity|]. now rewrite andb_false_r.
Qed.

(** In a whole run, a message about an emptied list, or a failed checkout,
    ends the run at once, and nothing but calm events came before. *)
Lemma run_target_outcomes (w : W) :
  let x := run w in
  (forall msg,
     In (EvLog msg) (trace_of x) -> is_empty_notice msg = true ->
     result_of x = Exit 0 /\
     (exists pre, trace_of x = (pre ++ [EvLog msg])%list) /\
     forallb calm (trace_of x) = true) /\
  (forall cmd c,
     In (EvExec cmd c) (trace_of x) -> prefix "git checkout " cmd = true ->
     failed c = true ->
     result_of x = Exit 1 /\ forallb calm (trace_of x) = true).
Proof.
  intros x. subst x. unfold run.
  destruct (main_stages (PState w false) eq_refl)
    as [[He _]|(d & bs & o & s1 & pre & He & _ & ->)].
  { assert (Hs : forall e, In e (trace_of (main (PState w false))) ->
                  silent e = true).
    { intros e H. rewrite forallb_forall in He. apply early_silent. auto. }
    split.
    - intros msg H Hm. apply Hs, silent_no_notice in H. congruence.
    - intros cmd c H Hp. apply Hs, silent_no_checkout in H. congruence. }
  assert (Hpre : forall e, In e pre -> silent e = true).
  { intros e H. rewrite forallb_forall in He. apply early_silent. auto. }
  assert (Hcalm : forallb calm pre = true)
    by (revert He; apply forallb_weaken, early_calm).
  unfold main_selected. rewrite bind_run.
  pose proof (main_target_outcomes d bs o s1) as [Hn Hc].
  pose proof (main_target_calm d bs o s1) as Ht.
  assert (Ht' : forallb calm (trace_of (main_target d bs o s1)) = true).
  { revert Ht. apply forallb_weaken. intros e. now destruct (calm e). }
  destruct (result_of (main_target d bs o s1)) as [final|c] eqn:Hr.
  - pose proof (after_target_silent o final (state_of (main_target d bs o s1)))
      as Hrest.
    rewrite forallb_forall in Hrest.
    unfold prepend. cbn [trace_of result_of fst snd]. split.
    + intros msg H Hm. exfalso.
      apply in_app_or in H. destruct H as [H|H];
        [apply Hpre, silent_no_notice in H; congruence|].
      apply in_app_or in H. destruct H as [H|H].
      * destruct (Hn msg H Hm) as [E _]. discriminate E.
      * apply Hrest, silent_no_notice in H. congruence.
    + intros cmd c H Hp Hf. exfalso.
      apply in_app_or in H. destruct H as [H|H];
        [apply Hpre, silent_no_checkout in H; congruence|].
      apply in_app_or in H. destruct H as [H|H].
      * discriminate (Hc cmd c H Hp Hf).
      * apply Hrest, silent_no_checkout in H. congruence.
  - unfold prepend. cbn [trace_of result_of fst snd]. split.
    + intros msg H Hm.
      apply in_app_or in H. destruct H as [H|H];
        [apply Hpre, silent_no_notice in H; congruence|].
      destruct (Hn msg H Hm) as [E [pre' Hp']]. repeat split.
      * now injection E as ->.
      * exists (pre ++ pre')%list. now rewrite Hp', app_assoc.
      * now rewrite forallb_app, Hcalm, Ht'.
    + intros cmd c' H Hp Hf.
      apply in_app_or in H. destruct H as [H|H];
        [apply Hpre, silent_no_checkout in H; congruence|].
      split; [now injection (Hc cmd c' H Hp Hf) as ->|].
      now rewrite forallb_app, Hcalm, Ht'.
Qed.

End RunStages.

Section TargetClaims.

Context {W : Type} {host : Host W}.

Lemma prefix_append (s t : string) : prefix s (s ++ t) = true.
Proof.
  induction s as [|a s IH]; cbn; [now destruct t|].
  destruct (ascii_dec a a); [exact IH | congruence].
Qed.

Lemma filteredNotice_is_notice (d : string) :
  is_empty_notice (filteredNotice d) = true.
Proof.
  unfold is_empty_notice, filteredNotice.
  rewrite (prefix_append "No branches available to delete after filtering out '").
  apply orb_true_r.
Qed.

(** With a list left to delete, the choice of the targets is the Guard
    and the test of what it hands back. *)
Lemma main_target_guarded defaultMain branches option (s : pstate W) :
  branchesToDelete_of defaultMain branches option <> [] ->
  main_target defaultMain branches option s =
  bind (preCleanupCheck (branchesToDelete_of defaultMain branches option)
          defaultMain)
    (fun g =>
       match g with
       | inl err =>
           console_error_obj "Error during pre-cleanup check:" err ;;
           process_exit 1
       | inr finalBranchesToDelete =>
           if Nat.eqb (length finalBranchesToDelete) 0 then
             console_log adjustedNotice ;; process_exit 0
           else ret finalBranchesToDelete
       end) s.
Proof.
  intros Hne. unfold main_target. rewrite (bind_run _ _ s).
  unfold branchesToDelete_of in *.
  destruct defaultMain as [[|a d]|];
    try (cbn [ret trace_of result_of state_of fst snd];
         now rewrite prepend_nil).
  destruct (Z.eqb option 3);
    [|cbn [ret trace_of result_of state_of fst snd]; now rewrite prepend_nil].
  cbn zeta.
  destruct (filter (differsIgnoringCase (String a d)) branches) as [|b l];
    [now elim Hne|].
  cbn [length Nat.eqb ret trace_of result_of state_of fst snd].
  now rewrite prepend_nil.
Qed.

(** C10. When option 3's filtering of the default name leaves no branch,
    the choice of the targets prints its message and exits with status 0
    at once; when the Guard hands back an empty list, it prints the other
    message after the Guard's events and exits with status 0.  In a whole
    run, either message is the last event, the status is 0, and neither the
    disclaimer nor a deletion subprocess occurs anywhere in the run. *)
Theorem empty_target_list_ends_run :
  (forall d branches (s : pstate W),
     d <> "" ->
     filter (differsIgnoringCase d) branches = [] ->
     main_target (Some d) branches 3 s = ([EvLog (filteredNotice d)], Exit 0, s) /\
     is_empty_notice (filteredNotice d) = true) /\
  (forall defaultMain branches option (s : pstate W),
     let bs := branchesToDelete_of defaultMain branches option in
     let guard := preCleanupCheck bs defaultMain s in
     bs <> [] ->
     result_of guard = Ret (inr []) ->
     main_target defaultMain branches option s =
       ((trace_of guard ++ [EvLog adjustedNotice])%list, Exit 0, state_of guard) /\
     is_empty_notice adjustedNotice = true) /\
  (forall (w : W) msg,
     In (EvLog msg) (trace_of (run w)) ->
     is_empty_notice msg = true ->
     result_of (run w) = Exit 0 /\
     (exists pre, trace_of (run w) = (pre ++ [EvLog msg])%list) /\
     forallb (fun e => negb (is_disclaimer e) && negb (is_deletion e))
       (trace_of (run w)) = true).
Proof.
  split; [|split].
  - intros d branches s Hd Hf. split; [|apply filteredNotice_is_notice].
    destruct d as [|a d]; [now elim Hd|].
    unfold main_target. rewrite bind_run. cbn [Z.eqb Pos.eqb].
    rewrite Hf. reflexivity.
  - intros defaultMain branches option s bs guard Hne Hr.
    split; [|reflexivity].
    rewrite (main_target_guarded defaultMain branches option s Hne).
    rewrite bind_run. fold bs guard. now rewrite Hr.
  - intros w msg H Hm.
    destruct (run_target_outcomes w) as [Hn _].
    destruct (Hn msg H Hm) as (Hr & Hp & Hc). repeat split; try assumption.
    revert Hc. apply forallb_weaken. intros e. unfold calm.
    now destruct (is_disclaimer e), (is_deletion e).
Qed.

End TargetClaims.

Section GuardClaims.

Context {W : Type} {host : Host W}.

(** C6. The Guard hands the list back unchanged, without any event, when no
    default branch was resolved, and unchanged when the branch read as
    current is the default (or differs from it in letter case only).
    Otherwise, on the answer yes (or y) it issues the checkout of the
    default, and hands the list back unchanged when the checkout succeeds
    and an error when it fails; on another answer it hands back the list
    without the names equal to the current branch up to letter case, so the
    current branch is not in the list given to the Deletion Engine.  In a
    whole run a failed checkout ends the run with status 1 and no deletion
    subprocess occurs in it. *)
Theorem guard_adjusts_targets (bs : list string) (defaultMain : option string)
  (s : pstate W) :
  let x := preCleanupCheck bs defaultMain s in
  let flag := disclaimerConfirmed s in
  (truthy defaultMain = false -> x = ([], Ret (inr bs), s)) /\
  (forall d r w1,
     defaultMain = Some d -> d <> "" ->
     child_exec revParseCmd (world s) = (r, w1) ->
     failed r = false ->
     let current := trim (stdout r) in
     (current = d \/ toLowerCase current = toLowerCase d ->
      x = ([EvExec revParseCmd r], Ret (inr bs), PState w1 flag)) /\
     (toLowerCase current <> toLowerCase d ->
      forall answer w2,
        prompt_get (switchSchema d) w1 = (inr answer, w2) ->
        if saysYes answer then
          forall c w3,
            child_exec (checkoutCmd d) w2 = (c, w3) ->
            nth_error (trace_of x) 3 = Some (EvExec (checkoutCmd d) c) /\
            state_of x = PState w3 flag /\
            result_of x =
              Ret (if failed c then inl (switchError d c) else inr bs)
        else
          let kept := filter (differsIgnoringCase current) bs in
          result_of x = Ret (inr kept) /\
          state_of x = PState w2 flag /\
          ~ In current kept /\
          (forall b, In b kept <->
                     In b bs /\ toLowerCase b <> toLowerCase current))) /\
  (forall (w : W) cmd c,
     In (EvExec cmd c) (trace_of (run w)) ->
     prefix "git checkout " cmd = true ->
     failed c = true ->
     result_of (run w) = Exit 1 /\
     forallb (fun e => negb (is_deletion e)) (trace_of (run w)) = true).
Proof.
  intros x flag. split; [|split].
  - apply preCleanupCheck_none.
  - intros d r w1 -> Hd Hx Hr current.
    destruct d as [|a d]; [now elim Hd|]. subst x.
    rewrite preCleanupCheck_run. unfold preCleanupCheck_unfolded.
    rewrite Hx, Hr. fold current. split.
    + intros [-> | ->]; now rewrite String.eqb_refl.
    + intros Hne answer w2 Hp.
      rewrite (proj2 (String.eqb_neq _ _) Hne), Hp.
      destruct (saysYes answer).
      * intros c w3 Hc. rewrite Hc. now destruct (failed c).
      * cbn [result_of state_of fst snd]. repeat split.
        -- now apply filter_drops_same_case.
        -- now apply filter_In in H.
        -- apply filter_In in H. destruct H as [_ H].
           unfold differsIgnoringCase in H. intros E. rewrite E in H.
           now rewrite String.eqb_refl in H.
        -- intros [Hb Hl]. apply filter_In. split; [exact Hb|].
           unfold differsIgnoringCase.
           now rewrite (proj2 (String.eqb_neq _ _) Hl).
  - intros w cmd c H Hp Hf.
    destruct (run_target_outcomes w) as [_ Hc].
    destruct (Hc cmd c H Hp Hf) as [Hr Hcalm]. split; [exact Hr|].
    revert Hcalm. apply forallb_weaken, calm_no_deletion.
Qed.

End GuardClaims.

(** ** The forced-retry offer in a run *)

Section RunOffer.

Context {W : Type} {host : Host W}.

Lemma unmerged_in_app (t1 t2 : trace) :
  unmerged_in (t1 ++ t2)%list = (unmerged_in t1 ++ unmerged_in t2)%list.
Proof. apply flat_map_app. Qed.

Lemma unmerged_in_none (t : trace) :
  forallb (fun e => negb (is_safe_deletion e)) t = true -> unmerged_in t = [].
Proof.
  unfold unmerged_in.
  induction t as [|e t IH]; [reflexivity|]. cbn [forallb flat_map]. intros H.
  apply andb_prop in H. destruct H as [He Ht].
  rewrite (IH Ht), app_nil_r.
  destruct e as [| cmd d | | | | | |]; try reflexivity.
  cbn [is_safe_deletion] in He.
  destruct (prefix "git branch -d " cmd); [discriminate He | reflexivity].
Qed.

Lemma before_pass_no_safe (e : event) :
  before_pass e = true -> negb (is_safe_deletion e) = true.
Proof.
  unfold before_pass. destruct e as [| cmd d | | | | | |]; try reflexivity.
  unfold is_deletion, is_deletion_cmd, is_safe_deletion.
  now destruct (prefix "git branch -d " cmd).
Qed.

Lemma before_pass_not_forced (e : event) :
  before_pass e = true -> negb (is_forced_deletion e) = true.
Proof.
  unfold before_pass. destruct e as [| cmd d | | | | | |]; try reflexivity.
  unfold is_deletion, is_deletion_cmd, is_forced_deletion.
  destruct (prefix "git branch -D " cmd); [|reflexivity].
  now rewrite orb_true_r.
Qed.

Lemma before_pass_no_offer (e : event) :
  before_pass e = true -> negb (is_force_offer e) = true.
Proof. unfold before_pass. now destruct (is_deletion e), (is_force_offer e). Qed.

Lemma early_before_pass (e : event) : early e = true -> before_pass e = true.
Proof.
  intros H. apply early_calm in H. unfold before_pass.
  rewrite (calm_no_deletion e H), (calm_no_offer e H). reflexivity.
Qed.

(** The forced pass issues no safe deletion. *)
Lemma forced_pass_no_safe (names : list string) (s : pstate W) :
  forallb (fun e => negb (is_safe_deletion e))
    (trace_of (deleteBranches names true s)) = true.
Proof.
  apply (deleteNext_emits (fun e => negb (is_safe_deletion e)) true);
    intros; reflexivity.
Qed.

Lemma forced_closing_trace (x : trace * res (error + list string) * pstate W) :
  (exists out, result_of x = Ret out) ->
  exists e,
    trace_of (forced_closing x) = (trace_of x ++ [e])%list /\
    is_safe_deletion e = false /\ is_force_offer e = false /\
    e <> EvErrorObj "Error during branch deletion:" currentBranchError.
Proof.
  intros [out Hout]. unfold forced_closing. rewrite Hout.
  destruct out as [err|fb]; eexists; cbn [trace_of fst];
    (split; [reflexivity|]); repeat split; discriminate.
Qed.

(** A run stops before the deletion stage, or reaches it. *)
Lemma run_pass_stage (w : W) :
  forallb before_pass (trace_of (run w)) = true \/
  exists pre o final s,
    forallb before_pass pre = true /\
    run w = prepend pre (main_delete o final s).
Proof.
  unfold run.
  destruct (main_stages (PState w false) eq_refl)
    as [[He _]|(d & bs & o & s1 & pre & Hpre & Hs1 & E)].
  { left. revert He. apply forallb_weaken, early_before_pass. }
  apply (forallb_weaken _ _ _ early_before_pass) in Hpre.
  rewrite E. unfold main_selected. rewrite bind_run.
  pose proof (main_target_calm d bs o s1) as Hc.
  assert (Ht : forallb before_pass (trace_of (main_target d bs o s1)) = true).
  { revert Hc. apply forallb_weaken. intros e He.
    apply andb_prop in He. destruct He as [He _]. unfold before_pass.
    rewrite (calm_no_deletion e He), (calm_no_offer e He). reflexivity. }
  destruct (result_of (main_target d bs o s1)) as [final|c].
  - rewrite bind_run.
    pose proof (confirmDisclaimer_quiet (state_of (main_target d bs o s1))) as Hq.
    assert (Hd : forallb before_pass
                   (trace_of (confirmDisclaimer (state_of (main_target d bs o s1))))
                 = true).
    { revert Hq. apply forallb_weaken. intros e He.
      apply andb_prop in He. destruct He as [He Ho].
      apply andb_prop in He. destruct He as [_ He].
      unfold before_pass. now rewrite He, Ho. }
    destruct (result_of (confirmDisclaimer _)) as [u|c].
    + right. rewrite !prepend_prepend. eexists _, o, final, _.
      split; [|reflexivity]. now rewrite !forallb_app, Hpre, Ht, Hd.
    + left. unfold prepend. cbn [trace_of fst].
      now rewrite !forallb_app, Hpre, Ht, Hd.
  - left. unfold prepend. cbn [trace_of fst]. now rewrite forallb_app, Hpre, Ht.
Qed.

Lemma occurrence_unique (p : event -> bool) (pre post pre' post' : trace)
  (e e' : event) :
  (pre ++ e :: post)%list = (pre' ++ e' :: post')%list ->
  p e = true ->
  forallb (fun x => negb (p x)) pre' = true ->
  forallb (fun x => negb (p x)) post' = true ->
  pre = pre' /\ e = e' /\ post = post'.
Proof.
  revert pre'. induction pre as [|a pre IH]; intros [|a' pre'] E He Hp Hq;
    cbn in E; injection E as E1 E2.
  - auto.
  - exfalso. cbn in Hp. subst a'. now rewrite He in Hp.
  - exfalso. subst post'. rewrite forallb_app in Hq. cbn in Hq.
    rewrite He in Hq. now rewrite andb_false_r in Hq.
  - cbn in Hp. apply andb_prop in Hp. destruct Hp as [_ Hp].
    destruct (IH pre' E2 He Hp Hq) as (-> & -> & ->). now subst a'.
Qed.

Lemma cut_short_last (t : trace) (e : event) :
  cut_short (t ++ [e])%list ->
  e = EvErrorObj "Error during branch deletion:" currentBranchError.
Proof.
  intros (pre & r & E & _).
  change (pre ++ [EvExec revParseCmd r;
                  EvErrorObj "Error during branch deletion:" currentBranchError])%list
    with (pre ++ [EvExec revParseCmd r] ++
          [EvErrorObj "Error during branch deletion:" currentBranchError])%list in E.
  rewrite app_assoc in E. apply app_inj_tail in E. now destruct E.
Qed.

Lemma offer_occurs (t pre post : trace) (q : schema) (r : error + string) :
  t = (pre ++ EvPrompt q r :: post)%list -> name q = "force" ->
  existsb is_force_offer t = true.
Proof.
  intros -> Hq. rewrite existsb_app. cbn. rewrite Hq. cbn.
  apply orb_true_r.
Qed.

Lemma no_offer_forallb (t : trace) :
  existsb is_force_offer t = false ->
  forallb (fun e => negb (is_force_offer e)) t = true.
Proof.
  induction t as [|e t IH]; [reflexivity|]. cbn. intros H.
  apply orb_false_elim in H. destruct H as [He Ht].
  now rewrite He, (IH Ht).
Qed.

(** The three kinds of runs: no safe deletion failed as not fully merged
    and there is no offer; the safe pass was cut short and there is no
    offer; or the offer was presented, once. *)
Lemma run_offer_cases (w : W) :
  let t := trace_of (run w) in
  (unmerged_in t = [] /\ existsb is_force_offer t = false) \/
  (existsb is_force_offer t = false /\ cut_short t /\
   result_of (run w) = Exit 1) \/
  (exists pre r post,
     t = (pre ++ EvPrompt forceSchema r :: post)%list /\
     forallb (fun e => negb (is_force_offer e)) pre = true /\
     forallb (fun e => negb (is_force_offer e)) post = true /\
     forallb (fun e => negb (is_forced_deletion e)) pre = true /\
     unmerged_in pre <> [] /\
     ~ cut_short t /\
     offer_outcome (run w) pre r post).
Proof.
  cbn zeta.
  destruct (run_pass_stage w) as [H|(pre & o & final & s & Hpre & E)].
  { left. split.
    - apply unmerged_in_none. revert H.
      apply forallb_weaken, before_pass_no_safe.
    - apply existsb_none. revert H.
      apply forallb_weaken, before_pass_no_offer. }
  assert (Hu : unmerged_in pre = []).
  { apply unmerged_in_none. revert Hpre.
    apply forallb_weaken, before_pass_no_safe. }
  assert (Ho : forallb (fun e => negb (is_force_offer e)) pre = true).
  { revert Hpre. apply forallb_weaken, before_pass_no_offer. }
  assert (Hf : forallb (fun e => negb (is_forced_deletion e)) pre = true).
  { revert Hpre. apply forallb_weaken, before_pass_not_forced. }
  pose proof (existsb_none _ _ Ho) as Ho'.
  destruct (Z.eqb o 1 || Z.eqb o 3) eqn:Ho13.
  - assert (Hopt : (o = 1 \/ o = 3)%Z).
    { apply orb_prop in Ho13. destruct Ho13 as [H|H]; apply Z.eqb_eq in H; auto. }
    rewrite (main_delete_safe o final s Hopt) in E. unfold safe_then_offer in E.
    destruct (deleteNext_engine_run false final [] s) as (out & Hout & Hrun).
    pose proof (engine_run_result false _ _ _ _ Hrun) as Hres.
    pose proof (engine_offers_nothing false final s) as Hno.
    pose proof (engine_safe_not_forced final [] s) as Hsafe.
    change (deleteNext false final [] s) with (deleteBranches final false s) in *.
    set (safe := deleteBranches final false s) in *.
    rewrite Hout in E.
    destruct out as [err|[|b fb]].
    + right. left. destruct Hres as (-> & t0 & r & Et & Hr & _).
      rewrite E. unfold prepend. cbn [trace_of result_of fst snd].
      split; [|split; [|reflexivity]].
      * rewrite !existsb_app, Ho', Hno. reflexivity.
      * exists (pre ++ t0)%list, r. split; [|exact Hr].
        rewrite Et, <- !app_assoc. reflexivity.
    + left. destruct Hres as (_ & _ & Hfb). cbn [app] in Hfb.
      rewrite E. unfold prepend. cbn [trace_of fst]. split.
      * rewrite !unmerged_in_app, Hu, <- Hfb. reflexivity.
      * rewrite !existsb_app, Ho', Hno. reflexivity.
    + right. right. destruct Hres as (_ & _ & Hfb). cbn [app] in Hfb.
      assert (Hun : unmerged_in (pre ++ trace_of safe)%list = b :: fb).
      { now rewrite unmerged_in_app, Hu, <- Hfb. }
      assert (Hpo : forallb (fun e => negb (is_force_offer e))
                      (pre ++ trace_of safe)%list = true).
      { rewrite forallb_app, Ho. now apply no_offer_forallb. }
      assert (Hpf : forallb (fun e => negb (is_forced_deletion e))
                      (pre ++ trace_of safe)%list = true).
      { now rewrite forallb_app, Hf, Hsafe. }
      destruct (prompt_get forceSchema (world (state_of safe)))
        as [[err|answer] w2].
      * assert (Et : trace_of (run w) =
                     ((pre ++ trace_of safe) ++
                      EvPrompt forceSchema (inl err) ::
                      [EvErrorObj "Prompt error:" err])%list).
        { rewrite E. unfold prepend. cbn [trace_of fst].
          now rewrite <- !app_assoc. }
        exists (pre ++ trace_of safe)%list, (inl err),
          [EvErrorObj "Prompt error:" err].
        split; [exact Et|]. split; [exact Hpo|]. split; [reflexivity|].
        split; [exact Hpf|]. split; [rewrite Hun; discriminate|]. split.
        -- rewrite Et. intros Hc.
           change (EvPrompt forceSchema (inl err) ::
                   [EvErrorObj "Prompt error:" err])%list
             with ([EvPrompt forceSchema (inl err)] ++
                   [EvErrorObj "Prompt error:" err])%list in Hc.
           rewrite app_assoc in Hc. apply cut_short_last in Hc.
           discriminate Hc.
        -- split; [reflexivity|]. now rewrite E.
      * destruct (saysYes answer) eqn:Hy.
        -- set (s2 := PState w2 (disclaimerConfirmed (state_of safe))) in *.
           set (x := deleteBranches (b :: fb) true s2) in *.
           assert (Et : trace_of (run w) =
                        ((pre ++ trace_of safe) ++
                         EvPrompt forceSchema (inr answer) ::
                         trace_of (forced_closing x))%list).
           { rewrite E. unfold prepend. cbn [trace_of fst].
             now rewrite <- !app_assoc. }
           assert (Er : result_of (run w) = result_of (forced_closing x))
             by now rewrite E.
           destruct (forced_closing_trace x) as (e & Ee & He1 & He2 & He3).
           { destruct (deleteNext_engine_run true (b :: fb) [] s2)
               as (out & Ho2 & _).
             now exists out. }
           exists (pre ++ trace_of safe)%list, (inr answer),
             (trace_of (forced_closing x)).
           split; [exact Et|]. split; [exact Hpo|]. split.
           { rewrite Ee, forallb_app. cbn [forallb]. rewrite He2.
             cbn [negb andb]. rewrite andb_true_r. apply no_offer_forallb.
             apply (engine_offers_nothing true (b :: fb) s2). }
           split; [exact Hpf|]. split; [rewrite Hun; discriminate|]. split.
           ++ rewrite Et, Ee. intros Hc.
              rewrite app_comm_cons, app_assoc in Hc.
              apply cut_short_last in Hc. now elim He3.
           ++ unfold offer_outcome. rewrite Hy, Hun. split.
              ** exists s2. split; [reflexivity | exact Er].
              ** intros e' Hin He'. rewrite Et in Hin.
                 apply in_app_or in Hin. destruct Hin as [Hin|[<-|Hin]].
                 --- exfalso. rewrite forallb_forall in Hpf. apply Hpf in Hin.
                     rewrite He' in Hin. discriminate Hin.
                 --- discriminate He'.
                 --- now apply (forced_pass_targets (b :: fb) s2).
        -- assert (Et : trace_of (run w) =
                        ((pre ++ trace_of safe) ++
                         EvPrompt forceSchema (inr answer) ::
                         [EvLog "Cleanup operation completed with safe deletion."])%list).
           { rewrite E. unfold prepend. cbn [trace_of fst].
             now rewrite <- !app_assoc. }
           exists (pre ++ trace_of safe)%list, (inr answer),
             [EvLog "Cleanup operation completed with safe deletion."].
           split; [exact Et|]. split; [exact Hpo|]. split; [reflexivity|].
           split; [exact Hpf|]. split; [rewrite Hun; discriminate|]. split.
           ++ rewrite Et. intros Hc.
              change (EvPrompt forceSchema (inr answer) ::
                      [EvLog "Cleanup operation completed with safe deletion."])%list
                with ([EvPrompt forceSchema (inr answer)] ++
                      [EvLog "Cleanup operation completed with safe deletion."])%list
                in Hc.
              rewrite app_assoc in Hc. apply cut_short_last in Hc.
              discriminate Hc.
           ++ unfold offer_outcome. rewrite Hy.
              split; [reflexivity|]. split; [now rewrite E|].
              rewrite Et, forallb_app, Hpf. reflexivity.
  - left. unfold main_delete in E. rewrite Ho13 in E.
    destruct (Z.eqb o 2).
    + rewrite forced_pass_run in E. rewrite E. unfold prepend.
      cbn [trace_of fst].
      destruct (forced_closing_trace (deleteBranches final true s))
        as (e & Ee & He1 & He2 & _).
      { destruct (deleteNext_engine_run true final [] s) as (out & Ho2 & _).
        now exists out. }
      split.
      * rewrite unmerged_in_app, Hu. cbn [app].
        apply unmerged_in_none. rewrite Ee, forallb_app, forced_pass_no_safe.
        cbn. now rewrite He1.
      * rewrite existsb_app, Ho', forced_closing_offers_nothing. reflexivity.
    + rewrite E. unfold prepend, ret. cbn [trace_of fst].
      rewrite app_nil_r. now split.
Qed.

(** C4, as the code has it.  The forced-retry offer is presented exactly
    when a safe deletion of the run failed as not fully merged and the safe
    pass was not cut short.  A safe pass that a failed reading of the
    current branch cuts short ends the run with status 1 and without the
    offer, whatever had failed before.  The offer comes once, after safe
    deletions only, and its names are those whose safe deletion failed as
    not fully merged.  On the answer yes (or y) the run goes on with the
    Deletion Engine in forced mode on exactly that list and ends as that
    pass ends, and every forced deletion of the run is the deletion of a
    name of the list; on another answer the run ends with status 0 and
    without any forced deletion subprocess. *)
Theorem forced_retry_offer (w : W) :
  let t := trace_of (run w) in
  (existsb is_force_offer t = true <->
   unmerged_in t <> [] /\ ~ cut_short t) /\
  (unmerged_in t <> [] -> existsb is_force_offer t = false ->
   cut_short t /\ result_of (run w) = Exit 1) /\
  (forall pre q r post,
     t = (pre ++ EvPrompt q r :: post)%list -> name q = "force" ->
     q = forceSchema /\
     unmerged_in pre <> [] /\
     forallb (fun e => negb (is_forced_deletion e)) pre = true /\
     existsb is_force_offer pre = false /\
     match r with
     | inl err =>
         post = [EvErrorObj "Prompt error:" err] /\ result_of (run w) = Exit 1
     | inr answer =>
         if saysYes answer then
           (exists s2,
              post = trace_of (forced_closing
                                 (deleteBranches (unmerged_in pre) true s2)) /\
              result_of (run w) =
                result_of (forced_closing
                             (deleteBranches (unmerged_in pre) true s2))) /\
           (forall e, In e t -> is_forced_deletion e = true ->
                      exists b d,
                        In b (unmerged_in pre) /\ e = EvExec (delCmd true b) d)
         else
           post = [EvLog "Cleanup operation completed with safe deletion."] /\
           result_of (run w) = Exit 0 /\
           forallb (fun e => negb (is_forced_deletion e)) t = true
     end).
Proof.
  intros t. subst t.
  destruct (run_offer_cases w)
    as [[Hu Ho]|[(Ho & Hc & Hr)|
                 (pre & r & post & E & Hpre & Hpost & Hf & Hu & Hc & Hout)]].
  - split; [|split].
    + rewrite Ho, Hu. split; [discriminate | intros [H _]; now elim H].
    + intros H. now elim H.
    + intros pre q r post E Hq. exfalso.
      rewrite (offer_occurs _ _ _ _ _ E Hq) in Ho. discriminate Ho.
  - split; [|split].
    + rewrite Ho. split; [discriminate | intros [_ H]; now elim H].
    + auto.
    + intros pre q r post E Hq. exfalso.
      rewrite (offer_occurs _ _ _ _ _ E Hq) in Ho. discriminate Ho.
  - assert (Hoff : existsb is_force_offer (trace_of (run w)) = true)
      by (apply (offer_occurs _ _ _ _ _ E); reflexivity).
    split; [|split].
    + rewrite Hoff. split; [intros _|reflexivity]. split; [|exact Hc].
      rewrite E, unmerged_in_app. intros H. apply app_eq_nil in H.
      now destruct H.
    + intros _ H. rewrite Hoff in H. discriminate H.
    + intros pre' q r' post' E' Hq. rewrite E in E'. symmetry in E'.
      destruct (occurrence_unique is_force_offer _ _ _ _ _ _ E')
        as (-> & Eq & ->); try assumption.
      { cbn. now rewrite Hq. }
      injection Eq as -> ->.
      split; [reflexivity|]. split; [exact Hu|]. split; [exact Hf|].
      split; [now apply existsb_none | exact Hout].
Qed.

End RunOffer.

(** C4, as the specification has it, fails: a safe pass can produce an
    outcome failed as unmerged and yet present no offer.  Here the safe
    deletion of [alpha] fails as not fully merged and is reported so, the
    reading of the current branch before [beta] fails, the engine calls
    back with the error and drops the list of the failed names, and the run
    ends with status 1. *)
Lemma forced_retry_offer_lost :
  let t := trace_of (run cut_short_session) in
  let d := ExecResult true "" "error: The branch 'alpha' is not fully merged." in
  skipn 19 t =
    [EvExec "git branch -d alpha" d;
     EvError "Unable to delete alpha as it is not fully merged.";
     EvExec revParseCmd (ExecResult true "" "fatal: not a git repository");
     EvErrorObj "Error during branch deletion:" currentBranchError] /\
  unmerged_in t = ["alpha"] /\
  forallb (fun e => negb (is_forced_deletion e)) t = true /\
  existsb is_force_offer t = false /\
  result_of (run cut_short_session) = Exit 1.
Proof. vm_compute. repeat split. Qed.

(** ** The Default Branch Resolver *)

Section Resolver.

Context {W : Type} {host : Host W}.

Lemma branchExists_run (b : string) (s : pstate W) :
  branchExists b s =
  let (r, w1) := child_exec (listCmd b) (world s) in
  ([EvExec (listCmd b) r], Ret (exists_of r), PState w1 (disclaimerConfirmed s)).
Proof.
  unfold branchExists, bind, exec, exists_of.
  destruct (child_exec (listCmd b) (world s)) as [r w1].
  now destruct (failed r).
Qed.

Lemma getDefaultMainBranch_run (s : pstate W) :
  getDefaultMainBranch s = getDefaultMainBranch_unfolded s.
Proof.
  unfold getDefaultMainBranch, getDefaultMainBranch_unfolded.
  unfold bind at 1. rewrite branchExists_run.
  destruct (child_exec (listCmd "main") (world s)) as [r1 w1].
  unfold bind at 1. rewrite branchExists_run. cbn [world disclaimerConfirmed].
  destruct (child_exec (listCmd "master") w1) as [r2 w2].
  destruct (exists_of r1), (exists_of r2); try reflexivity.
  cbn [andb]. unfold bind, prompt_start, prompt. cbn [world disclaimerConfirmed].
  now destruct (prompt_get defaultSchema w2) as [[err|answer] w3].
Qed.

Lemma matches_ci_lower (pat s : string) :
  matches_ci pat s = true -> toLowerCase s = toLowerCase pat.
Proof.
  revert s. induction pat as [|p pat IH]; intros [|c s]; cbn;
    try discriminate; [reflexivity|].
  intros H. apply andb_prop in H. destruct H as [Hc Hs].
  apply Ascii.eqb_eq in Hc. now rewrite Hc, (IH s Hs).
Qed.

End Resolver.

(** ** The head of [main] *)

Section Head.

Context {W : Type} {host : Host W}.

Lemma run_unfolded_eq (w : W) : run w = run_unfolded w.
Proof.
  unfold run, run_unfolded, main. unfold bind at 1.
  unfold isGitRepo, existsSync. cbn [world disclaimerConfirmed].
  destruct (fs_existsSync ".git" w) as [repo w0].
  destruct repo; [|reflexivity]. cbn [negb].
  unfold bind at 1.
  destruct (getDefaultMainBranch (PState w0 false)) as [[t [[err|d]|c]] s1];
    cbn [trace_of result_of state_of fst snd]; try reflexivity.
  unfold bind at 1. unfold getDetachedBranches, bind at 1, exec.
  destruct (child_exec listingCmd (world s1)) as [l w4].
  destruct (failed l); [cbn; now rewrite <- app_assoc|].
  cbn [ret app].
  destruct (Nat.eqb (length (parseDetachedBranches (stdout l))) 0);
    [cbn; now rewrite <- app_assoc|].
  unfold prepend.
  destruct (bind (main_menu d (parseDetachedBranches (stdout l))) _ _)
    as [[t2 r2] s2].
  cbn. now rewrite <- app_assoc.
Qed.

Lemma after_listing_resolved defaultMain branches :
  emits resolved
    (bind (@main_menu W host defaultMain branches)
       (fun option => main_selected defaultMain branches option)).
Proof.
  apply emits_bind; [apply main_menu_resolved | intros option].
  unfold main_selected. apply emits_bind; [|intros final; apply emits_bind].
  - generalize (@main_target_calm W host defaultMain branches option).
    apply emits_weaken. intros e. destruct (resolved e); [reflexivity|].
    now rewrite andb_false_r.
  - generalize (@confirmDisclaimer_quiet W host).
    apply emits_weaken. intros e.
    destruct (resolved e); [reflexivity|]. now rewrite !andb_false_r.
  - intros _. generalize (@main_delete_after_gate W host option final).
    apply emits_weaken. intros e. unfold after_gate.
    destruct (resolved e); [reflexivity|]. now rewrite !andb_false_r.
Qed.

End Head.

Section HeadClaims.

Context {W : Type} {host : Host W}.

(** The events of the resolver: the two existence queries, then the
    question about the default exactly when both branches exist. *)
Lemma resolver_trace (s : pstate W) :
  exists r1 r2 asked,
    trace_of (getDefaultMainBranch s) =
      EvExec (listCmd "main") r1 :: EvExec (listCmd "master") r2 :: asked /\
    (if exists_of r1 && exists_of r2
     then exists a,
            asked = [EvPromptStart; EvPrompt defaultSchema a] /\
            result_of (getDefaultMainBranch s) =
              Ret (match a with
                   | inl err => inl err
                   | inr answer => inr (Some (toLowerCase answer))
                   end)
     else asked = [] /\
          exists d, result_of (getDefaultMainBranch s) = Ret (inr d)).
Proof.
  rewrite getDefaultMainBranch_run. unfold getDefaultMainBranch_unfolded.
  destruct (child_exec (listCmd "main") (world s)) as [r1 w1].
  destruct (child_exec (listCmd "master") w1) as [r2 w2].
  exists r1, r2.
  destruct (exists_of r1 && exists_of r2).
  - destruct (prompt_get defaultSchema w2) as [a w3].
    exists [EvPromptStart; EvPrompt defaultSchema a].
    split; [reflexivity|]. now exists a.
  - exists []. split; [reflexivity|]. split; [reflexivity|].
    now eexists.
Qed.

Lemma resolver_counts (s : pstate W) :
  count (is_exists_query "main") (trace_of (getDefaultMainBranch s)) = 1 /\
  count (is_exists_query "master") (trace_of (getDefaultMainBranch s)) = 1 /\
  count is_default_prompt (trace_of (getDefaultMainBranch s)) <= 1.
Proof.
  destruct (resolver_trace s) as (r1 & r2 & asked & -> & Ha).
  destruct (exists_of r1 && exists_of r2).
  - destruct Ha as (a & -> & _). cbn. repeat split; lia.
  - destruct Ha as (-> & _). cbn. repeat split; lia.
Qed.

Lemma resolved_counts (t : trace) :
  forallb resolved t = true ->
  count (is_exists_query "main") t = 0 /\
  count (is_exists_query "master") t = 0 /\
  count is_default_prompt t = 0 /\
  count is_listing t = 0.
Proof.
  intros H. repeat split; apply (count_none _ resolved); try exact H;
    intros e; unfold resolved;
    destruct (is_listing e), (is_exists_query "main" e),
      (is_exists_query "master" e), (is_default_prompt e);
    cbn; congruence.
Qed.

(** C7. An existence check is one query [git branch --list <name>]; it
    answers with a boolean, false when the query fails, and never with an
    error.  The resolver issues the query for main, then for master; with
    both branches it asks, and the default is the answer in lower case (main
    or master for an answer that the pattern of the prompt accepts); with
    one branch the default is that branch; with none there is no default.
    A run that finds the repository issues each existence query exactly
    once, and asks about the default at most once. *)
Theorem resolver_policy (s : pstate W) :
  (forall b,
     let r := fst (child_exec (listCmd b) (world s)) in
     trace_of (branchExists b s) = [EvExec (listCmd b) r] /\
     result_of (branchExists b s) = Ret (exists_of r) /\
     (failed r = true -> exists_of r = false)) /\
  (exists r1 r2 asked,
     trace_of (getDefaultMainBranch s) =
       EvExec (listCmd "main") r1 :: EvExec (listCmd "master") r2 :: asked /\
     match exists_of r1, exists_of r2 with
     | true, true =>
         exists a,
           asked = [EvPromptStart; EvPrompt defaultSchema a] /\
           match a with
           | inl err => result_of (getDefaultMainBranch s) = Ret (inl err)
           | inr answer =>
               result_of (getDefaultMainBranch s) =
                 Ret (inr (Some (toLowerCase answer))) /\
               (accepts_default answer = true ->
                toLowerCase answer = "main" \/ toLowerCase answer = "master")
           end
     | true, false =>
         asked = [] /\
         result_of (getDefaultMainBranch s) = Ret (inr (Some "main"))
     | false, true =>
         asked = [] /\
         result_of (getDefaultMainBranch s) = Ret (inr (Some "master"))
     | false, false =>
         asked = [] /\ result_of (getDefaultMainBranch s) = Ret (inr None)
     end) /\
  (forall w : W,
     let n := if fst (fs_existsSync ".git" w) then 1 else 0 in
     count (is_exists_query "main") (trace_of (run w)) = n /\
     count (is_exists_query "master") (trace_of (run w)) = n /\
     count is_default_prompt (trace_of (run w)) <= 1).
Proof.
  split; [|split].
  - intros b r. subst r. rewrite branchExists_run.
    destruct (child_exec (listCmd b) (world s)) as [r w1]. cbn.
    repeat split. unfold exists_of. now intros ->.
  - rewrite getDefaultMainBranch_run. unfold getDefaultMainBranch_unfolded.
    destruct (child_exec (listCmd "main") (world s)) as [r1 w1].
    destruct (child_exec (listCmd "master") w1) as [r2 w2].
    exists r1, r2.
    destruct (exists_of r1), (exists_of r2); cbn [andb].
    + destruct (prompt_get defaultSchema w2) as [a w3].
      exists [EvPromptStart; EvPrompt defaultSchema a].
      split; [reflexivity|]. exists a. split; [reflexivity|].
      destruct a as [err|answer]; [reflexivity|]. split; [reflexivity|].
      unfold accepts_default. intros H. apply orb_prop in H.
      destruct H as [H|H]; apply matches_ci_lower in H; auto.
    + exists []. now repeat split.
    + exists []. now repeat split.
    + exists []. now repeat split.
  - intros w n. subst n. rewrite run_unfolded_eq. unfold run_unfolded.
    destruct (fs_existsSync ".git" w) as [repo w0]. cbn [fst].
    destruct repo; cbn [negb]; [|cbn; repeat split; lia].
    destruct (resolver_counts (PState w0 false)) as (H1 & H2 & H3).
    set (x := getDefaultMainBranch (PState w0 false)) in *.
    destruct (result_of x) as [[err|d]|c]; cbn [trace_of fst].
    + change (EvExists ".git" true :: ?t)%list with ([EvExists ".git" true] ++ t)%list.
      rewrite !count_app, H1, H2. cbn. repeat split; lia.
    + destruct (child_exec listingCmd (world (state_of x))) as [l w4].
      destruct (failed l);
        [|destruct (Nat.eqb (length (parseDetachedBranches (stdout l))) 0)].
      * cbn [trace_of fst].
        change (EvExists ".git" true :: ?t)%list
          with ([EvExists ".git" true] ++ t)%list.
        rewrite !count_app, H1, H2. cbn. repeat split; lia.
      * cbn [trace_of fst].
        change (EvExists ".git" true :: ?t)%list
          with ([EvExists ".git" true] ++ t)%list.
        rewrite !count_app, H1, H2. cbn. repeat split; lia.
      * unfold prepend. cbn [trace_of fst].
        change (EvExists ".git" true :: ?t)%list
          with ([EvExists ".git" true] ++ t)%list.
        destruct (resolved_counts _
                    (after_listing_resolved d (parseDetachedBranches (stdout l))
                       (PState w4 (disclaimerConfirmed (state_of x)))))
          as (E1 & E2 & E3 & _).
        rewrite !count_app, H1, H2, E1, E2, E3. cbn. repeat split; lia.
    + change (EvExists ".git" true :: ?t)%list with ([EvExists ".git" true] ++ t)%list.
      rewrite !count_app, H1, H2. cbn. repeat split; lia.
Qed.

End HeadClaims.

(** ** Runs that find no stale branch *)

Section NoStale.

Context {W : Type} {host : Host W}.

(** C8, as the code has it.  In a run whose listing succeeds and holds no
    stale branch, the process exits with status 0 and its only message is
    the one saying so.  The run is: the repository check, the existence
    queries for main and master (the resolution of the default comes
    first), the question about the default when and only when both exist,
    then the listing and the message.  No other prompt is issued. *)
Theorem no_stale_run (w : W) (r : exec_result) :
  In (EvExec listingCmd r) (trace_of (run w)) ->
  failed r = false ->
  parseDetachedBranches (stdout r) = [] ->
  result_of (run w) = Exit 0 /\
  exists r1 r2 asked,
    trace_of (run w) =
      (EvExists ".git" true :: EvExec (listCmd "main") r1 ::
       EvExec (listCmd "master") r2 ::
       asked ++ [EvExec listingCmd r; EvLog noneFound])%list /\
    (if exists_of r1 && exists_of r2
     then exists answer,
            asked = [EvPromptStart; EvPrompt defaultSchema (inr answer)]
     else asked = []).
Proof.
  rewrite run_unfolded_eq. unfold run_unfolded.
  destruct (fs_existsSync ".git" w) as [repo w0].
  destruct repo; cbn [negb].
  2:{ intros [E|[E|[]]]; discriminate E. }
  destruct (resolver_trace (PState w0 false)) as (r1 & r2 & asked & Ht & Ha).
  set (x := getDefaultMainBranch (PState w0 false)) in *.
  assert (Hx : ~ In (EvExec listingCmd r) (trace_of x)).
  { rewrite Ht. intros [E|[E|H]]; try discriminate E.
    destruct (exists_of r1 && exists_of r2).
    - destruct Ha as (a & -> & _). destruct H as [E|[E|[]]]; discriminate E.
    - destruct Ha as (-> & _). destruct H. }
  destruct (result_of x) as [[err|d]|c] eqn:Hr; cbn [trace_of result_of fst snd].
  - intros [E|H]; [discriminate E|]. apply in_app_or in H.
    destruct H as [H|[E|[]]]; [now elim Hx | discriminate E].
  - destruct (child_exec listingCmd (world (state_of x))) as [l w4].
    destruct (failed l) eqn:Hl;
      [|destruct (Nat.eqb (length (parseDetachedBranches (stdout l))) 0) eqn:Hn];
      cbn [trace_of result_of fst snd].
    + intros [E|H]; [discriminate E|]. rewrite <- app_assoc in H.
      apply in_app_or in H. destruct H as [H|[E|[E|[]]]];
        [now elim Hx | | discriminate E].
      injection E as <-. congruence.
    + intros [E|H] Hf Hp; [discriminate E|]. rewrite <- app_assoc in H.
      apply in_app_or in H. destruct H as [H|[E|[E|[]]]];
        [now elim Hx | | discriminate E].
      injection E as <-. split; [reflexivity|].
      exists r1, r2, asked. rewrite Ht. split.
      * cbn. now rewrite <- app_assoc.
      * destruct (exists_of r1 && exists_of r2); [|now destruct Ha].
        destruct Ha as (a & -> & Ha).
        destruct a as [err|answer]; [discriminate Ha|]. now exists answer.
    + intros H Hf Hp. exfalso. unfold prepend in H. cbn [trace_of fst] in H.
      destruct H as [E|H]; [discriminate E|].
      rewrite <- app_assoc in H. apply in_app_or in H.
      destruct H as [H|[E|H]]; [now elim Hx| |].
      * injection E as <-. rewrite Hp in Hn. discriminate Hn.
      * pose proof (after_listing_resolved d (parseDetachedBranches (stdout l))
                      (PState w4 (disclaimerConfirmed (state_of x)))) as Hres.
        rewrite forallb_forall in Hres. apply Hres in H. discriminate H.
  - intros [E|H]; [discriminate E | now elim Hx].
Qed.

End NoStale.

(** C8, as the specification has it, fails: with both main and master the
    run asks about the default before it lists, so a run that finds no
    stale branch has issued a prompt, and the listing came after the
    resolution of the default. *)
Lemma no_stale_run_prompts :
  exists r,
    In (EvExec listingCmd r) (trace_of (run both_defaults_no_stale)) /\
    failed r = false /\
    parseDetachedBranches (stdout r) = [] /\
    result_of (run both_defaults_no_stale) = Exit 0 /\
    existsb is_prompt (trace_of (run both_defaults_no_stale)) = true /\
    nth_error (trace_of (run both_defaults_no_stale)) 1 =
      Some (EvExec (listCmd "main") (ExecResult false "  main" "")) /\
    nth_error (trace_of (run both_defaults_no_stale)) 4 =
      Some (EvPrompt defaultSchema (inr "main")) /\
    nth_error (trace_of (run both_defaults_no_stale)) 5 =
      Some (EvExec listingCmd r).
Proof.
  exists (ExecResult false
            ("* main   1a2b3c4 [origin/main] one" ++ String "010" "" ++
             "  master 5d6e7f8 [origin/master] two") "").
  repeat split; try (vm_compute; reflexivity).
  vm_compute. tauto.
Qed.

(** ** Strings, continued *)

Section StringFacts.

Lemma append_assoc (a b c : string) : (a ++ b) ++ c = a ++ b ++ c.
Proof. induction a as [|x a IH]; simpl; [reflexivity | now rewrite IH]. Qed.

Lemma append_nil_r (a : string) : a ++ "" = a.
Proof. induction a as [|x a IH]; simpl; [reflexivity | now rewrite IH]. Qed.

Lemma span_fst_all (p : ascii -> bool) (s : string) :
  all_in p (fst (Grammar.span p s)) = true.
Proof.
  induction s as [|a s IH]; simpl; [reflexivity|].
  destruct (p a) eqn:Ha; [|reflexivity].
  destruct (Grammar.span p s) as [run tl]. simpl in *. now rewrite Ha.
Qed.

(** A run in the class followed by something that starts outside it. *)
Lemma span_app (p : ascii -> bool) (a b : string) :
  all_in p a = true -> starts_outside p b = true ->
  Grammar.span p (a ++ b) = (a, b).
Proof.
  intros Ha Hb. induction a as [|x a IH]; simpl in *.
  - destruct b as [|y b]; [reflexivity|]. simpl in Hb. simpl.
    now destruct (p y).
  - apply andb_prop in Ha. destruct Ha as [Hx Ha].
    now rewrite Hx, (IH Ha).
Qed.

Lemma starts_outside_app (p q : ascii -> bool) (a b : string) :
  a <> "" -> all_in q a = true ->
  (forall c, q c = true -> p c = false) ->
  starts_outside p (a ++ b) = true.
Proof.
  intros Hne Ha Hq. destruct a as [|x a]; [now elim Hne|].
  simpl in *. apply andb_prop in Ha. destruct Ha as [Hx _].
  now rewrite (Hq x Hx).
Qed.

Lemma trimStart_app_spaces (l s : string) :
  all_in is_space l = true -> trimStart (l ++ s) = trimStart s.
Proof.
  induction l as [|x l IH]; simpl; [reflexivity|]. intros H.
  apply andb_prop in H. destruct H as [Hx Hl]. now rewrite Hx, IH.
Qed.

Lemma trimStart_fixed (s : string) :
  starts_outside is_space s = true -> trimStart s = s.
Proof. destruct s as [|x s]; simpl; [reflexivity|]. now destruct (is_space x). Qed.

Lemma trimStart_split (s : string) :
  exists l, s = l ++ trimStart s /\ all_in is_space l = true /\
            starts_outside is_space (trimStart s) = true.
Proof.
  induction s as [|x s (l & E & Hl & Hs)]; simpl.
  - now exists "".
  - destruct (is_space x) eqn:Hx.
    + exists (String x l). simpl. rewrite Hx. now rewrite <- E.
    + exists "". simpl. now rewrite Hx.
Qed.

Lemma trimEnd_app_spaces (s r : string) :
  all_in is_space r = true -> trimEnd (s ++ r) = trimEnd s.
Proof.
  intros Hr. induction s as [|x s IH]; simpl.
  - induction r as [|y r IHr]; simpl in *; [reflexivity|].
    apply andb_prop in Hr. destruct Hr as [Hy Hr]. now rewrite (IHr Hr), Hy.
  - now rewrite IH.
Qed.

Lemma trimEnd_split (s : string) :
  exists r, s = trimEnd s ++ r /\ all_in is_space r = true.
Proof.
  induction s as [|x s (r & E & Hr)]; simpl.
  - now exists "".
  - destruct (is_space x && (trimEnd s =? "")) eqn:Hx.
    + apply andb_prop in Hx. destruct Hx as [Hx Ht].
      apply String.eqb_eq in Ht. rewrite Ht in E. simpl in E.
      subst r. exists (String x s). simpl. now rewrite Hx.
    + exists r. simpl. now rewrite <- E.
Qed.

Lemma trimEnd_idempotent (s : string) : trimEnd (trimEnd s) = trimEnd s.
Proof.
  induction s as [|x s IH]; simpl; [reflexivity|].
  destruct (is_space x && (trimEnd s =? "")) eqn:Hx; [reflexivity|].
  simpl. now rewrite IH, Hx.
Qed.

Lemma trimEnd_starts (s : string) :
  starts_outside is_space s = true ->
  starts_outside is_space (trimEnd s) = true.
Proof.
  destruct s as [|x s]; simpl; [reflexivity|].
  destruct (is_space x) eqn:Hx; [discriminate|]. intros _. simpl.
  now rewrite Hx.
Qed.

Lemma trim_fixed (s : string) : trim (trim s) = trim s.
Proof.
  unfold trim. destruct (trimStart_split s) as (l & _ & _ & Hs).
  rewrite (trimStart_fixed (trimEnd (trimStart s))) by now apply trimEnd_starts.
  apply trimEnd_idempotent.
Qed.

(** What [trim] gives is the input without white space at its two ends. *)
Lemma trim_split (s : string) :
  exists l r, s = l ++ trim s ++ r /\
              all_in is_space l = true /\ all_in is_space r = true.
Proof.
  unfold trim. destruct (trimStart_split s) as (l & E & Hl & _).
  destruct (trimEnd_split (trimStart s)) as (r & E' & Hr).
  exists l, r. now rewrite <- E', <- E.
Qed.

(** A token with white space around it trims to the token. *)
Lemma trim_token (l n r : string) :
  all_in is_space l = true -> all_in is_space r = true ->
  n <> "" -> all_in non_space n = true ->
  trim (l ++ n ++ r) = n.
Proof.
  intros Hl Hr Hne Hn. unfold trim. rewrite trimStart_app_spaces by exact Hl.
  rewrite trimStart_fixed.
  2:{ apply (starts_outside_app _ non_space); try assumption.
      intros c. unfold non_space. now destruct (is_space c). }
  rewrite trimEnd_app_spaces by exact Hr.
  clear Hne. induction n as [|x n IH]; simpl in *; [reflexivity|].
  apply andb_prop in Hn. destruct Hn as [Hx Hn]. rewrite (IH Hn).
  unfold non_space in Hx. now destruct (is_space x).
Qed.

End StringFacts.

(** ** The Branch Lister, continued *)

Section ListerFacts.

Import Grammar.

Lemma split_app (sep : ascii) (a b : string) :
  split sep (a ++ String sep b) = (split sep a ++ split sep b)%list.
Proof.
  unfold split. induction a as [|c a IH]; simpl.
  - rewrite Ascii.eqb_refl. now destruct (split_ne sep b).
  - destruct (split_ne sep (a ++ String sep b)) as [l ls].
    destruct (split_ne sep a) as [l' ls'].
    destruct (split_ne sep b) as [m ms]. simpl in IH. injection IH as -> ->.
    now destruct (Ascii.eqb c sep).
Qed.

(** The first piece of a split is a prefix of the string. *)
Lemma split_head (sep : ascii) (s : string) :
  exists post, s = fst (split_ne sep s) ++ post.
Proof.
  induction s as [|c s [post E]]; simpl.
  - now exists "".
  - destruct (split_ne sep s) as [l ls]. simpl in E.
    destruct (Ascii.eqb c sep); simpl.
    + now exists (String c s).
    + exists post. now rewrite <- E.
Qed.

(** Every piece of a split occurs in the string. *)
Lemma split_occurs (sep : ascii) (s line : string) :
  In line (split sep s) -> exists pre post, s = pre ++ line ++ post.
Proof.
  unfold split. revert line. induction s as [|c s IH]; intros line; simpl.
  - intros [<-|[]]. now exists "", "".
  - pose proof (split_head sep s) as [post Eh].
    destruct (split_ne sep s) as [l ls]. simpl in Eh.
    destruct (Ascii.eqb c sep).
    + intros [<-|H].
      * now exists "", (String c s).
      * destruct (IH line H) as (pre & post' & ->).
        now exists (String c pre), post'.
    + intros [<-|H].
      * exists "", post. simpl. now rewrite <- Eh.
      * destruct (IH line (or_intror H)) as (pre & post' & ->).
        now exists (String c pre), post'.
Qed.

Lemma tokens_name (s n : string) (blk : option string) :
  tokens s = Some (n, blk) ->
  n <> "" /\ all_in non_space n = true /\
  exists pre post, s = pre ++ n ++ post.
Proof.
  unfold tokens.
  pose proof (span_append is_space s) as E1.
  destruct (span is_space s) as [ws s1]. simpl in E1.
  pose proof (span_append non_space s1) as E2.
  pose proof (span_fst_all non_space s1) as Hn.
  destruct (span non_space s1) as [nm s2]. simpl in E2, Hn.
  destruct nm as [|n0 nm]; [discriminate|].
  repeat match goal with
         | |- context [match ?x with _ => _ end] => destruct x; try discriminate
         end.
  intros [= <- _]. split; [discriminate|]. split; [exact Hn|].
  exists ws, s2. now rewrite E2.
Qed.

Lemma tokenize_line_name (line n : string) (blk : option string) :
  tokenize_line line = Some (n, blk) ->
  n <> "" /\ all_in non_space n = true /\
  exists pre post, line = pre ++ n ++ post.
Proof.
  unfold tokenize_line. destruct line as [|a s]; [apply tokens_name|].
  destruct (Ascii.eqb a "*"); [|apply tokens_name].
  destruct (tokens s) as [r|] eqn:Es; [|apply tokens_name].
  intros [= ->]. apply tokens_name in Es.
  destruct Es as (H1 & H2 & pre & post & ->).
  repeat split; try assumption. now exists (String a pre), post.
Qed.

Lemma stale_of_line_name (line n : string) :
  In n (stale_of_line line) ->
  n <> "" /\ all_in non_space n = true /\
  exists pre post, line = pre ++ n ++ post.
Proof.
  rewrite stale_of_line_grammar. unfold stale_names.
  destruct (tokenize_line line) as [[nm [blk|]]|] eqn:E.
  - destruct (includes "gone" blk); [|intros []].
    intros [<-|[]]. now apply tokenize_line_name in E.
  - intros [<-|[]]. now apply tokenize_line_name in E.
  - intros [].
Qed.

Lemma stale_of_line_short (line : string) : length (stale_of_line line) <= 1.
Proof.
  rewrite stale_of_line_grammar. unfold stale_names.
  destruct (tokenize_line line) as [[nm [blk|]]|]; simpl; try lia.
  destruct (includes "gone" blk); simpl; lia.
Qed.

(** X1. The listing is read line by line: what the lister finds in two
    outputs put one after the other, with a line feed between them, is what
    it finds in the first followed by what it finds in the second.  So the
    names come in the order of their lines, and no line changes the reading
    of another. *)
Theorem lister_reads_line_by_line (out1 out2 : string) :
  parseDetachedBranches (out1 ++ String "010" out2) =
  (parseDetachedBranches out1 ++ parseDetachedBranches out2)%list.
Proof.
  unfold parseDetachedBranches. now rewrite split_app, flat_map_app.
Qed.

(** X2. Every name the lister gives is a token of the output: it is not
    empty, holds no white space, and occurs in the output as it stands.  A
    line gives at most one name. *)
Theorem lister_names_are_tokens (out : string) :
  (forall n,
     In n (parseDetachedBranches out) ->
     n <> "" /\ all_in non_space n = true /\
     exists pre post, out = pre ++ n ++ post) /\
  length (parseDetachedBranches out) <= length (split "010" out).
Proof.
  unfold parseDetachedBranches. split.
  - intros n H. apply in_flat_map in H. destruct H as (line & Hl & Hn).
    apply stale_of_line_name in Hn. destruct Hn as (H1 & H2 & pre & post & ->).
    repeat split; try assumption.
    apply split_occurs in Hl. destruct Hl as (pre' & post' & ->).
    exists (pre' ++ pre), (post ++ post').
    now rewrite !append_assoc.
  - induction (split "010" out) as [|l ls IH]; simpl; [lia|].
    rewrite length_app. pose proof (stale_of_line_short l). lia.
Qed.

Lemma tokens_formatted (name ws1 hash ws2 tl : string) :
  name <> "" -> all_in non_space name = true ->
  ws1 <> "" -> all_in is_space ws1 = true ->
  hash <> "" -> all_in is_hex hash = true ->
  ws2 <> "" -> all_in is_space ws2 = true ->
  starts_outside is_space tl = true ->
  tokens (" " ++ name ++ ws1 ++ hash ++ ws2 ++ tl) =
  Some (name, bracket_block tl).
Proof.
  intros Hn1 Hn2 Hw1 Hw2 Hh1 Hh2 Hv1 Hv2 Htl. unfold tokens.
  rewrite (span_app is_space " ") by
    (try reflexivity;
     apply (starts_outside_app _ non_space); try assumption;
     intros c; unfold non_space; now destruct (is_space c)).
  rewrite (span_app non_space name) by
    (try assumption;
     apply (starts_outside_app _ is_space); try assumption;
     intros c Hc; unfold non_space; now rewrite Hc).
  destruct name as [|n0 name]; [now elim Hn1|].
  rewrite (span_app is_space ws1) by
    (try assumption;
     apply (starts_outside_app _ is_hex); try assumption;
     apply hex_not_space).
  destruct ws1 as [|w0 ws1]; [now elim Hw1|].
  rewrite (span_app is_hex hash) by
    (try assumption;
     apply (starts_outside_app _ is_space); try assumption;
     apply space_not_hex).
  destruct hash as [|h0 hash]; [now elim Hh1|].
  rewrite (span_app is_space ws2) by assumption.
  destruct ws2 as [|v0 ws2]; [now elim Hv1|]. reflexivity.
Qed.

Lemma bracket_block_formatted (t subject : string) :
  t <> "" -> all_in (not_char "]") t = true ->
  bracket_block ("[" ++ t ++ "]" ++ subject) = Some t.
Proof.
  intros Ht1 Ht2. unfold bracket_block. simpl.
  rewrite (span_app (not_char "]") t) by (try assumption; reflexivity).
  now destruct t as [|t0 t]; [elim Ht1|].
Qed.

Lemma bracket_block_none (subject : string) :
  starts_outside (fun c => is_space c || is_char "[" c) subject = true ->
  bracket_block subject = None.
Proof.
  destruct subject as [|c s]; [reflexivity|]. simpl. unfold is_char.
  destruct (Ascii.eqb c "["); [|reflexivity].
  now rewrite orb_true_r.
Qed.

(** X3. A line as git prints it is read back to its parts: the two leading
    columns (with or without the marker of the current branch), a name
    without white space, white space, a hexadecimal commit id, white space,
    and then either a bracketed block or a subject that starts with neither
    white space nor a bracket.  The pattern captures the name and the block
    as they were written, and the line gives the name as stale exactly when
    there is no block or the block contains [gone]. *)
Theorem listing_line_round_trip (current : bool)
  (name ws1 hash ws2 subject : string) (block : option string) :
  name <> "" -> all_in non_space name = true ->
  ws1 <> "" -> all_in is_space ws1 = true ->
  hash <> "" -> all_in is_hex hash = true ->
  ws2 <> "" -> all_in is_space ws2 = true ->
  match block with
  | Some t => t <> "" /\ all_in (not_char "]") t = true
  | None =>
      starts_outside (fun c => is_space c || is_char "[" c) subject = true
  end ->
  let line :=
    lead current ++ name ++ ws1 ++ hash ++ ws2 ++
    match block with
    | Some t => "[" ++ t ++ "]" ++ subject
    | None => subject
    end in
  match_line line = Some (Some name, block) /\
  stale_of_line line =
    match block with
    | Some t => if includes "gone" t then [name] else []
    | None => [name]
    end.
Proof.
  intros Hn1 Hn2 Hw1 Hw2 Hh1 Hh2 Hv1 Hv2 Hb line.
  set (tl := match block with
             | Some t => "[" ++ t ++ "]" ++ subject
             | None => subject
             end) in *.
  assert (Htl : starts_outside is_space tl = true).
  { subst tl. destruct block as [t|]; [reflexivity|].
    destruct subject as [|c s]; [reflexivity|]. simpl in *.
    now destruct (is_space c). }
  assert (Hblk : bracket_block tl = block).
  { subst tl. destruct block as [t|].
    - destruct Hb. now apply bracket_block_formatted.
    - now apply bracket_block_none. }
  assert (Htok : tokenize_line line = Some (name, block)).
  { pose proof (tokens_formatted name ws1 hash ws2 tl
                  Hn1 Hn2 Hw1 Hw2 Hh1 Hh2 Hv1 Hv2 Htl) as E.
    rewrite Hblk in E. subst line. destruct current.
    - change (lead true ++ ?s) with (String "*" (" " ++ s)).
      unfold tokenize_line. cbn [Ascii.eqb Bool.eqb]. now rewrite E.
    - change (lead false ++ ?s) with (String " " (" " ++ s)).
      unfold tokenize_line. cbn [Ascii.eqb Bool.eqb].
      change (String " " (" " ++ ?s)) with (" " ++ (" " ++ s)).
      revert E. unfold tokens.
      rewrite (span_app is_space " ") by
        (try reflexivity;
         apply (starts_outside_app _ non_space); try assumption;
         intros c; unfold non_space; now destruct (is_space c)).
      change (" " ++ " " ++ ?s) with ("  " ++ s).
      rewrite (span_app is_space "  ") by
        (try reflexivity;
         apply (starts_outside_app _ non_space); try assumption;
         intros c; unfold non_space; now destruct (is_space c)).
      auto. }
  rewrite stale_of_line_grammar, match_line_tokenize. unfold stale_names.
  rewrite Htok. split; [reflexivity|]. now destruct block.
Qed.

End ListerFacts.

(** ** The reading of the current branch *)

Section CurrentBranch.

Context {W : Type} {host : Host W}.

Lemma getCurrentBranch_run (s : pstate W) :
  getCurrentBranch s =
  let (r, w1) := child_exec revParseCmd (world s) in
  ([EvExec revParseCmd r],
   Ret (if failed r then inl currentBranchError else inr (trim (stdout r))),
   PState w1 (disclaimerConfirmed s)).
Proof.
  unfold getCurrentBranch, bind, exec.
  destruct (child_exec revParseCmd (world s)) as [r w1].
  destruct (failed r); reflexivity.
Qed.

(** X4. [getCurrentBranch] runs one subprocess and calls back with the
    fixed error when it fails, and otherwise with its output trimmed.  The
    name it gives has no white space left at its ends, and a token (a name
    without white space, as the lister gives them) is that name exactly
    when git printed the token with nothing but white space around it. *)
Theorem current_branch_is_trimmed (s : pstate W) :
  let r := fst (child_exec revParseCmd (world s)) in
  trace_of (getCurrentBranch s) = [EvExec revParseCmd r] /\
  result_of (getCurrentBranch s) =
    Ret (if failed r then inl currentBranchError
         else inr (trim (stdout r))) /\
  trim (trim (stdout r)) = trim (stdout r) /\
  (forall name,
     name <> "" -> all_in non_space name = true ->
     (name = trim (stdout r) <->
      exists l r', stdout r = l ++ name ++ r' /\
                   all_in is_space l = true /\ all_in is_space r' = true)).
Proof.
  intros r. subst r. rewrite getCurrentBranch_run.
  destruct (child_exec revParseCmd (world s)) as [r w1]. cbn [fst trace_of result_of].
  repeat split.
  - apply trim_fixed.
  - intros ->. apply trim_split.
  - intros (l & r' & -> & Hl & Hr). symmetry. now apply trim_token.
Qed.

End CurrentBranch.

(** ** The Deletion Engine, continued *)

Section EngineFacts.

Lemma count_cons (p : event -> bool) (e : event) (t : trace) :
  count p (e :: t) = (if p e then 1 else 0) + count p t.
Proof. unfold count. cbn. now destruct (p e). Qed.

Lemma deletion_targets_step (forced : bool) (r d : exec_result) (b : string)
  (report : event) (t : trace) :
  (forall cmd x, report <> EvExec cmd x) ->
  deletion_targets
    (EvExec revParseCmd r :: EvExec (delCmd forced b) d :: report :: t) =
  b :: deletion_targets t.
Proof.
  intros Hrep. unfold deletion_targets. cbn [flat_map].
  change (is_deletion_cmd revParseCmd) with false.
  rewrite delCmd_is_deletion, deletion_target_delCmd. cbn [app].
  destruct report; try reflexivity. now elim (Hrep cmd r0).
Qed.

Lemma subseq_nil_l (l : list string) : subseq [] l.
Proof. induction l; now constructor. Qed.

Lemma subseq_refl (l : list string) : subseq l l.
Proof. induction l; now constructor. Qed.

Lemma subseq_app (l1 l2 m1 m2 : list string) :
  subseq l1 m1 -> subseq l2 m2 -> subseq (l1 ++ l2) (m1 ++ m2).
Proof.
  induction 1; intros H2; cbn; try (constructor; now auto). exact H2.
Qed.

Lemma subseq_incl (l m : list string) : subseq l m -> incl l m.
Proof.
  induction 1 as [|b l m _ IH|b l m _ IH]; intros x Hx.
  - exact Hx.
  - right. now apply IH.
  - destruct Hx as [<-|Hx]; [now left | right; now apply IH].
Qed.

(** The names that failed as unmerged are among the names of the deletion
    subprocesses, in the same order. *)
Lemma unmerged_among_targets (t : trace) :
  subseq (unmerged_in t) (deletion_targets t).
Proof.
  induction t as [|e t IH]; [constructor|].
  change (unmerged_in (e :: t))
    with ((match e with
           | EvExec cmd d =>
               if prefix "git branch -d " cmd && failed d &&
                  includes "not fully merged" (stderr d)
               then [deletion_target cmd] else []
           | _ => []
           end) ++ unmerged_in t)%list.
  change (deletion_targets (e :: t))
    with ((match e with
           | EvExec cmd _ =>
               if is_deletion_cmd cmd then [deletion_target cmd] else []
           | _ => []
           end) ++ deletion_targets t)%list.
  apply subseq_app; [|exact IH].
  destruct e as [| cmd d | | | | | |]; try apply subseq_nil.
  unfold is_deletion_cmd.
  destruct (prefix "git branch -d " cmd); cbn [andb orb].
  - destruct (failed d && includes "not fully merged" (stderr d));
      [apply subseq_refl | apply subseq_nil_l].
  - apply subseq_nil_l.
Qed.

Lemma is_skip_skipping (b : string) :
  is_skip (EvLog ("Skipping current branch: " ++ b)) = true.
Proof. apply (prefix_append "Skipping current branch: "). Qed.

Variable forced : bool.

(** One deletion subprocess or one skip for each name, and one message. *)
Lemma engine_run_accounts bs failed0 t out :
  engine_run forced bs failed0 t out ->
  count is_deletion t + count is_skip t <= length bs /\
  (forall fb, out = inr fb ->
     count is_deletion t + count is_skip t = length bs /\
     count is_message t = length bs).
Proof.
  induction 1 as [ f0 | b bs f0 r Hr | b bs f0 r t out Hr Hb _ [IH1 IH2]
                 | b bs f0 r d t out Hr Hb Hd _ [IH1 IH2]
                 | b bs f0 r d t out Hr Hb Hd Hf Hi _ [IH1 IH2]
                 | b bs f0 r d t out Hr Hb Hd Hu _ [IH1 IH2] ];
    rewrite ?count_cons; cbn [is_deletion is_message length];
    rewrite ?is_skip_skipping, ?delCmd_is_deletion;
    change (is_deletion_cmd revParseCmd) with false;
    cbn [is_skip].
  - cbn. split; [lia|]. intros fb _. split; reflexivity.
  - cbn. split; [lia | discriminate].
  - split; [lia|]. intros fb E. destruct (IH2 fb E). lia.
  - change (prefix _ ("Deleted branch " ++ b)) with false.
    split; [lia|]. intros fb E. destruct (IH2 fb E). lia.
  - split; [lia|]. intros fb E. destruct (IH2 fb E). lia.
  - split; [lia|]. intros fb E. destruct (IH2 fb E). lia.
Qed.

(** The deletion subprocesses follow the order of the batch. *)
Lemma engine_run_order bs failed0 t out :
  engine_run forced bs failed0 t out -> subseq (deletion_targets t) bs.
Proof.
  induction 1 as [ f0 | b bs f0 r Hr | b bs f0 r t out Hr Hb _ IH
                 | b bs f0 r d t out Hr Hb Hd _ IH
                 | b bs f0 r d t out Hr Hb Hd Hf Hi _ IH
                 | b bs f0 r d t out Hr Hb Hd Hu _ IH ];
    rewrite ?deletion_targets_step by discriminate;
    first [apply subseq_nil_l | now constructor].
Qed.

(** A forced pass records no failure. *)
Lemma engine_run_forced_none bs failed0 t out :
  engine_run forced bs failed0 t out ->
  forced = true -> forall fb, out = inr fb -> fb = failed0.
Proof.
  induction 1; intros Hf fb E; try (now apply IHengine_run);
    congruence.
Qed.

End EngineFacts.

Section EngineFactsClaims.

Context {W : Type} {host : Host W}.

(** X5. The Deletion Engine accounts for every name of its batch: for
    each name it either skips it or issues one deletion subprocess, so the
    two together never outnumber the names; and when it calls back with a
    list it has done one or the other for every name, and printed exactly
    one message for each. *)
Theorem engine_accounts_for_every_name (branches : list string)
  (forced : bool) (s : pstate W) :
  let t := trace_of (deleteBranches branches forced s) in
  count is_deletion t + count is_skip t <= length branches /\
  (forall fb,
     result_of (deleteBranches branches forced s) = Ret (inr fb) ->
     count is_deletion t + count is_skip t = length branches /\
     count is_message t = length branches).
Proof.
  intros t. subst t. unfold deleteBranches.
  destruct (deleteNext_engine_run forced branches [] s) as (out & Ho & Hrun).
  destruct (engine_run_accounts forced _ _ _ _ Hrun) as [H1 H2].
  split; [exact H1|]. intros fb E. rewrite Ho in E. injection E as ->.
  exact (H2 fb eq_refl).
Qed.

(** X6. The Deletion Engine keeps the order of its batch: the names of
    its deletion subprocesses, in the order they were issued, are the batch
    with some names left out.  The list it calls back with is made, in the
    same order, of names it issued a deletion for, and is empty after a
    forced pass. *)
Theorem engine_keeps_batch_order (branches : list string) (forced : bool)
  (s : pstate W) :
  let x := deleteBranches branches forced s in
  subseq (deletion_targets (trace_of x)) branches /\
  (forall fb,
     result_of x = Ret (inr fb) ->
     subseq fb (deletion_targets (trace_of x)) /\
     (forced = true -> fb = [])).
Proof.
  intros x. subst x. unfold deleteBranches.
  destruct (deleteNext_engine_run forced branches [] s) as (out & Ho & Hrun).
  split; [exact (engine_run_order forced _ _ _ _ Hrun)|].
  intros fb E. rewrite Ho in E. injection E as ->. split.
  - destruct (engine_run_result forced _ _ _ _ Hrun) as (_ & _ & ->).
    apply unmerged_among_targets.
  - intros Hf. exact (engine_run_forced_none forced _ _ _ _ Hrun Hf fb eq_refl).
Qed.

(** X7. The disclaimer is shown once per execution: with the flag set,
    [confirmDisclaimer] calls back at once and does nothing else; it calls
    back only with the flag set, so a call that follows one that called
    back is silent; and when it ends the process instead, the flag is still
    unset and the status is 0 (the user declined) or 1 (the prompt
    failed). *)
Theorem disclaimer_once_per_execution (s : pstate W) :
  let x := confirmDisclaimer s in
  (disclaimerConfirmed s = true -> x = ([], Ret tt, s)) /\
  (forall u,
     result_of x = Ret u ->
     disclaimerConfirmed (state_of x) = true /\
     confirmDisclaimer (state_of x) = ([], Ret tt, state_of x)) /\
  (forall c,
     result_of x = Exit c ->
     disclaimerConfirmed s = false /\
     disclaimerConfirmed (state_of x) = false /\
     (c = 0 \/ c = 1)%Z).
Proof.
  intros x. subst x.
  assert (Hset : forall s' : pstate W, disclaimerConfirmed s' = true ->
                   confirmDisclaimer s' = ([], Ret tt, s')).
  { intros s' Hs'. unfold confirmDisclaimer, bind at 1, get_disclaimerConfirmed.
    now rewrite Hs'. }
  split; [apply Hset|].
  destruct (disclaimerConfirmed s) eqn:Hs.
  - rewrite (Hset s Hs). cbn. split.
    + intros _ _. split; [exact Hs | now apply Hset].
    + discriminate.
  - rewrite (confirmDisclaimer_run s Hs). unfold confirmDisclaimer_unfolded.
    destruct (prompt_get confirmSchema (world s)) as [[err|answer] w1];
      [|destruct (saysYes answer)]; cbn; split; try discriminate.
    + intros c [= <-]. auto.
    + intros _ _. split; reflexivity.
    + intros c [= <-]. auto.
Qed.

End EngineFactsClaims.

(** ** The menu and the shape of a run *)

Section Menu.

Context {W : Type} {host : Host W}.

Lemma bind_log {A} (msg : string) (k : unit -> M W A) (s : pstate W) :
  bind (console_log msg) k s = prepend [EvLog msg] (k tt s).
Proof.
  unfold bind, console_log, prepend, trace_of, result_of, state_of.
  now destruct (k tt s) as [[t r] s'].
Qed.

Lemma forEach_log_run (f : string -> string) (l : list string) (s : pstate W) :
  forEach_log f l s = (map (fun b => EvLog (f b)) l, Ret tt, s).
Proof.
  induction l as [|b l IH]; cbn [forEach_log map]; [reflexivity|].
  now rewrite bind_log, IH.
Qed.

Lemma bind_forEach_log {A} (f : string -> string) (l : list string)
  (k : unit -> M W A) (s : pstate W) :
  bind (forEach_log f l) k s =
  prepend (map (fun b => EvLog (f b)) l) (k tt s).
Proof. rewrite bind_run, forEach_log_run. reflexivity. Qed.

Lemma main_menu_run (defaultMain : option string) (branches : list string)
  (s : pstate W) :
  main_menu defaultMain branches s = main_menu_unfolded defaultMain branches s.
Proof.
  assert (E : main_menu defaultMain branches =
    (console_log
       ("The following local branches have no active upstream branch (or their upstream is gone):"
        ++ String "010" "") ;;
     forEach_log (fun b => "  " ++ bullet ++ " " ++ b) branches ;;
     console_log "" ;;
     console_log "Choose one of the following options:" ;;
     console_log "  1. Delete all detached local branches (safe delete)" ;;
     console_log "  2. Delete all detached local branches (forced delete)" ;;
     console_log (optionThree defaultMain) ;;
     console_log "  4. Cancel" ;;
     prompt_start ;;
     r <- prompt_number optionSchema ;;
     match r with
     | inl err => console_error_obj "Prompt error:" err ;; process_exit 1
     | inr option =>
         if Z.eqb option 4 then
           console_log "Operation cancelled." ;; process_exit 0
         else ret option
     end))
    by (now destruct defaultMain as [[|a d]|]).
  rewrite E. clear E. unfold main_menu_unfolded, menu_events, menu_lines.
  rewrite bind_log, bind_forEach_log, !bind_log, !prepend_prepend.
  unfold bind, prompt_start, prompt_number, prepend.
  destruct (prompt_get_number optionSchema (world s)) as [[err|o] w1];
    [|destruct (Z.eqb o 4)];
    cbn [trace_of result_of state_of fst snd world disclaimerConfirmed
         console_error_obj console_log process_exit ret app];
    rewrite ?app_nil_r, <- ?app_assoc; reflexivity.
Qed.

Lemma after_listing_run (d : option string) (bs : list string) (s : pstate W) :
  after_listing d bs s =
  match result_of (main_menu_unfolded d bs s) with
  | Ret option =>
      prepend (trace_of (main_menu_unfolded d bs s))
        (main_selected d bs option (state_of (main_menu_unfolded d bs s)))
  | Exit c =>
      (trace_of (main_menu_unfolded d bs s), Exit c,
       state_of (main_menu_unfolded d bs s))
  end.
Proof. unfold after_listing. now rewrite bind_run, main_menu_run. Qed.

Lemma resolver_head : emits head_event (@getDefaultMainBranch W host).
Proof. unfold getDefaultMainBranch, branchExists. emits_tac. Qed.

Lemma resolver_keeps_flag : keeps_flag (@getDefaultMainBranch W host).
Proof. unfold getDefaultMainBranch, branchExists. keeps_tac. Qed.

(** A run either ends before the menu, on events of its head only, or is
    such events, with a listing that holds stale branches, followed by the
    run from the menu on. *)
Lemma run_shape (w : W) :
  (forallb head_event (trace_of (run w)) = true /\
   exists c, result_of (run w) = Exit c) \/
  (exists d l head s4,
     forallb head_event head = true /\
     In (EvExec listingCmd l) head /\ failed l = false /\
     parseDetachedBranches (stdout l) <> [] /\
     disclaimerConfirmed s4 = false /\
     fst (fs_existsSync ".git" w) = true /\
     result_of (getDefaultMainBranch
                  (PState (snd (fs_existsSync ".git" w)) false)) =
       Ret (inr d) /\
     run w = prepend head
               (after_listing d (parseDetachedBranches (stdout l)) s4)).
Proof.
  rewrite run_unfolded_eq. unfold run_unfolded.
  destruct (fs_existsSync ".git" w) as [repo w0]. cbn [fst snd].
  destruct repo; cbn [negb]; [|left; split; [reflexivity | now exists 1%Z]].
  pose proof (resolver_head (PState w0 false)) as Hh.
  pose proof (resolver_keeps_flag (PState w0 false)) as Hk.
  set (x := getDefaultMainBranch (PState w0 false)) in *.
  destruct (result_of x) as [[err|d]|c] eqn:Hr.
  - left. cbn [trace_of result_of fst snd forallb head_event andb].
    rewrite forallb_app, Hh. split; [reflexivity | now exists 1%Z].
  - destruct (child_exec listingCmd (world (state_of x))) as [l w4].
    destruct (failed l) eqn:Hl;
      [|destruct (Nat.eqb (length (parseDetachedBranches (stdout l))) 0) eqn:Hn].
    + left. cbn [trace_of result_of fst snd forallb head_event andb app].
      rewrite !forallb_app, Hh. split; [reflexivity | now exists 1%Z].
    + left. cbn [trace_of result_of fst snd forallb head_event andb app].
      rewrite !forallb_app, Hh. split; [reflexivity | now exists 0%Z].
    + right.
      exists d, l, (EvExists ".git" true :: (trace_of x ++ [EvExec listingCmd l])%list),
        (PState w4 (disclaimerConfirmed (state_of x))).
      repeat split.
      * cbn [forallb head_event andb]. rewrite forallb_app, Hh. reflexivity.
      * right. apply in_or_app. right. now left.
      * exact Hl.
      * intros E. rewrite E in Hn. discriminate Hn.
      * exact Hk.
  - left. cbn [trace_of result_of fst snd forallb head_event andb].
    rewrite Hh. split; [reflexivity | now exists c].
Qed.

End Menu.

(** ** What a run deletes *)

Section Targets.

Context {W : Type} {host : Host W}.

Lemma within_quiet (bs : list string) (e : event) :
  is_deletion e = false -> within bs e = true.
Proof.
  destruct e; try reflexivity. unfold within, is_deletion. now intros ->.
Qed.

Lemma within_incl (bs bs' : list string) (e : event) :
  incl bs bs' -> within bs e = true -> within bs' e = true.
Proof.
  intros Hi. destruct e; try reflexivity. unfold within.
  destruct (is_deletion_cmd cmd); [|reflexivity]. cbn [negb orb].
  rewrite !existsb_exists. intros (x & Hx & E). exists x. auto.
Qed.

Lemma within_spec (bs : list string) (cmd : string) (d : exec_result) :
  within bs (EvExec cmd d) = true -> is_deletion_cmd cmd = true ->
  In (deletion_target cmd) bs.
Proof.
  unfold within. intros H Hc. rewrite Hc in H. cbn [negb orb] in H.
  apply existsb_exists in H.
  destruct H as (x & Hx & E). apply String.eqb_eq in E. now rewrite E.
Qed.

Lemma emits_bind_result p {A B} (m : M W A) (f : A -> M W B) :
  emits p m ->
  (forall a, (exists s, result_of (m s) = Ret a) -> emits p (f a)) ->
  emits p (bind m f).
Proof.
  intros Hm Hf s. rewrite trace_bind, forallb_app, Hm.
  destruct (result_of (m s)) eqn:E; [apply Hf; eauto | reflexivity].
Qed.

Lemma engine_within (forced : bool) (bs failed0 : list string) :
  emits (within bs) (deleteNext forced bs failed0).
Proof.
  intros s. apply forallb_forall. intros e He.
  destruct e as [| cmd d | | | | | |]; try reflexivity.
  unfold within. destruct (is_deletion_cmd cmd) eqn:Hc; [|reflexivity].
  apply In_nth_error in He. destruct He as [i Hi].
  destruct (deleteNext_engine_run forced bs failed0 s) as (out & _ & Hrun).
  destruct (engine_run_deletion forced _ _ _ _ Hrun i cmd d Hi Hc)
    as (j & r & b & _ & _ & _ & Hb & -> & _).
  rewrite deletion_target_delCmd. cbn. apply existsb_exists.
  exists b. split; [exact Hb | apply String.eqb_refl].
Qed.

Lemma engine_result_incl (forced : bool) (bs : list string) (s : pstate W)
  (fb : list string) :
  result_of (deleteNext forced bs [] s) = Ret (inr fb) -> incl fb bs.
Proof.
  intros E.
  destruct (deleteNext_engine_run forced bs [] s) as (out & Ho & Hrun).
  rewrite Ho in E. injection E as ->.
  destruct (engine_run_result forced _ _ _ _ Hrun) as (_ & _ & ->).
  cbn [app]. intros x Hx.
  apply (subseq_incl _ _ (engine_run_order forced _ _ _ _ Hrun)).
  now apply (subseq_incl _ _ (unmerged_among_targets _)).
Qed.

Lemma preCleanupCheck_result_incl (bs : list string) (d : option string)
  (s : pstate W) (final : list string) :
  result_of (preCleanupCheck bs d s) = Ret (inr final) -> incl final bs.
Proof.
  destruct d as [[|a d]|]; try (intros [= <-]; apply incl_refl).
  rewrite preCleanupCheck_run. unfold preCleanupCheck_unfolded.
  destruct (child_exec revParseCmd (world s)) as [r w1].
  destruct (failed r); [discriminate|].
  destruct (toLowerCase (trim (stdout r)) =? toLowerCase (String a d));
    [intros [= <-]; apply incl_refl|].
  destruct (prompt_get (switchSchema (String a d)) w1) as [[err|answer] w2];
    [discriminate|].
  destruct (saysYes answer).
  - destruct (child_exec (checkoutCmd (String a d)) w2) as [c w3].
    destruct (failed c); [discriminate|]. intros [= <-]. apply incl_refl.
  - intros [= <-]. apply incl_filter.
Qed.

Lemma branchesToDelete_incl (d : option string) (bs : list string) (o : Z) :
  incl (branchesToDelete_of d bs o) bs.
Proof.
  unfold branchesToDelete_of. destruct d as [[|a d]|]; try apply incl_refl.
  destruct (Z.eqb o 3); [apply incl_filter | apply incl_refl].
Qed.

Lemma main_target_result_incl (d : option string) (bs : list string) (o : Z)
  (s : pstate W) (final : list string) :
  result_of (main_target d bs o s) = Ret final ->
  incl final (branchesToDelete_of d bs o).
Proof.
  assert (Hg : forall bs',
    result_of
      (bind (preCleanupCheck bs' d)
         (fun g =>
            match g with
            | inl err =>
                console_error_obj "Error during pre-cleanup check:" err ;;
                process_exit 1
            | inr finalBranchesToDelete =>
                if Nat.eqb (length finalBranchesToDelete) 0 then
                  console_log
                    "No branches available to delete after pre-cleanup adjustments." ;;
                  process_exit 0
                else ret finalBranchesToDelete
            end) s) = Ret final -> incl final bs').
  { intros bs'. rewrite result_bind.
    pose proof (preCleanupCheck_result_incl bs' d s) as Hi.
    destruct (result_of (preCleanupCheck bs' d s)) as [[err|fin]|c];
      try discriminate.
    destruct (Nat.eqb (length fin) 0); [discriminate|].
    intros [= <-]. now apply Hi. }
  unfold main_target, branchesToDelete_of. rewrite (bind_run _ _ s).
  destruct d as [[|a d]|];
    try (cbn [ret trace_of result_of state_of fst snd];
         rewrite prepend_nil; apply Hg).
  destruct (Z.eqb o 3);
    [|cbn [ret trace_of result_of state_of fst snd];
      rewrite prepend_nil; apply Hg].
  cbn zeta.
  destruct (Nat.eqb (length (filter (differsIgnoringCase (String a d)) bs)) 0);
    [discriminate|].
  cbn [ret trace_of result_of state_of fst snd]. rewrite prepend_nil. apply Hg.
Qed.

Lemma main_delete_within (o : Z) (final bs : list string) :
  incl final bs -> emits (within bs) (main_delete o final).
Proof.
  intros Hi.
  assert (He : forall forced names, incl names bs ->
                 emits (within bs) (deleteBranches names forced)).
  { intros forced names Hn. unfold deleteBranches.
    generalize (engine_within forced names []). apply emits_weaken.
    intros e. now apply within_incl. }
  unfold main_delete.
  destruct (Z.eqb o 1 || Z.eqb o 3); [|destruct (Z.eqb o 2)].
  - apply emits_bind_result; [now apply He|].
    intros [err|fb] [s E]; [emits_tac|].
    destruct (Nat.ltb 0 (length fb)); [|emits_tac].
    apply emits_bind; [emits_tac | intros [err|answer]]; [emits_tac|].
    destruct (saysYes answer); [|emits_tac].
    apply emits_bind; [|intros; emits_tac].
    apply He. intros x Hx. apply Hi.
    now apply (engine_result_incl false final s fb).
  - apply emits_bind; [now apply He | intros; emits_tac].
  - apply emits_ret.
Qed.

Lemma main_selected_within (d : option string) (bs : list string) (o : Z) :
  emits (within (branchesToDelete_of d bs o)) (main_selected d bs o).
Proof.
  unfold main_selected. apply emits_bind_result.
  - generalize (@main_target_calm W host d bs o). apply emits_weaken.
    intros e He. apply within_quiet.
    apply andb_prop in He. destruct He as [He _].
    apply calm_no_deletion in He. now destruct (is_deletion e).
  - intros final [s E]. apply emits_bind.
    + generalize (@confirmDisclaimer_quiet W host). apply emits_weaken.
      intros e He. apply within_quiet.
      destruct (is_deletion e); [|reflexivity].
      now rewrite andb_false_r in He.
    + intros _. apply main_delete_within.
      now apply (main_target_result_incl d bs o s).
Qed.

Lemma main_selected_no_number (d : option string) (bs : list string) (o : Z) :
  emits (fun e => negb (is_number_prompt e)) (main_selected d bs o).
Proof.
  unfold main_selected, main_target, preCleanupCheck, getCurrentBranch,
    confirmDisclaimer, main_delete, deleteBranches.
  repeat first [apply deleteNext_emits; intros; reflexivity | emits_step].
Qed.

(** The run from the menu on, by the answer to the option prompt. *)
Lemma after_listing_shape (d : option string) (bs : list string)
  (s : pstate W) :
  exists r s5,
    disclaimerConfirmed s5 = disclaimerConfirmed s /\
    match r with
    | inl err =>
        after_listing d bs s =
        ((menu_events d bs r ++ [EvErrorObj "Prompt error:" err])%list,
         Exit 1, s5)
    | inr o =>
        if Z.eqb o 4 then
          after_listing d bs s =
          ((menu_events d bs r ++ [EvLog "Operation cancelled."])%list,
           Exit 0, s5)
        else
          after_listing d bs s =
          prepend (menu_events d bs r) (main_selected d bs o s5)
    end.
Proof.
  rewrite after_listing_run. unfold main_menu_unfolded.
  destruct (prompt_get_number optionSchema (world s)) as [r w1].
  exists r, (PState w1 (disclaimerConfirmed s)). split; [reflexivity|].
  destruct r as [err|o]; [reflexivity|]. now destruct (Z.eqb o 4).
Qed.

Lemma menu_events_number (d : option string) (bs : list string)
  (r r' : error + Z) (q : schema) :
  In (EvPromptNumber q r') (menu_events d bs r) -> q = optionSchema /\ r' = r.
Proof.
  unfold menu_events, menu_lines. intros H.
  apply in_app_or in H. destruct H as [[E|H]|[E|[]]]; [discriminate E| |].
  - apply in_app_or in H. destruct H as [H|H].
    + apply in_map_iff in H. destruct H as (b & E & _). discriminate E.
    + repeat (destruct H as [E|H]; [discriminate E|]). destruct H.
  - now injection E as <- <-.
Qed.

Lemma menu_events_harmless (d : option string) (bs : list string)
  (r : error + Z) :
  forallb harmless (menu_events d bs r) = true.
Proof.
  assert (Hlogs : forallb harmless
            (map (fun b => EvLog ("  " ++ bullet ++ " " ++ b)) bs) = true)
    by (induction bs as [|b bs IH]; [reflexivity | exact IH]).
  unfold menu_events, menu_lines.
  change (?h :: (?m ++ [?a; ?b; ?c; ?e; EvLog (optionThree d); ?f; ?g]))%list
    with ([h] ++ m ++ [a; b; c; e] ++ [EvLog (optionThree d)] ++ [f; g])%list.
  rewrite !forallb_app, Hlogs.
  replace (forallb harmless [EvLog (optionThree d)]) with true
    by (now destruct d as [[|a d]|]).
  reflexivity.
Qed.

Lemma head_event_harmless (e : event) : head_event e = true -> harmless e = true.
Proof.
  destruct e as [| cmd d | | | | msg | |]; try reflexivity; cbn.
  - intros H. apply orb_prop in H. destruct H as [H|H];
      [apply orb_prop in H; destruct H as [H|H]|];
      apply String.eqb_eq in H; subst cmd; reflexivity.
  - intros H. apply String.eqb_eq in H. subst msg. reflexivity.
Qed.

Lemma head_event_no_number (e : event) :
  head_event e = true -> is_number_prompt e = false.
Proof. now destruct e. Qed.

Lemma harmless_no_deletion (e : event) : harmless e = true -> is_deletion e = false.
Proof. unfold harmless. now destruct (is_deletion e). Qed.

End Targets.

(** ** Runs by the answer to the option prompt *)

Section Options.

Context {W : Type} {host : Host W}.

Lemma run_menu_shape (w : W) :
  (forallb head_event (trace_of (run w)) = true /\
   exists c, result_of (run w) = Exit c) \/
  (exists d l head r s5,
     forallb head_event head = true /\
     In (EvExec listingCmd l) head /\ failed l = false /\
     disclaimerConfirmed s5 = false /\
     result_of (getDefaultMainBranch
                  (PState (snd (fs_existsSync ".git" w)) false)) =
       Ret (inr d) /\
     let bs := parseDetachedBranches (stdout l) in
     match r with
     | inl err =>
         run w = ((front head d bs r ++ [EvErrorObj "Prompt error:" err])%list,
                  Exit 1, s5)
     | inr o =>
         if Z.eqb o 4 then
           run w = ((front head d bs r ++ [EvLog "Operation cancelled."])%list,
                    Exit 0, s5)
         else run w = prepend (front head d bs r) (main_selected d bs o s5)
     end).
Proof.
  destruct (run_shape w)
    as [H|(d & l & head & s4 & Hhead & Hl & Hf & _ & Hflag & _ & Hres & E)];
    [now left | right].
  destruct (after_listing_shape d (parseDetachedBranches (stdout l)) s4)
    as (r & s5 & Hs5 & Hr).
  exists d, l, head, r, s5. repeat split; try assumption; [congruence|].
  cbn zeta. unfold front.
  destruct r as [err|o]; [|destruct (Z.eqb o 4)]; rewrite E, Hr;
    unfold prepend; cbn [trace_of result_of state_of fst snd];
    now rewrite ?app_assoc.
Qed.

Lemma front_harmless (head : trace) d bs r :
  forallb head_event head = true -> forallb harmless (front head d bs r) = true.
Proof.
  intros H. unfold front. rewrite forallb_app, menu_events_harmless.
  rewrite (forallb_weaken head_event harmless head head_event_harmless H).
  reflexivity.
Qed.

Lemma front_number (head : trace) d bs r q r' :
  forallb head_event head = true ->
  In (EvPromptNumber q r') (front head d bs r) -> q = optionSchema /\ r' = r.
Proof.
  intros Hh H. unfold front in H. apply in_app_or in H. destruct H as [H|H].
  - rewrite forallb_forall in Hh. apply Hh in H. discriminate H.
  - now apply menu_events_number in H.
Qed.

Lemma front_option (head : trace) d bs r :
  In (EvPromptNumber optionSchema r) (front head d bs r).
Proof.
  unfold front, menu_events. apply in_or_app. right.
  apply in_or_app. right. now left.
Qed.

Lemma menu_lines_show (d : option string) (bs : list string) (b : string) :
  In b bs -> In (EvLog ("  " ++ bullet ++ " " ++ b)) (menu_lines d bs).
Proof.
  intros H. unfold menu_lines. right. apply in_or_app. left.
  apply (in_map (fun b => EvLog ("  " ++ bullet ++ " " ++ b))), H.
Qed.

(** What follows the front of a run that reached the menu deletes within
    the listing. *)
Lemma run_menu_tail (w : W) (d : option string) (bs : list string)
  (head : trace) (r : error + Z) (s5 : pstate W) :
  match r with
  | inl err =>
      run w = ((front head d bs r ++ [EvErrorObj "Prompt error:" err])%list,
               Exit 1, s5)
  | inr o =>
      if Z.eqb o 4 then
        run w = ((front head d bs r ++ [EvLog "Operation cancelled."])%list,
                 Exit 0, s5)
      else run w = prepend (front head d bs r) (main_selected d bs o s5)
  end ->
  exists tl,
    trace_of (run w) = (front head d bs r ++ tl)%list /\
    forallb (within bs) tl = true.
Proof.
  destruct r as [err|o]; [|destruct (Z.eqb o 4)]; intros ->.
  - now exists [EvErrorObj "Prompt error:" err].
  - now exists [EvLog "Operation cancelled."].
  - eexists. split; [reflexivity|].
    generalize (main_selected_within d bs o s5). apply forallb_weaken.
    intros e. apply within_incl, branchesToDelete_incl.
Qed.

(** X8. A run deletes only what it listed and showed: every deletion
    subprocess of a run is about a name that the lister found in the output
    of the listing of that run, and that the menu of that run showed. *)
Theorem run_deletes_only_listed (w : W) (cmd : string) (x : exec_result) :
  In (EvExec cmd x) (trace_of (run w)) ->
  is_deletion_cmd cmd = true ->
  (exists l,
     In (EvExec listingCmd l) (trace_of (run w)) /\ failed l = false /\
     In (deletion_target cmd) (parseDetachedBranches (stdout l))) /\
  In (EvLog ("  " ++ bullet ++ " " ++ deletion_target cmd)) (trace_of (run w)).
Proof.
  intros Hin Hc.
  destruct (run_menu_shape w)
    as [[Hh _]|(d & l & head & r & s5 & Hhead & Hl & Hf & _ & _ & E)].
  { exfalso. rewrite forallb_forall in Hh. apply Hh in Hin.
    apply head_event_harmless, harmless_no_deletion in Hin.
    cbn in Hin. congruence. }
  cbn zeta in E. apply run_menu_tail in E. destruct E as (tl & E & Hw).
  rewrite E in *.
  assert (Ht : In (deletion_target cmd) (parseDetachedBranches (stdout l))).
  { apply in_app_or in Hin. destruct Hin as [H|H].
    - exfalso.
      pose proof (front_harmless head d (parseDetachedBranches (stdout l)) r
                    Hhead) as Hfr.
      rewrite forallb_forall in Hfr. apply Hfr in H.
      apply harmless_no_deletion in H. cbn in H. congruence.
    - rewrite forallb_forall in Hw. apply Hw in H.
      now apply (within_spec _ cmd x). }
  split.
  - exists l. repeat split; try assumption.
    apply in_or_app. left. unfold front. apply in_or_app. now left.
  - apply in_or_app. left. unfold front, menu_events.
    apply in_or_app. right. apply in_or_app. left.
    now apply menu_lines_show.
Qed.

(** X9. Option 3 keeps the default branch: in a run whose resolver called
    back with the default [d] and whose option prompt was answered by 3, no
    deletion subprocess is about a name equal to [d], whatever the case of
    its letters. *)
Theorem option_three_keeps_default (w : W) (d : string) (cmd : string)
  (x : exec_result) :
  result_of (getDefaultMainBranch
               (PState (snd (fs_existsSync ".git" w)) false)) =
    Ret (inr (Some d)) ->
  d <> "" ->
  In (EvPromptNumber optionSchema (inr 3%Z)) (trace_of (run w)) ->
  In (EvExec cmd x) (trace_of (run w)) ->
  is_deletion_cmd cmd = true ->
  toLowerCase (deletion_target cmd) <> toLowerCase d.
Proof.
  intros Hres Hd Hopt Hin Hc.
  destruct (run_menu_shape w)
    as [[Hh _]|(d' & l & head & r & s5 & Hhead & _ & _ & _ & Hres' & E)].
  { exfalso. rewrite forallb_forall in Hh. apply Hh in Hin.
    apply head_event_harmless, harmless_no_deletion in Hin.
    cbn in Hin. congruence. }
  rewrite Hres in Hres'. injection Hres' as <-.
  cbn zeta in E. set (bs := parseDetachedBranches (stdout l)) in *.
  assert (Hnf : ~ In (EvExec cmd x) (front head (Some d) bs r)).
  { intros H. pose proof (front_harmless head (Some d) bs r Hhead) as Hfr.
    rewrite forallb_forall in Hfr. apply Hfr in H.
    apply harmless_no_deletion in H. cbn in H. congruence. }
  destruct r as [err|o]; [|destruct (Z.eqb o 4) eqn:Ho4]; rewrite E in *;
    unfold prepend in *; cbn [trace_of fst] in *.
  - exfalso. apply in_app_or in Hin.
    destruct Hin as [H|[H|[]]]; [now apply Hnf | discriminate H].
  - exfalso. apply in_app_or in Hin.
    destruct Hin as [H|[H|[]]]; [now apply Hnf | discriminate H].
  - assert (Ho : o = 3%Z).
    { apply in_app_or in Hopt. destruct Hopt as [H|H].
      - apply front_number in H; [|exact Hhead]. destruct H as [_ H]. congruence.
      - pose proof (main_selected_no_number (Some d) bs o s5) as Hn.
        rewrite forallb_forall in Hn. apply Hn in H. discriminate H. }
    subst o. apply in_app_or in Hin. destruct Hin as [H|H]; [now elim Hnf|].
    pose proof (main_selected_within (Some d) bs 3 s5) as Hw.
    rewrite forallb_forall in Hw. apply Hw in H.
    apply (within_spec _ cmd x) in H; [|exact Hc].
    unfold branchesToDelete_of in H. destruct d as [|a d]; [now elim Hd|].
    cbn [Z.eqb Pos.eqb] in H. apply filter_In in H. destruct H as [_ H].
    unfold differsIgnoringCase in H. intros Heq. rewrite Heq in H.
    now rewrite String.eqb_refl in H.
Qed.

(** X10. Option 4 cancels: a run whose option prompt was answered by 4
    ends with status 0 right after saying so, and has run no deletion, no
    checkout and no reading of the current branch, and has not shown the
    disclaimer. *)
Theorem cancel_ends_run (w : W) (q : schema) :
  In (EvPromptNumber q (inr 4%Z)) (trace_of (run w)) ->
  result_of (run w) = Exit 0 /\
  (exists pre,
     trace_of (run w) =
     (pre ++ [EvPromptNumber optionSchema (inr 4%Z);
              EvLog "Operation cancelled."])%list) /\
  forallb harmless (trace_of (run w)) = true.
Proof.
  intros Hopt.
  destruct (run_menu_shape w)
    as [[Hh _]|(d & l & head & r & s5 & Hhead & _ & _ & _ & _ & E)].
  { exfalso. rewrite forallb_forall in Hh. apply Hh in Hopt. discriminate Hopt. }
  cbn zeta in E. set (bs := parseDetachedBranches (stdout l)) in *.
  assert (Hr : r = inr 4%Z).
  { destruct r as [err|o]; [|destruct (Z.eqb o 4) eqn:Ho4]; rewrite E in Hopt;
      unfold prepend in Hopt; cbn [trace_of fst] in Hopt;
      apply in_app_or in Hopt; destruct Hopt as [H|H];
      try (apply front_number in H; [|exact Hhead]; destruct H as [_ H];
           now symmetry).
    - destruct H as [H|[]]. discriminate H.
    - destruct H as [H|[]]. discriminate H.
    - pose proof (main_selected_no_number d bs o s5) as Hn.
      rewrite forallb_forall in Hn. apply Hn in H. discriminate H. }
  subst r. cbn [Z.eqb Pos.eqb] in E. rewrite E.
  cbn [trace_of result_of fst snd]. split; [reflexivity|]. split.
  - exists (head ++ menu_lines d bs)%list. unfold front, menu_events.
    now rewrite <- !app_assoc.
  - now rewrite forallb_app, (front_harmless head d bs _ Hhead).
Qed.

Lemma forced_closing_exits (x : trace * res (error + list string) * pstate W) :
  exists c, result_of (forced_closing x) = Exit c.
Proof.
  unfold forced_closing. destruct (result_of x) as [[err|fb]|c]; cbn; eauto.
Qed.

Lemma safe_then_offer_exits (final : list string) (s : pstate W) :
  exists c, result_of (safe_then_offer final s) = Exit c.
Proof.
  unfold safe_then_offer.
  destruct (result_of (deleteBranches final false s)) as [[err|[|b fb]]|c];
    cbn; eauto.
  destruct (prompt_get forceSchema _) as [[err|answer] w2]; cbn; eauto.
  destruct (saysYes answer); cbn; eauto.
  apply forced_closing_exits.
Qed.

(** With an option of the menu, the deletion stage ends the process. *)
Lemma main_delete_exits (o : Z) (final : list string) (s : pstate W) :
  (o = 1 \/ o = 2 \/ o = 3)%Z ->
  exists c, result_of (main_delete o final s) = Exit c.
Proof.
  intros [ -> | [ -> | -> ] ].
  - rewrite main_delete_safe by auto. apply safe_then_offer_exits.
  - unfold main_delete. cbn [Z.eqb Pos.eqb orb].
    rewrite forced_pass_run. apply forced_closing_exits.
  - rewrite main_delete_safe by auto. apply safe_then_offer_exits.
Qed.

Lemma main_delete_other (o : Z) (final : list string) (s : pstate W) :
  o <> 1%Z -> o <> 2%Z -> o <> 3%Z ->
  main_delete o final s = ([], Ret tt, s).
Proof.
  intros H1 H2 H3. unfold main_delete.
  now rewrite (proj2 (Z.eqb_neq _ _) H1), (proj2 (Z.eqb_neq _ _) H2),
    (proj2 (Z.eqb_neq _ _) H3).
Qed.

(** When the run from the choice on comes back, no option of the menu was
    chosen; the disclaimer was affirmed all the same, and nothing was
    deleted. *)
Lemma main_selected_returns d bs (o : Z) (s : pstate W) (u : unit) :
  disclaimerConfirmed s = false ->
  result_of (main_selected d bs o s) = Ret u ->
  (o <> 1 /\ o <> 2 /\ o <> 3)%Z /\
  existsb is_affirmation (trace_of (main_selected d bs o s)) = true /\
  forallb (fun e => negb (is_deletion e)) (trace_of (main_selected d bs o s))
    = true.
Proof.
  intros Hs. unfold main_selected.
  rewrite (bind_run (main_target d bs o)).
  pose proof (main_target_calm d bs o s) as Hcalm.
  pose proof (main_target_keeps_flag d bs o s) as Hflag.
  destruct (result_of (main_target d bs o s)) as [final|c]; [|discriminate].
  set (s1 := state_of (main_target d bs o s)) in *.
  set (t1 := trace_of (main_target d bs o s)) in *.
  assert (Hs1 : disclaimerConfirmed s1 = false) by congruence.
  rewrite bind_run, (confirmDisclaimer_run s1 Hs1).
  unfold confirmDisclaimer_unfolded.
  destruct (prompt_get confirmSchema (world s1)) as [[err|answer] w2];
    [discriminate|].
  destruct (saysYes answer) eqn:Hy; [|discriminate].
  cbn [trace_of result_of state_of fst snd prepend].
  unfold prepend. cbn [trace_of result_of state_of fst snd].
  intros Hret.
  assert (Hex : ~ (o = 1 \/ o = 2 \/ o = 3)%Z).
  { intros Ho.
    destruct (main_delete_exits o final (PState w2 true) Ho) as [c Hc].
    rewrite Hc in Hret. discriminate Hret. }
  assert (Ho : (o <> 1 /\ o <> 2 /\ o <> 3)%Z)
    by (repeat split; intros E; apply Hex; auto).
  destruct Ho as (H1 & H2 & H3). split; [auto|].
  rewrite (main_delete_other o final _ H1 H2 H3). cbn [trace_of fst].
  rewrite existsb_app, !forallb_app. split.
  - cbn. rewrite Hy. now rewrite orb_true_r.
  - cbn. rewrite andb_true_r.
    revert Hcalm. apply forallb_weaken. intros e He.
    apply andb_prop in He. destruct He as [He _].
    now apply calm_no_deletion.
Qed.

(** X11. The deletion stage has no case for an option that is not on the
    menu.  A run that comes back from [main] without ending the process is
    a run whose option prompt was answered by a number that [conform]
    refuses; in it the disclaimer was shown and affirmed, and nothing was
    deleted.  A run whose option prompt was answered by a number that
    [conform] accepts ends the process. *)
Theorem unknown_option_falls_through (w : W) :
  (forall u,
     result_of (run w) = Ret u ->
     exists o,
       In (EvPromptNumber optionSchema (inr o)) (trace_of (run w)) /\
       conform o = false /\
       existsb is_affirmation (trace_of (run w)) = true /\
       forallb (fun e => negb (is_deletion e)) (trace_of (run w)) = true) /\
  (forall q o,
     In (EvPromptNumber q (inr o)) (trace_of (run w)) ->
     conform o = true ->
     exists c, result_of (run w) = Exit c).
Proof.
  destruct (run_menu_shape w)
    as [[Hh [c Hc]]|(d & l & head & r & s5 & Hhead & _ & _ & Hflag & _ & E)].
  { split; [intros u Hu; congruence | eauto]. }
  cbn zeta in E. set (bs := parseDetachedBranches (stdout l)) in *.
  pose proof (front_harmless head d bs r Hhead) as Hfront.
  pose proof (front_option head d bs r) as Hopt.
  destruct r as [err|o]; [|destruct (Z.eqb o 4) eqn:Ho4]; rewrite E;
    try (split; [discriminate | cbn; eauto]).
  unfold prepend. cbn [trace_of result_of fst snd]. split.
  - intros u Hu.
    destruct (main_selected_returns d bs o s5 u Hflag Hu) as ((H1 & H2 & H3) & Ha & Hd).
    exists o. repeat split.
    + apply in_or_app. now left.
    + unfold conform. cbn [existsb].
      now rewrite (proj2 (Z.eqb_neq _ _) H1), (proj2 (Z.eqb_neq _ _) H2),
        (proj2 (Z.eqb_neq _ _) H3), Ho4.
    + rewrite existsb_app, Ha. apply orb_true_r.
    + rewrite forallb_app, Hd, andb_true_r.
      revert Hfront. apply forallb_weaken. intros e He.
      apply harmless_no_deletion in He. now rewrite He.
  - intros q o' Hin Hconf.
    assert (o' = o).
    { apply in_app_or in Hin. destruct Hin as [H|H].
      - apply front_number in H; [|exact Hhead]. destruct H as [_ H]. congruence.
      - pose proof (main_selected_no_number d bs o s5) as Hn.
        rewrite forallb_forall in Hn. apply Hn in H. discriminate H. }
    subst o'.
    destruct (result_of (main_selected d bs o s5)) as [u|c] eqn:Hres; [|eauto].
    exfalso.
    destruct (main_selected_returns d bs o s5 u Hflag Hres) as ((H1 & H2 & H3) & _).
    unfold conform in Hconf. cbn [existsb] in Hconf.
    rewrite (proj2 (Z.eqb_neq _ _) H1), (proj2 (Z.eqb_neq _ _) H2),
      (proj2 (Z.eqb_neq _ _) H3), Ho4 in Hconf. discriminate Hconf.
Qed.

End Options.

(** ** What a run asks before it acts *)

Section Consent.

Context {W : Type} {host : Host W}.

Section GuardedBy.

Variables key act : event -> bool.

Hypothesis key_not_act : forall e, key e = true -> act e = false.

Lemma guarded_by_spec (t : trace) :
  guarded_by key act t = true ->
  forall pre e post,
    t = (pre ++ e :: post)%list -> act e = true -> existsb key pre = true.
Proof.
  induction t as [|a t IH]; intros Hg pre e post Ht He.
  - now destruct pre.
  - cbn in Hg. destruct pre as [|a' pre]; cbn in Ht; injection Ht as <- Ht.
    + rewrite He in Hg. cbn in Hg. rewrite orb_false_r in Hg.
      apply key_not_act in Hg. congruence.
    + cbn. destruct (key a); [reflexivity|]. cbn in *.
      apply andb_prop in Hg. destruct Hg as [_ Hg]. now apply (IH Hg pre e post).
Qed.

Lemma guarded_by_quiet (t : trace) :
  forallb (fun e => negb (act e)) t = true -> guarded_by key act t = true.
Proof.
  induction t as [|a t IH]; [reflexivity|]. cbn. intros H.
  apply andb_prop in H. destruct H as [Ha Ht].
  rewrite Ha, (IH Ht). apply orb_true_r.
Qed.

Lemma guarded_by_app (t1 t2 : trace) :
  forallb (fun e => negb (act e)) t1 = true ->
  guarded_by key act t2 = true -> guarded_by key act (t1 ++ t2)%list = true.
Proof.
  induction t1 as [|a t IH]; [auto|]. cbn. intros H H2.
  apply andb_prop in H. destruct H as [Ha Ht].
  rewrite Ha, (IH Ht H2). apply orb_true_r.
Qed.

Lemma guarded_by_key (t1 t2 : trace) (e : event) :
  forallb (fun e => negb (act e)) t1 = true -> key e = true ->
  guarded_by key act (t1 ++ e :: t2)%list = true.
Proof.
  intros H1 He. apply guarded_by_app; [exact H1|]. cbn. now rewrite He.
Qed.

End GuardedBy.

Lemma forced_is_deletion (e : event) :
  is_deletion e = false -> negb (is_forced_deletion e) = true.
Proof.
  destruct e; try reflexivity. unfold is_deletion, is_deletion_cmd. cbn.
  destruct (prefix "git branch -D " cmd); [|reflexivity].
  now rewrite orb_true_r.
Qed.

Lemma harmless_not_forced (e : event) :
  harmless e = true -> negb (is_forced_deletion e) = true.
Proof. intros H. now apply forced_is_deletion, harmless_no_deletion. Qed.

Lemma safe_then_offer_consent (final : list string) (s : pstate W) :
  guarded_by is_force_consent is_forced_deletion
    (trace_of (safe_then_offer final s)) = true.
Proof.
  unfold safe_then_offer.
  pose proof (engine_safe_not_forced final [] s) as Hsafe.
  change (deleteNext false final [] s) with (deleteBranches final false s) in Hsafe.
  destruct (result_of (deleteBranches final false s)) as [[err|[|b fb]]|c];
    cbn [trace_of fst];
    try (apply guarded_by_quiet; rewrite ?forallb_app, Hsafe; reflexivity).
  destruct (prompt_get forceSchema _) as [[err|answer] w2]; cbn [trace_of fst];
    try (apply guarded_by_quiet; rewrite ?forallb_app, Hsafe; reflexivity).
  destruct (saysYes answer) eqn:Hy; unfold prepend; cbn [trace_of fst];
    try (apply guarded_by_quiet; rewrite ?forallb_app, Hsafe; reflexivity).
  rewrite <- app_assoc. cbn [app].
  apply guarded_by_key; [exact Hsafe|]. cbn. exact Hy.
Qed.

Lemma main_delete_consent (o : Z) (final : list string) (s : pstate W) :
  o <> 2%Z ->
  guarded_by is_force_consent is_forced_deletion
    (trace_of (main_delete o final s)) = true.
Proof.
  intros H2. destruct (Z.eqb o 1 || Z.eqb o 3) eqn:Ho.
  - rewrite main_delete_safe; [apply safe_then_offer_consent|].
    apply orb_prop in Ho. destruct Ho as [H|H]; apply Z.eqb_eq in H; auto.
  - unfold main_delete. rewrite Ho, (proj2 (Z.eqb_neq _ _) H2). reflexivity.
Qed.

Lemma main_selected_consent d bs (o : Z) (s : pstate W) :
  o <> 2%Z ->
  guarded_by is_force_consent is_forced_deletion
    (trace_of (main_selected d bs o s)) = true.
Proof.
  intros H2. unfold main_selected. rewrite trace_bind.
  apply guarded_by_app.
  { generalize (main_target_calm d bs o s). apply forallb_weaken.
    intros e He. apply andb_prop in He. destruct He as [He _].
    apply calm_no_deletion in He. apply forced_is_deletion.
    now destruct (is_deletion e). }
  destruct (result_of (main_target d bs o s)) as [final|c]; [|reflexivity].
  rewrite trace_bind. apply guarded_by_app.
  { generalize (confirmDisclaimer_quiet (state_of (main_target d bs o s))).
    apply forallb_weaken. intros e He. apply forced_is_deletion.
    destruct (is_deletion e); [|reflexivity]. now rewrite andb_false_r in He. }
  destruct (result_of (confirmDisclaimer _)); [|reflexivity].
  now apply main_delete_consent.
Qed.

Lemma menu_lines_harmless d bs : forallb harmless (menu_lines d bs) = true.
Proof.
  pose proof (menu_events_harmless d bs (inr 0%Z)) as H.
  unfold menu_events in H. rewrite forallb_app in H.
  now apply andb_prop in H.
Qed.

(** X12. No forced deletion without consent: in every run, a forced
    deletion subprocess comes after the answer 2 to the option prompt, or
    after the answer yes (or y) to the offer of a forced retry. *)
Theorem forced_deletion_needs_consent (w : W) (pre post : trace) (e : event) :
  trace_of (run w) = (pre ++ e :: post)%list ->
  is_forced_deletion e = true ->
  existsb is_force_consent pre = true.
Proof.
  apply guarded_by_spec.
  { intros e' He'. destruct e' as [| | | q [err|a] | q [err|o] | | |];
      try discriminate He'; reflexivity. }
  destruct (run_menu_shape w)
    as [[Hh _]|(d & l & head & r & s5 & Hhead & _ & _ & Hflag & _ & E)].
  { apply guarded_by_quiet. revert Hh. apply forallb_weaken.
    intros e' He'. now apply harmless_not_forced, head_event_harmless. }
  cbn zeta in E. set (bs := parseDetachedBranches (stdout l)) in *.
  assert (Hfront : forallb (fun e => negb (is_forced_deletion e))
                     (front head d bs r) = true).
  { generalize (front_harmless head d bs r Hhead). apply forallb_weaken.
    apply harmless_not_forced. }
  destruct r as [err|o]; [|destruct (Z.eqb o 4) eqn:Ho4]; rewrite E;
    unfold prepend; cbn [trace_of fst];
    try (apply guarded_by_quiet; rewrite forallb_app, Hfront; reflexivity).
  destruct (Z.eq_dec o 2) as [->|Hne].
  - unfold front, menu_events. rewrite app_assoc, <- app_assoc. cbn [app].
    apply guarded_by_key; [|reflexivity].
    rewrite forallb_app. apply andb_true_intro. split.
    + revert Hhead. apply forallb_weaken. intros e' He'.
      now apply harmless_not_forced, head_event_harmless.
    + generalize (menu_lines_harmless d bs).
      apply forallb_weaken, harmless_not_forced.
  - apply guarded_by_app; [exact Hfront|]. now apply main_selected_consent.
Qed.

Lemma consent_quiet (t : trace) :
  forallb (fun e => negb (is_checkout e)) t = true -> checkout_by_consent t.
Proof. now left. Qed.

Lemma consent_app_l (t1 t2 : trace) :
  checkout_by_consent t1 ->
  forallb (fun e => negb (is_checkout e)) t2 = true ->
  checkout_by_consent (t1 ++ t2)%list.
Proof.
  intros [H1|(pre & post & d & answer & c & -> & Hy & Hpre & Hpost)] H2.
  - left. now rewrite forallb_app, H1.
  - right. exists pre, (post ++ t2)%list, d, answer, c.
    rewrite <- app_assoc. cbn [app]. rewrite forallb_app, Hpost. auto.
Qed.

Lemma consent_app_r (t1 t2 : trace) :
  forallb (fun e => negb (is_checkout e)) t1 = true ->
  checkout_by_consent t2 ->
  checkout_by_consent (t1 ++ t2)%list.
Proof.
  intros H1 [H2|(pre & post & d & answer & c & -> & Hy & Hpre & Hpost)].
  - left. now rewrite forallb_app, H1.
  - right. exists (t1 ++ pre)%list, post, d, answer, c.
    rewrite <- app_assoc, forallb_app, H1. auto.
Qed.

Lemma guard_consent (bs : list string) (d : option string) (s : pstate W) :
  checkout_by_consent (trace_of (preCleanupCheck bs d s)).
Proof.
  destruct d as [[|a d]|]; try (now left).
  rewrite preCleanupCheck_run. unfold preCleanupCheck_unfolded.
  destruct (child_exec revParseCmd (world s)) as [r w1].
  destruct (failed r); [now left|].
  destruct (toLowerCase (trim (stdout r)) =? toLowerCase (String a d));
    [now left|].
  destruct (prompt_get (switchSchema (String a d)) w1) as [[err|answer] w2];
    [now left|].
  destruct (saysYes answer) eqn:Hy; [|now left].
  destruct (child_exec (checkoutCmd (String a d)) w2) as [c w3].
  right.
  exists [EvExec revParseCmd r; guard_notice (String a d) (trim (stdout r))],
    (if failed c then [] else [EvLog ("Switched to " ++ String a d ++ ".")]),
    (String a d), answer, c.
  now destruct (failed c).
Qed.

Lemma silent_no_checkout_event (e : event) :
  silent e = true -> negb (is_checkout e) = true.
Proof. unfold silent. destruct (is_checkout e); [|reflexivity]. now rewrite andb_false_r. Qed.

Lemma main_target_consent d bs (o : Z) (s : pstate W) :
  checkout_by_consent (trace_of (main_target d bs o s)).
Proof.
  unfold main_target. rewrite trace_bind. apply consent_app_r.
  { destruct d as [[|a d]|]; try reflexivity.
    destruct (Z.eqb o 3); [|reflexivity].
    now destruct (Nat.eqb (length (filter _ bs)) 0). }
  match goal with
  | |- context [result_of ?x] => destruct (result_of x) as [bs'|c]
  end; [|now left].
  rewrite trace_bind. apply consent_app_l; [apply guard_consent|].
  destruct (result_of (preCleanupCheck bs' d _)) as [[err|final]|c];
    try reflexivity.
  now destruct (Nat.eqb (length final) 0).
Qed.

(** X13. No checkout without consent: a run issues at most one checkout;
    it comes right after the answer yes (or y) to the question of the
    Guard, and is the checkout of the branch that the question named. *)
Theorem checkout_needs_consent (w : W) :
  let t := trace_of (run w) in
  forallb (fun e => negb (is_checkout e)) t = true \/
  exists pre post d answer c,
    t = (pre ++ EvPrompt (switchSchema d) (inr answer) ::
                EvExec (checkoutCmd d) c :: post)%list /\
    saysYes answer = true /\
    forallb (fun e => negb (is_checkout e)) pre = true /\
    forallb (fun e => negb (is_checkout e)) post = true.
Proof.
  change (checkout_by_consent (trace_of (run w))).
  destruct (run_menu_shape w)
    as [[Hh _]|(d & l & head & r & s5 & Hhead & _ & _ & Hflag & _ & E)].
  { left. revert Hh. apply forallb_weaken. intros e He.
    apply head_event_harmless in He. unfold harmless in He.
    destruct (is_checkout e); [|reflexivity].
    now rewrite andb_false_r in He. }
  cbn zeta in E. set (bs := parseDetachedBranches (stdout l)) in *.
  assert (Hfront : forallb (fun e => negb (is_checkout e)) (front head d bs r)
                   = true).
  { generalize (front_harmless head d bs r Hhead). apply forallb_weaken.
    intros e He. unfold harmless in He.
    destruct (is_checkout e); [|reflexivity]. now rewrite andb_false_r in He. }
  destruct r as [err|o]; [|destruct (Z.eqb o 4) eqn:Ho4]; rewrite E;
    unfold prepend; cbn [trace_of fst];
    try (left; rewrite forallb_app, Hfront; reflexivity).
  apply consent_app_r; [exact Hfront|].
  unfold main_selected. rewrite trace_bind.
  apply consent_app_l; [apply main_target_consent|].
  destruct (result_of (main_target d bs o s5)) as [final|c]; [|reflexivity].
  generalize (after_target_silent o final (state_of (main_target d bs o s5))).
  apply forallb_weaken, silent_no_checkout_event.
Qed.

End Consent.

(** ** How a run ends *)

Section Endings.

Context {W : Type} {host : Host W}.

Lemma ends_with_app (p : event -> bool) (t1 t2 : trace) :
  ends_with p t2 -> ends_with p (t1 ++ t2)%list.
Proof.
  intros (pre & e & -> & He). exists (t1 ++ pre)%list, e.
  now rewrite app_assoc.
Qed.

Lemma closes_bind {A B} (m : M W A) (f : A -> M W B) :
  closes m -> (forall a, closes (f a)) -> closes (bind m f).
Proof.
  intros Hm Hf s c. rewrite result_bind, trace_bind.
  destruct (result_of (m s)) as [a|c'] eqn:Hr.
  - intros Hc. destruct (Hf a _ c Hc) as [[-> He]|[-> He]]; [left | right];
      (split; [reflexivity | now apply ends_with_app]).
  - intros [= <-]. rewrite app_nil_r. now apply Hm.
Qed.

Lemma closes_returns {A} (m : M W A) : returns m -> closes m.
Proof. intros H s c Hc. destruct (H s) as [a Ha]. congruence. Qed.

Lemma closes_log_exit {A} (msg : string) :
  closes (console_log msg ;; @process_exit W A 0).
Proof.
  intros s c [= <-]. left. split; [reflexivity|]. now exists [], (EvLog msg).
Qed.

Lemma closes_error_exit {A} (msg : string) :
  closes (console_error msg ;; @process_exit W A 1).
Proof.
  intros s c [= <-]. right. split; [reflexivity|]. now exists [], (EvError msg).
Qed.

Lemma closes_error_obj_exit {A} (msg : string) (e : error) :
  closes (console_error_obj msg e ;; @process_exit W A 1).
Proof.
  intros s c [= <-]. right. split; [reflexivity|].
  now exists [], (EvErrorObj msg e).
Qed.

Lemma returns_ret {A} (a : A) : returns (W:=W) (ret a).
Proof. intros s. now exists a. Qed.

Lemma returns_exec (cmd : string) : returns (W:=W) (exec cmd).
Proof.
  intros s. unfold exec, result_of.
  destruct (child_exec cmd (world s)). eexists. reflexivity.
Qed.

Lemma returns_exists (path : string) : returns (W:=W) (existsSync path).
Proof.
  intros s. unfold existsSync, result_of.
  destruct (fs_existsSync path (world s)). eexists. reflexivity.
Qed.

Lemma returns_prompt (q : schema) : returns (W:=W) (prompt q).
Proof.
  intros s. unfold prompt, result_of.
  destruct (prompt_get q (world s)). eexists. reflexivity.
Qed.

Lemma returns_prompt_number (q : schema) : returns (W:=W) (prompt_number q).
Proof.
  intros s. unfold prompt_number, result_of.
  destruct (prompt_get_number q (world s)). eexists. reflexivity.
Qed.

Lemma returns_bind {A B} (m : M W A) (f : A -> M W B) :
  returns m -> (forall a, returns (f a)) -> returns (bind m f).
Proof.
  intros Hm Hf s. rewrite result_bind. destruct (Hm s) as [a ->]. apply Hf.
Qed.

Lemma returns_engine (forced : bool) (bs failed0 : list string) :
  returns (deleteNext forced bs failed0).
Proof.
  intros s. destruct (deleteNext_engine_run forced bs failed0 s) as (out & H & _).
  eauto.
Qed.

Lemma returns_forEach_log (f : string -> string) (l : list string) :
  returns (W:=W) (forEach_log f l).
Proof. intros s. rewrite forEach_log_run. now exists tt. Qed.

End Endings.

Ltac returns_step :=
  first
    [ apply returns_ret | apply returns_exec | apply returns_exists
    | apply returns_prompt | apply returns_prompt_number
    | apply returns_engine | apply returns_forEach_log
    | intros ?; eexists; reflexivity
    | apply returns_bind; [|intros]
    | case_step ].

Ltac closes_step :=
  first
    [ apply closes_log_exit | apply closes_error_exit
    | apply closes_error_obj_exit
    | solve [apply closes_returns; repeat returns_step]
    | apply closes_bind; [|intros]
    | case_step ].

Section EndingClaims.

Context {W : Type} {host : Host W}.

Lemma main_closes : closes (@main W host).
Proof.
  unfold main, main_selected, main_target, main_delete, deleteBranches,
    confirmDisclaimer, preCleanupCheck, getCurrentBranch, main_menu,
    getDetachedBranches, getDefaultMainBranch, branchExists, isGitRepo.
  repeat closes_step.
Qed.

(** X14. A run that ends the process ends it with status 0 right after a
    message on the standard output, or with status 1 right after a message
    on the error stream; there is no other status. *)
Theorem run_exit_status (w : W) (c : Z) :
  result_of (run w) = Exit c ->
  (c = 0%Z /\
   exists pre msg, trace_of (run w) = (pre ++ [EvLog msg])%list) \/
  (c = 1%Z /\
   exists pre e, trace_of (run w) = (pre ++ [e])%list /\
                 is_failure_report e = true).
Proof.
  intros Hc. destruct (main_closes (PState w false) c Hc)
    as [[-> (pre & e & E & He)]|[-> (pre & e & E & He)]]; [left | right];
    (split; [reflexivity|]).
  - destruct e; try discriminate He. eauto.
  - eauto.
Qed.

End EndingClaims.

(** ** Failures and their reports *)

Section Failures.

Context {W : Type} {host : Host W}.

Lemma no_failure_exec_other (cmd : string) (r : exec_result) :
  cmd <> revParseCmd -> cmd <> listingCmd -> no_failure (EvExec cmd r) = true.
Proof.
  intros H1 H2. unfold no_failure, failure_of.
  destruct (failed r); [|reflexivity].
  now rewrite (proj2 (String.eqb_neq _ _) H1), (proj2 (String.eqb_neq _ _) H2).
Qed.

Lemma no_failure_exec_ok (cmd : string) (r : exec_result) :
  failed r = false -> no_failure (EvExec cmd r) = true.
Proof. intros H. unfold no_failure, failure_of. now rewrite H. Qed.

Lemma reported_sound (e : error) (t : trace) :
  reported e t -> forallb no_failure t = true.
Proof. intros [[msg ->]| ->]; reflexivity. Qed.

Lemma settles_quiet {A} (m : M W A) : emits no_failure m -> settles m.
Proof. intros H s. left. apply H. Qed.

Lemma settles_bind {A B} (m : M W A) (f : A -> M W B) :
  settles m -> (forall a, settles (f a)) -> settles (bind m f).
Proof.
  intros Hm Hf s. unfold settled. rewrite trace_bind, result_bind.
  destruct (Hm s) as [Hs|(pre & ev & e & post & E & Hp & Hfl & Hrep & Hres)].
  - destruct (result_of (m s)) as [a|c].
    + destruct (Hf a (state_of (m s)))
        as [Hs'|(pre & ev & e & post & E & Hp & Hfl & Hrep & Hres)].
      * left. now rewrite forallb_app, Hs.
      * right. exists (trace_of (m s) ++ pre)%list, ev, e, post.
        rewrite E, app_assoc, forallb_app, Hs. auto.
    + left. now rewrite app_nil_r.
  - right. exists pre, ev, e, post. rewrite Hres, app_nil_r. auto.
Qed.

(** A function that hands its failure to its callback, and a callback
    that reports the error and ends the process with status 1. *)
Lemma settles_handler {A B} (m : M W (error + A)) (f : error + A -> M W B) :
  hands_over m ->
  (forall e s, exists rep, f (inl e) s = (rep, Exit 1, s) /\ reported e rep) ->
  (forall a, settles (f (inr a))) ->
  settles (bind m f).
Proof.
  intros Hm Hh Hf s. unfold settled. rewrite trace_bind, result_bind.
  destruct (Hm s) as [Hs|(pre & ev & e & E & Hp & Hfl & Hres)].
  - destruct (result_of (m s)) as [[e|a]|c].
    + destruct (Hh e (state_of (m s))) as (rep & -> & Hrep). left.
      cbn [trace_of fst]. now rewrite forallb_app, Hs, (reported_sound e).
    + destruct (Hf a (state_of (m s)))
        as [Hs'|(pre & ev & e & post & E & Hp & Hfl & Hrep & Hres)].
      * left. now rewrite forallb_app, Hs.
      * right. exists (trace_of (m s) ++ pre)%list, ev, e, post.
        rewrite E, app_assoc, forallb_app, Hs. auto.
    + left. now rewrite app_nil_r.
  - right. rewrite Hres.
    destruct (Hh e (state_of (m s))) as (rep & -> & Hrep).
    exists pre, ev, e, rep. cbn [trace_of result_of fst snd].
    rewrite E, <- app_assoc. auto.
Qed.

Lemma hands_over_prompt (q : schema) : hands_over (prompt q).
Proof.
  intros s. unfold prompt.
  destruct (prompt_get q (world s)) as [[err|a] w1]; [right | now left].
  now exists [], (EvPrompt q (inl err)), err.
Qed.

Lemma hands_over_resolver : hands_over (@getDefaultMainBranch W host).
Proof.
  intros s. rewrite getDefaultMainBranch_run.
  unfold getDefaultMainBranch_unfolded.
  destruct (child_exec (listCmd "main") (world s)) as [r1 w1].
  destruct (child_exec (listCmd "master") w1) as [r2 w2].
  assert (H1 : no_failure (EvExec (listCmd "main") r1) = true)
    by (apply no_failure_exec_other; discriminate).
  assert (H2 : no_failure (EvExec (listCmd "master") r2) = true)
    by (apply no_failure_exec_other; discriminate).
  destruct (exists_of r1 && exists_of r2).
  - destruct (prompt_get defaultSchema w2) as [[err|a] w3].
    + right.
      exists [EvExec (listCmd "main") r1; EvExec (listCmd "master") r2;
              EvPromptStart], (EvPrompt defaultSchema (inl err)), err.
      cbn [trace_of result_of fst snd app forallb]. now rewrite H1, H2.
    + left. cbn [trace_of fst app forallb]. now rewrite H1, H2.
  - left. cbn [trace_of fst app forallb]. now rewrite H1, H2.
Qed.

Lemma hands_over_listing : hands_over (@getDetachedBranches W host).
Proof.
  intros s. unfold getDetachedBranches, bind, exec.
  destruct (child_exec listingCmd (world s)) as [r w1].
  destruct (failed r) eqn:Hr.
  - right. exists [], (EvExec listingCmd r), listingError.
    unfold failure_of. rewrite Hr. repeat split.
  - left. cbn [ret trace_of fst app forallb].
    now rewrite (no_failure_exec_ok _ r Hr).
Qed.

Lemma hands_over_guard (bs : list string) (d : option string) :
  hands_over (@preCleanupCheck W host bs d).
Proof.
  intros s. destruct d as [[|a d]|]; try (now left).
  rewrite preCleanupCheck_run. unfold preCleanupCheck_unfolded.
  destruct (child_exec revParseCmd (world s)) as [r w1].
  destruct (failed r) eqn:Hr.
  { right. exists [], (EvExec revParseCmd r), currentBranchError.
    unfold failure_of. rewrite Hr. repeat split. }
  assert (H1 : no_failure (EvExec revParseCmd r) = true)
    by now apply no_failure_exec_ok.
  destruct (toLowerCase (trim (stdout r)) =? toLowerCase (String a d)).
  { left. cbn [trace_of fst forallb]. now rewrite H1. }
  destruct (prompt_get (switchSchema (String a d)) w1) as [[err|answer] w2].
  { right.
    exists [EvExec revParseCmd r; guard_notice (String a d) (trim (stdout r))],
      (EvPrompt (switchSchema (String a d)) (inl err)), err.
    cbn [trace_of result_of fst snd app forallb]. now rewrite H1. }
  destruct (saysYes answer).
  - destruct (child_exec (checkoutCmd (String a d)) w2) as [c w3].
    assert (H2 : no_failure (EvExec (checkoutCmd (String a d)) c) = true)
      by (apply no_failure_exec_other; discriminate).
    left. destruct (failed c); cbn [trace_of fst app forallb];
      now rewrite H1, H2.
  - left. cbn [trace_of fst forallb]. now rewrite H1.
Qed.

Lemma engine_run_failures (forced : bool) bs failed0 t out :
  engine_run forced bs failed0 t out ->
  match out with
  | inr _ => forallb no_failure t = true
  | inl e =>
      exists t0 r,
        t = (t0 ++ [EvExec revParseCmd r])%list /\
        forallb no_failure t0 = true /\
        failure_of (EvExec revParseCmd r) = Some e
  end.
Proof.
  assert (Hd : forall b d, no_failure (EvExec (delCmd forced b) d) = true).
  { intros b d. apply no_failure_exec_other; destruct forced; discriminate. }
  induction 1 as [ f0 | b bs f0 r Hr | b bs f0 r t out Hr Hb _ IH
                 | b bs f0 r d t out Hr Hb Hd' _ IH
                 | b bs f0 r d t out Hr Hb Hd' Hf Hi _ IH
                 | b bs f0 r d t out Hr Hb Hd' Hu _ IH ].
  - reflexivity.
  - exists [], r. unfold failure_of. rewrite Hr. repeat split.
  - destruct out as [e|fb].
    + destruct IH as (t0 & r' & -> & H0 & Hf').
      exists (EvExec revParseCmd r :: EvLog ("Skipping current branch: " ++ b) :: t0), r'.
      cbn [app forallb]. now rewrite (no_failure_exec_ok _ r Hr), H0.
    + cbn [forallb]. now rewrite (no_failure_exec_ok _ r Hr), IH.
  - destruct out as [e|fb].
    + destruct IH as (t0 & r' & -> & H0 & Hf').
      exists (EvExec revParseCmd r :: EvExec (delCmd forced b) d ::
              EvLog ("Deleted branch " ++ b) :: t0), r'.
      cbn [app forallb]. now rewrite (no_failure_exec_ok _ r Hr), Hd, H0.
    + cbn [forallb]. now rewrite (no_failure_exec_ok _ r Hr), Hd, IH.
  - destruct out as [e|fb].
    + destruct IH as (t0 & r' & -> & H0 & Hf').
      exists (EvExec revParseCmd r :: EvExec (delCmd forced b) d ::
              EvError ("Unable to delete " ++ b ++ " as it is not fully merged.")
              :: t0), r'.
      cbn [app forallb]. now rewrite (no_failure_exec_ok _ r Hr), Hd, H0.
    + cbn [forallb]. now rewrite (no_failure_exec_ok _ r Hr), Hd, IH.
  - destruct out as [e|fb].
    + destruct IH as (t0 & r' & -> & H0 & Hf').
      exists (EvExec revParseCmd r :: EvExec (delCmd forced b) d ::
              EvError ("Error deleting branch " ++ b ++ ": " ++ trim (stderr d))
              :: t0), r'.
      cbn [app forallb]. now rewrite (no_failure_exec_ok _ r Hr), Hd, H0.
    + cbn [forallb]. now rewrite (no_failure_exec_ok _ r Hr), Hd, IH.
Qed.

Lemma hands_over_engine (forced : bool) (bs failed0 : list string) :
  hands_over (@deleteNext W host forced bs failed0).
Proof.
  intros s.
  destruct (deleteNext_engine_run forced bs failed0 s) as (out & Ho & Hrun).
  apply engine_run_failures in Hrun. destruct out as [e|fb].
  - right. destruct Hrun as (t0 & r & E & H0 & Hf).
    exists t0, (EvExec revParseCmd r), e. auto.
  - now left.
Qed.

Lemma menu_lines_sound d bs : forallb no_failure (menu_lines d bs) = true.
Proof.
  unfold menu_lines. cbn [forallb]. rewrite forallb_app. cbn.
  rewrite andb_true_r. induction bs as [|b bs IH]; [reflexivity | exact IH].
Qed.

Lemma main_menu_settles d bs : settles (@main_menu W host d bs).
Proof.
  intros s. rewrite main_menu_run. unfold main_menu_unfolded, menu_events.
  pose proof (menu_lines_sound d bs) as Hl.
  destruct (prompt_get_number optionSchema (world s)) as [[err|o] w1].
  - right.
    exists (menu_lines d bs), (EvPromptNumber optionSchema (inl err)), err,
      [EvErrorObj "Prompt error:" err].
    cbn [trace_of result_of fst snd]. rewrite <- app_assoc.
    repeat split; try assumption. left. now exists "Prompt error:".
  - left. destruct (Z.eqb o 4); cbn [trace_of fst];
      rewrite !forallb_app, Hl; reflexivity.
Qed.

Lemma confirmDisclaimer_settles : settles (@confirmDisclaimer W host).
Proof.
  intros s. destruct (disclaimerConfirmed s) eqn:Hs.
  - left. unfold confirmDisclaimer, bind at 1, get_disclaimerConfirmed.
    now rewrite Hs.
  - rewrite (confirmDisclaimer_run s Hs). unfold confirmDisclaimer_unfolded.
    destruct (prompt_get confirmSchema (world s)) as [[err|answer] w1].
    + right.
      exists [EvLog warningMessage], (EvPrompt confirmSchema (inl err)), err,
        [EvErrorObj "Prompt error:" err].
      repeat split. left. now exists "Prompt error:".
    + left. now destruct (saysYes answer).
Qed.

End Failures.

(** A callback that prints the error and ends the process. *)
Ltac handler_step :=
  intros ? ?; eexists; split;
    [reflexivity | first [left; eexists; reflexivity | right; reflexivity]].

Ltac settles_step :=
  first
    [ apply main_menu_settles | apply confirmDisclaimer_settles
    | apply settles_handler;
        [ first [ apply hands_over_resolver | apply hands_over_listing
                | apply hands_over_guard | apply hands_over_engine
                | apply hands_over_prompt ]
        | handler_step
        | intros ]
    | solve [apply settles_quiet; emits_tac]
    | apply settles_bind; [|intros]
    | case_step ].

Section FailureClaims.

Context {W : Type} {host : Host W}.

Lemma main_settles : settles (@main W host).
Proof.
  unfold main, main_selected, main_target, main_delete, deleteBranches,
    isGitRepo.
  repeat settles_step.
Qed.

(** Where the failure of a settled trace is. *)
Lemma failure_place (pre post pre' post' : trace) (ev ev' : event) :
  (pre ++ ev :: post)%list = (pre' ++ ev' :: post')%list ->
  no_failure ev = false ->
  forallb no_failure pre' = true -> forallb no_failure post' = true ->
  pre = pre' /\ ev = ev' /\ post = post'.
Proof.
  revert pre'. induction pre as [|a pre IH]; intros [|a' pre'] E Hev Hp Hq;
    cbn in E; injection E as E1 E2.
  - auto.
  - exfalso. cbn in Hp. subst a'. now rewrite Hev in Hp.
  - exfalso. subst post'. rewrite forallb_app in Hq. cbn in Hq.
    rewrite Hev in Hq. now rewrite andb_false_r in Hq.
  - cbn in Hp. apply andb_prop in Hp. destruct Hp as [_ Hp].
    destruct (IH pre' E2 Hev Hp Hq) as (-> & -> & ->). now subst a'.
Qed.

(** X15. A failure that a function of the tool hands to its callback ends
    the run: after a failed prompt, a failed reading of the current branch
    or a failed listing, the run prints the error on the error stream and
    ends the process with status 1, and does nothing else.  It is the only
    such failure of the run. *)
Theorem failures_end_run (w : W) (pre post : trace) (ev : event) (e : error) :
  trace_of (run w) = (pre ++ ev :: post)%list ->
  failure_of ev = Some e ->
  result_of (run w) = Exit 1 /\
  ((exists msg, post = [EvErrorObj msg e]) \/
   post = [EvError (error_message e)]) /\
  forallb no_failure pre = true.
Proof.
  intros E Hf. unfold run in *.
  assert (Hev : no_failure ev = false) by (unfold no_failure; now rewrite Hf).
  destruct (main_settles (PState w false))
    as [Hs|(pre' & ev' & e' & post' & E' & Hp & Hf' & Hrep & Hres)].
  - exfalso. rewrite E, forallb_app in Hs. cbn in Hs. rewrite Hev in Hs.
    now rewrite andb_false_r in Hs.
  - rewrite E in E'.
    destruct (failure_place _ _ _ _ _ _ E' Hev Hp (reported_sound _ _ Hrep))
      as (-> & -> & ->).
    rewrite Hf in Hf'. injection Hf' as <-. auto.
Qed.

End FailureClaims.

(** ** The patterns of the prompts and the tests of the answers *)

Section Patterns.

Lemma matches_ci_iff (pat s : string) :
  matches_ci pat s = true <-> toLowerCase s = toLowerCase pat.
Proof.
  split; [apply matches_ci_lower|].
  revert s. induction pat as [|p pat IH]; intros [|c s]; cbn;
    try discriminate; [reflexivity|].
  intros [= Hc Hs]. rewrite Hc, Ascii.eqb_refl. now apply IH.
Qed.

Lemma matches_ci_lower_eqb (pat s : string) :
  toLowerCase pat = pat -> matches_ci pat s = (toLowerCase s =? pat).
Proof.
  intros Hp. destruct (toLowerCase s =? pat) eqn:E.
  - apply String.eqb_eq in E. apply matches_ci_iff. congruence.
  - apply String.eqb_neq in E. destruct (matches_ci pat s) eqn:M; [|reflexivity].
    apply matches_ci_iff in M. congruence.
Qed.

(** X16. The test of an answer and the pattern of its prompt agree: an
    answer is taken as yes exactly when it matches [yes] or [y] of the
    pattern, whatever the case of its letters; so every answer taken as yes
    is one the pattern admits, and an answer that the pattern admits and
    that is not taken as yes is [no] or [n]. *)
Theorem yes_no_pattern_agrees (answer : string) :
  saysYes answer = matches_ci "yes" answer || matches_ci "y" answer /\
  (saysYes answer = true -> accepts_yes_no answer = true) /\
  (accepts_yes_no answer = true -> saysYes answer = false ->
   toLowerCase answer = "no" \/ toLowerCase answer = "n").
Proof.
  assert (E : saysYes answer = matches_ci "yes" answer || matches_ci "y" answer).
  { unfold saysYes. now rewrite !matches_ci_lower_eqb. }
  split; [exact E|]. unfold accepts_yes_no. rewrite E. split.
  - intros H. apply orb_prop in H. destruct H as [-> | ->];
      now rewrite ?orb_true_r.
  - intros H Hn. apply orb_false_elim in Hn. destruct Hn as [H1 H2].
    rewrite H1, H2 in H. cbn [orb] in H. rewrite orb_false_r in H.
    apply orb_prop in H. destruct H as [H|H]; apply matches_ci_lower in H; auto.
Qed.

End Patterns.

(** ** The first version of the tool *)

Section LegacyRuns.

Context {W : Type} {host : Host W}.

Variable yesOrNo : validation.

Lemma legacy_main_menu_run (bs : list string) (s : pstate W) :
  Legacy.main_menu bs s =
  let (r, w1) := prompt_get_number optionSchema (world s) in
  let s1 := PState w1 (disclaimerConfirmed s) in
  let asked := (Legacy.menu_lines bs ++ [EvPromptNumber optionSchema r])%list in
  match r with
  | inl err => ((asked ++ [EvErrorObj "Prompt error:" err])%list, Exit 1, s1)
  | inr option =>
      if Z.eqb option 4 then
        ((asked ++ [EvLog "Operation cancelled."])%list, Exit 0, s1)
      else (asked, Ret option, s1)
  end.
Proof.
  unfold Legacy.main_menu, Legacy.menu_lines.
  rewrite bind_log, bind_forEach_log, !bind_log, !prepend_prepend.
  unfold bind, prompt_start, prompt_number, prepend.
  destruct (prompt_get_number optionSchema (world s)) as [[err|o] w1];
    [|destruct (Z.eqb o 4)];
    cbn [trace_of result_of state_of fst snd world disclaimerConfirmed
         console_error_obj console_log process_exit ret app];
    rewrite ?app_nil_r, <- ?app_assoc; reflexivity.
Qed.

Lemma legacy_run_eq (w : W) :
  Legacy.run yesOrNo w = Legacy.run_unfolded yesOrNo w.
Proof.
  unfold Legacy.run, Legacy.run_unfolded, Legacy.main. unfold bind at 1.
  unfold isGitRepo, existsSync. cbn [world disclaimerConfirmed].
  destruct (fs_existsSync ".git" w) as [repo w0].
  destruct repo; [|reflexivity]. cbn [negb].
  unfold bind at 1. unfold getDetachedBranches, bind at 1, exec.
  cbn [world disclaimerConfirmed].
  destruct (child_exec listingCmd w0) as [l w1].
  destruct (failed l); [reflexivity|]. cbn [ret app].
  destruct (Nat.eqb (length (parseDetachedBranches (stdout l))) 0);
    [reflexivity|].
  unfold prepend.
  destruct (bind (Legacy.main_menu (parseDetachedBranches (stdout l))) _ _)
    as [[t2 r2] s2].
  reflexivity.
Qed.

(** A run that reached the menu, by the answer to the option prompt. *)
Lemma legacy_run_menu (w : W) (l : exec_result) (w0 w1 : W) :
  fs_existsSync ".git" w = (true, w0) ->
  child_exec listingCmd w0 = (l, w1) ->
  failed l = false ->
  parseDetachedBranches (stdout l) <> [] ->
  exists r s5,
    match r with
    | inl err =>
        Legacy.run yesOrNo w =
        ((Legacy.front l r ++ [EvErrorObj "Prompt error:" err])%list, Exit 1, s5)
    | inr o =>
        if Z.eqb o 4 then
          Legacy.run yesOrNo w =
          ((Legacy.front l r ++ [EvLog "Operation cancelled."])%list, Exit 0, s5)
        else
          Legacy.run yesOrNo w =
          prepend (Legacy.front l r)
            (Legacy.main_selected yesOrNo (parseDetachedBranches (stdout l)) o s5)
    end.
Proof.
  intros Hrepo Hlist Hl Hne. rewrite legacy_run_eq. unfold Legacy.run_unfolded.
  rewrite Hrepo, Hlist, Hl. cbn [negb].
  destruct (parseDetachedBranches (stdout l)) as [|b bs] eqn:Hbs;
    [now elim Hne|].
  cbn [length Nat.eqb]. rewrite bind_run, legacy_main_menu_run.
  cbn [world disclaimerConfirmed].
  destruct (prompt_get_number optionSchema w1) as [r w2].
  exists r, (PState w2 false). unfold Legacy.front. rewrite Hbs.
  destruct r as [err|o]; [|destruct (Z.eqb o 4)];
    unfold prepend; cbn [trace_of result_of state_of fst snd app];
    rewrite <- ?app_assoc; reflexivity.
Qed.

Lemma legacy_menu_lines_harmless (bs : list string) :
  forallb harmless (Legacy.menu_lines bs) = true.
Proof.
  unfold Legacy.menu_lines. cbn [forallb]. rewrite forallb_app.
  cbn. rewrite andb_true_r.
  induction bs as [|b bs IH]; [reflexivity | exact IH].
Qed.

Lemma legacy_front_harmless (l : exec_result) (r : error + Z) :
  forallb harmless (Legacy.front l r) = true.
Proof.
  unfold Legacy.front. cbn [forallb]. rewrite forallb_app.
  now rewrite legacy_menu_lines_harmless.
Qed.

Lemma legacy_front_events (l : exec_result) (r : error + Z) (e : event) :
  In e (Legacy.front l r) ->
  e = EvExists ".git" true \/ e = EvExec listingCmd l \/
  e = EvPromptNumber optionSchema r \/ e = EvPromptStart \/
  exists msg, e = EvLog msg.
Proof.
  unfold Legacy.front, Legacy.menu_lines.
  intros [<-|[<-|H]]; auto.
  apply in_app_or in H. destruct H as [[<-|H]|[<-|[]]]; eauto 6.
  apply in_app_or in H. destruct H as [H|H].
  - apply in_map_iff in H. destruct H as (b & <- & _). eauto 6.
  - repeat (destruct H as [<-|H]; [eauto 6|]). destruct H.
Qed.

Lemma legacy_main_delete_within (o : Z) (final bs : list string) :
  incl final bs -> emits (within bs) (@Legacy.main_delete W host yesOrNo o final).
Proof.
  intros Hi.
  assert (He : forall forced names, incl names bs ->
                 emits (within bs) (deleteBranches names forced)).
  { intros forced names Hn. unfold deleteBranches.
    generalize (engine_within forced names []). apply emits_weaken.
    intros e. now apply within_incl. }
  unfold Legacy.main_delete. apply emits_bind.
  - destruct (Z.eqb o 1 || Z.eqb o 3); [|apply emits_ret].
    apply emits_bind_result; [now apply He|].
    intros [err|fb] [s E]; [emits_tac|].
    destruct (Nat.ltb 0 (length fb)); [|emits_tac].
    apply emits_bind; [emits_tac | intros [err|answer]]; [emits_tac|].
    destruct (toLowerCase answer =? "yes"); [|emits_tac].
    apply emits_bind; [|intros; emits_tac].
    apply He. intros x Hx. apply Hi.
    now apply (engine_result_incl false final s fb).
  - intros _. destruct (Z.eqb o 2); [|apply emits_ret].
    apply emits_bind; [now apply He | intros; emits_tac].
Qed.

Lemma legacy_main_filter_result (o : Z) (bs final : list string) (s : pstate W) :
  result_of (Legacy.main_filter o bs s) = Ret final ->
  final = if Z.eqb o 3 then filter Legacy.notMainNorMaster bs else bs.
Proof.
  unfold Legacy.main_filter. destruct (Z.eqb o 3); [|now intros [= <-]].
  cbn zeta. destruct (filter Legacy.notMainNorMaster bs) as [|b l].
  - discriminate.
  - now intros [= <-].
Qed.

Lemma legacy_main_filter_quiet (o : Z) (bs : list string) (p : event -> bool) :
  (forall msg, p (EvLog msg) = true) ->
  emits (W:=W) p (Legacy.main_filter o bs).
Proof.
  intros Hp. unfold Legacy.main_filter. destruct (Z.eqb o 3); [|apply emits_ret].
  cbn zeta. destruct (Nat.eqb _ 0); [|apply emits_ret].
  apply emits_bind; [apply emits_log, Hp | intros; apply emits_exit].
Qed.

(** The names that the choice hands to the deletion. *)
Lemma legacy_main_selected_within (bs : list string) (o : Z) :
  emits (within (if Z.eqb o 3 then filter Legacy.notMainNorMaster bs else bs))
    (@Legacy.main_selected W host yesOrNo bs o).
Proof.
  unfold Legacy.main_selected. apply emits_bind_result.
  - now apply legacy_main_filter_quiet.
  - intros final [s E]. apply legacy_main_filter_result in E. subst final.
    apply legacy_main_delete_within, incl_refl.
Qed.

Lemma legacy_main_selected_no_number (bs : list string) (o : Z) :
  emits (fun e => negb (is_number_prompt e) && negb (is_listing e))
    (@Legacy.main_selected W host yesOrNo bs o).
Proof.
  unfold Legacy.main_selected, Legacy.main_delete, deleteBranches.
  apply emits_bind; [now apply legacy_main_filter_quiet | intros final].
  repeat first
    [ apply deleteNext_emits; intros; try reflexivity;
      match goal with |- context [delCmd ?f _] => now destruct f end
    | emits_step ].
Qed.

(** A run of the first version, by how far it got. *)
Lemma legacy_run_shape (w : W) :
  ((trace_of (Legacy.run yesOrNo w) =
      [EvExists ".git" false; EvError repoError] \/
    exists l,
      (failed l = true /\
       trace_of (Legacy.run yesOrNo w) =
         [EvExists ".git" true; EvExec listingCmd l;
          EvError "Error running 'git branch -vv'."]) \/
      (failed l = false /\ parseDetachedBranches (stdout l) = [] /\
       result_of (Legacy.run yesOrNo w) = Exit 0 /\
       trace_of (Legacy.run yesOrNo w) =
         [EvExists ".git" true; EvExec listingCmd l; EvLog noneFound])) /\
   exists c, result_of (Legacy.run yesOrNo w) = Exit c) \/
  (exists l r s5,
     failed l = false /\ parseDetachedBranches (stdout l) <> [] /\
     match r with
     | inl err =>
         Legacy.run yesOrNo w =
         ((Legacy.front l r ++ [EvErrorObj "Prompt error:" err])%list, Exit 1, s5)
     | inr o =>
         if Z.eqb o 4 then
           Legacy.run yesOrNo w =
           ((Legacy.front l r ++ [EvLog "Operation cancelled."])%list, Exit 0, s5)
         else
           Legacy.run yesOrNo w =
           prepend (Legacy.front l r)
             (Legacy.main_selected yesOrNo (parseDetachedBranches (stdout l)) o s5)
     end).
Proof.
  destruct (fs_existsSync ".git" w) as [repo w0] eqn:Hrepo.
  destruct (child_exec listingCmd w0) as [l w1] eqn:Hlist.
  destruct repo.
  2:{ left. rewrite legacy_run_eq. unfold Legacy.run_unfolded. rewrite Hrepo.
      split; [now left | now exists 1%Z]. }
  destruct (failed l) eqn:Hl.
  { left. rewrite legacy_run_eq. unfold Legacy.run_unfolded.
    rewrite Hrepo, Hlist, Hl. split; [|now exists 1%Z].
    right. exists l. left. now split. }
  destruct (parseDetachedBranches (stdout l)) as [|b bs] eqn:Hbs.
  { left. rewrite legacy_run_eq. unfold Legacy.run_unfolded.
    rewrite Hrepo, Hlist, Hl, Hbs. split; [|now exists 0%Z].
    right. exists l. right. now repeat split. }
  right.
  destruct (legacy_run_menu w l w0 w1 Hrepo Hlist Hl) as (r & s5 & Hr).
  { rewrite Hbs. discriminate. }
  exists l, r, s5. rewrite Hbs in *.
  split; [first [reflexivity | exact Hl]|]. split; [discriminate | exact Hr].
Qed.

Lemma legacy_front_tail (l : exec_result) (r : error + Z) (e : event) :
  In e (Legacy.menu_lines (parseDetachedBranches (stdout l)) ++
        [EvPromptNumber optionSchema r])%list ->
  e = EvPromptNumber optionSchema r \/ e = EvPromptStart \/
  exists msg, e = EvLog msg.
Proof.
  intros H.
  assert (H' : In e (Legacy.front l r)) by (right; right; exact H).
  apply legacy_front_events in H'.
  destruct H' as [->|[->|H']]; [exfalso..|exact H'].
  - apply in_app_or in H. destruct H as [H|[H|[]]]; [|discriminate H].
    pose proof (legacy_menu_lines_harmless (parseDetachedBranches (stdout l))) as Hh.
    unfold Legacy.menu_lines in H. destruct H as [H|H]; [discriminate H|].
    apply in_app_or in H. destruct H as [H|H].
    + apply in_map_iff in H. destruct H as (b & E & _). discriminate E.
    + repeat (destruct H as [E|H]; [discriminate E|]). destruct H.
  - apply in_app_or in H. destruct H as [H|[H|[]]]; [|discriminate H].
    unfold Legacy.menu_lines in H. destruct H as [H|H]; [discriminate H|].
    apply in_app_or in H. destruct H as [H|H].
    + apply in_map_iff in H. destruct H as (b & E & _). discriminate E.
    + repeat (destruct H as [E|H]; [discriminate E|]). destruct H.
Qed.

(** What follows the front of a run that reached the menu holds neither
    an option prompt nor a listing. *)
Lemma legacy_after_front (w : W) (l : exec_result) (r : error + Z)
  (s5 : pstate W) :
  match r with
  | inl err =>
      Legacy.run yesOrNo w =
      ((Legacy.front l r ++ [EvErrorObj "Prompt error:" err])%list, Exit 1, s5)
  | inr o =>
      if Z.eqb o 4 then
        Legacy.run yesOrNo w =
        ((Legacy.front l r ++ [EvLog "Operation cancelled."])%list, Exit 0, s5)
      else
        Legacy.run yesOrNo w =
        prepend (Legacy.front l r)
          (Legacy.main_selected yesOrNo (parseDetachedBranches (stdout l)) o s5)
  end ->
  exists tl,
    trace_of (Legacy.run yesOrNo w) = (Legacy.front l r ++ tl)%list /\
    forallb (fun e => negb (is_number_prompt e) && negb (is_listing e)) tl = true /\
    forallb (within (match r with
                     | inr 3%Z =>
                         filter Legacy.notMainNorMaster
                           (parseDetachedBranches (stdout l))
                     | _ => parseDetachedBranches (stdout l)
                     end)) tl = true.
Proof.
  destruct r as [err|o]; [|destruct (Z.eqb o 4) eqn:Ho4]; intros ->.
  - now exists [EvErrorObj "Prompt error:" err].
  - exists [EvLog "Operation cancelled."]. repeat split.
  - eexists. split; [reflexivity|]. split.
    + apply legacy_main_selected_no_number.
    + pose proof (legacy_main_selected_within
                    (parseDetachedBranches (stdout l)) o s5) as H.
      destruct (Z.eqb o 3) eqn:Ho3.
      * apply Z.eqb_eq in Ho3. now subst o.
      * replace (match o with 3%Z => _ | _ => parseDetachedBranches (stdout l) end)
          with (parseDetachedBranches (stdout l)); [exact H|].
        destruct o as [|[[]|[]|]|]; try reflexivity. discriminate Ho3.
Qed.

(** X17. The first version lists before it asks.  In every run of it the
    listing is the second event, right after the repository check, so no
    prompt comes before it; and a run whose listing holds no stale branch
    is the repository check, the listing and one message, and ends with
    status 0: it issues no prompt at all. *)
Theorem legacy_lists_before_it_asks (w : W) :
  (forall i l,
     nth_error (trace_of (Legacy.run yesOrNo w)) i = Some (EvExec listingCmd l) ->
     i = 1 /\
     nth_error (trace_of (Legacy.run yesOrNo w)) 0 = Some (EvExists ".git" true)) /\
  (forall l,
     In (EvExec listingCmd l) (trace_of (Legacy.run yesOrNo w)) ->
     failed l = false ->
     parseDetachedBranches (stdout l) = [] ->
     trace_of (Legacy.run yesOrNo w) =
       [EvExists ".git" true; EvExec listingCmd l; EvLog noneFound] /\
     result_of (Legacy.run yesOrNo w) = Exit 0).
Proof.
  destruct (legacy_run_shape w)
    as [[[E|[l' [[Hl E]|(Hl & Hp & Hres & E)]]] _]|(l' & r & s5 & Hl & Hne & Hr)].
  - rewrite E. split.
    + intros [|[|[|i]]] l H; discriminate H.
    + intros l [H|[H|[]]]; discriminate H.
  - rewrite E. split.
    + intros [|[|[|[|i]]]] l H; try discriminate H. now split.
    + intros l [H|[H|[H|[]]]]; try discriminate H. injection H as <-. congruence.
  - rewrite E. split.
    + intros [|[|[|[|i]]]] l H; try discriminate H. now split.
    + intros l [H|[H|[H|[]]]]; try discriminate H. injection H as <-. now split.
  - destruct (legacy_after_front w l' r s5 Hr) as (tl & E & Htl & _).
    rewrite E. unfold Legacy.front. cbn [app].
    assert (Hrest : forall l,
              ~ In (EvExec listingCmd l)
                  ((Legacy.menu_lines (parseDetachedBranches (stdout l')) ++
                    [EvPromptNumber optionSchema r]) ++ tl)%list).
    { intros l H. apply in_app_or in H. destruct H as [H|H].
      - apply legacy_front_tail in H.
        destruct H as [H|[H|[msg H]]]; discriminate H.
      - rewrite forallb_forall in Htl. apply Htl in H. discriminate H. }
    split.
    + intros [|[|i]] l H; try discriminate H; [now split|].
      cbn [nth_error] in H. apply nth_error_In in H. now apply Hrest in H.
    + intros l [H|[H|H]]; [discriminate H| |now apply Hrest in H].
      injection H as <-. intros _ Hp. now elim Hne.
Qed.

(** X18. Option 3 of the first version keeps main and master: in a run
    whose option prompt was answered by 3, no deletion subprocess is about
    a name equal to [main] or to [master], whatever the case of its
    letters. *)
Theorem legacy_option_three_keeps_main_master (w : W) (cmd : string)
  (x : exec_result) :
  In (EvPromptNumber optionSchema (inr 3%Z)) (trace_of (Legacy.run yesOrNo w)) ->
  In (EvExec cmd x) (trace_of (Legacy.run yesOrNo w)) ->
  is_deletion_cmd cmd = true ->
  toLowerCase (deletion_target cmd) <> "main" /\
  toLowerCase (deletion_target cmd) <> "master".
Proof.
  intros Hopt Hin Hc.
  destruct (legacy_run_shape w)
    as [[[E|[l' [[Hl E]|(Hl & Hp & Hres & E)]]] _]|(l' & r & s5 & Hl & Hne & Hr)];
    try (exfalso; rewrite E in Hopt;
         repeat (destruct Hopt as [Hopt|Hopt]; [discriminate Hopt|]);
         now destruct Hopt).
  destruct (legacy_after_front w l' r s5 Hr) as (tl & E & Htl & Hw).
  rewrite E in *.
  assert (Hr3 : r = inr 3%Z).
  { apply in_app_or in Hopt. destruct Hopt as [H|H].
    - apply legacy_front_events in H.
      destruct H as [H|[H|[H|[H|[msg H]]]]]; try discriminate H.
      now injection H as <-.
    - rewrite forallb_forall in Htl. apply Htl in H. discriminate H. }
  subst r.
  assert (Ht : In (deletion_target cmd)
                 (filter Legacy.notMainNorMaster (parseDetachedBranches (stdout l')))).
  { apply in_app_or in Hin. destruct Hin as [H|H].
    - exfalso. apply legacy_front_events in H.
      destruct H as [H|[H|[H|[H|[msg H]]]]]; try discriminate H.
      injection H as -> _. discriminate Hc.
    - rewrite forallb_forall in Hw. apply Hw in H.
      now apply (within_spec _ cmd x). }
  apply filter_In in Ht. destruct Ht as [_ Ht].
  unfold Legacy.notMainNorMaster in Ht. apply andb_prop in Ht.
  destruct Ht as [H1 H2]. split; intros Heq; rewrite Heq in *; discriminate.
Qed.

Lemma legacy_main_rereads : rereads (@Legacy.main W host yesOrNo).
Proof.
  unfold Legacy.main, Legacy.main_selected, Legacy.main_filter,
    Legacy.main_delete, Legacy.main_menu, deleteBranches, getDetachedBranches,
    isGitRepo.
  repeat first
    [ apply rereads_engine
    | solve [apply rereads_quiet, forEach_log_emits; intros; reflexivity]
    | apply rereads_bind; [|intros]
    | solve [apply rereads_quiet; emits_tac]
    | case_step ].
Qed.

Lemma legacy_menu_lines_show (bs : list string) (b : string) :
  In b bs -> In (EvLog ("  " ++ bullet ++ " " ++ b)) (Legacy.menu_lines bs).
Proof.
  intros H. unfold Legacy.menu_lines. right. apply in_or_app. left.
  apply (in_map (fun b => EvLog ("  " ++ bullet ++ " " ++ b))), H.
Qed.

(** X19. What the first version deletes: every deletion subprocess of a
    run comes right after a successful reading of the current branch that
    gave another name than the one deleted, and is about a name that the
    lister found in the output of the listing of that run and that the
    menu of that run showed. *)
Theorem legacy_run_deletions (w : W) :
  reread_before_deletion (trace_of (Legacy.run yesOrNo w)) /\
  (forall cmd x,
     In (EvExec cmd x) (trace_of (Legacy.run yesOrNo w)) ->
     is_deletion_cmd cmd = true ->
     (exists l,
        In (EvExec listingCmd l) (trace_of (Legacy.run yesOrNo w)) /\
        failed l = false /\
        In (deletion_target cmd) (parseDetachedBranches (stdout l))) /\
     In (EvLog ("  " ++ bullet ++ " " ++ deletion_target cmd))
       (trace_of (Legacy.run yesOrNo w))).
Proof.
  split; [apply legacy_main_rereads|]. intros cmd x Hin Hc.
  destruct (legacy_run_shape w)
    as [[[E|[l' [[Hl E]|(Hl & Hp & Hres & E)]]] _]|(l' & r & s5 & Hl & Hne & Hr)];
    try (exfalso; rewrite E in Hin;
         repeat (destruct Hin as [Hin|Hin];
                 [first [ discriminate Hin
                        | injection Hin as Hcmd _; rewrite <- Hcmd in Hc;
                          discriminate Hc ]|]);
         now destruct Hin).
  destruct (legacy_after_front w l' r s5 Hr) as (tl & E & _ & Hw).
  rewrite E in *.
  assert (Ht : In (deletion_target cmd) (parseDetachedBranches (stdout l'))).
  { apply in_app_or in Hin. destruct Hin as [H|H].
    - exfalso. apply legacy_front_events in H.
      destruct H as [H|[H|[H|[H|[msg H]]]]]; try discriminate H.
      injection H as -> _. discriminate Hc.
    - rewrite forallb_forall in Hw. apply Hw in H.
      apply (within_spec _ cmd x) in H; [|exact Hc].
      destruct r as [err|[|[[]|[]|]|]]; try exact H.
      apply filter_In in H. now destruct H. }
  split.
  - exists l'. split; [apply in_or_app; left; right; now left|]. now split.
  - apply in_or_app. left. unfold Legacy.front. right. right.
    apply in_or_app. left. now apply legacy_menu_lines_show.
Qed.

Lemma trace_bind_prompt {A} (q : schema) (k : error + string -> M W A)
  (s : pstate W) :
  trace_of (bind (prompt q) k s) =
  let (r, w1) := prompt_get q (world s) in
  EvPrompt q r :: trace_of (k r (PState w1 (disclaimerConfirmed s))).
Proof.
  unfold bind, prompt, trace_of.
  destruct (prompt_get q (world s)) as [r w1].
  now destruct (k r _) as [[t r'] s'].
Qed.

Lemma legacy_main_delete_consent (o : Z) (final : list string) (s : pstate W) :
  o <> 2%Z ->
  guarded_by Legacy.is_force_consent is_forced_deletion
    (trace_of (Legacy.main_delete yesOrNo o final s)) = true.
Proof.
  intros H2. unfold Legacy.main_delete. rewrite trace_bind.
  rewrite (proj2 (Z.eqb_neq _ _) H2).
  replace (match result_of _ with Ret _ => _ | Exit _ => [] end) with (@nil event)
    by (now destruct (result_of _)).
  rewrite app_nil_r.
  destruct (Z.eqb o 1 || Z.eqb o 3); [|reflexivity].
  rewrite trace_bind. apply guarded_by_app.
  { apply (engine_safe_not_forced final [] s). }
  destruct (result_of (deleteBranches final false s)) as [[err|fb]|c];
    try reflexivity.
  destruct (Nat.ltb 0 (length fb)); [|reflexivity].
  rewrite trace_bind_prompt.
  destruct (prompt_get (Legacy.forceSchema yesOrNo fb) _) as [[err|answer] w2];
    [reflexivity|].
  cbn [guarded_by Legacy.is_force_consent is_forced_deletion name
       Legacy.forceSchema].
  destruct (toLowerCase answer =? "yes"); reflexivity.
Qed.

(** X20. No forced deletion without consent in the first version: a
    forced deletion subprocess comes after the answer 2 to the option
    prompt, or after the answer yes to the offer of a forced retry.  The
    answer y is no consent here. *)
Theorem legacy_forced_deletion_needs_consent (w : W) (pre post : trace)
  (e : event) :
  trace_of (Legacy.run yesOrNo w) = (pre ++ e :: post)%list ->
  is_forced_deletion e = true ->
  existsb Legacy.is_force_consent pre = true /\
  (forall q, Legacy.is_force_consent (EvPrompt q (inr "y")) = false).
Proof.
  intros E He. split; [|intros q; cbn; apply andb_false_r].
  revert pre e post E He. apply guarded_by_spec.
  { intros e' He'. destruct e' as [| | | q [err|a] | q [err|o] | | |];
      try discriminate He'; reflexivity. }
  destruct (legacy_run_shape w)
    as [[[E|[l' [[Hl E]|(Hl & Hp & Hres & E)]]] _]|(l' & r & s5 & Hl & Hne & Hr)];
    try (rewrite E; reflexivity).
  assert (Hfront : forallb (fun e => negb (is_forced_deletion e))
                     (Legacy.front l' r) = true).
  { generalize (legacy_front_harmless l' r). apply forallb_weaken.
    apply harmless_not_forced. }
  destruct r as [err|o]; [|destruct (Z.eqb o 4) eqn:Ho4]; rewrite Hr;
    unfold prepend; cbn [trace_of fst];
    try (apply guarded_by_quiet; rewrite forallb_app, Hfront; reflexivity).
  destruct (Z.eq_dec o 2) as [->|Hne2].
  - unfold Legacy.front in *. cbn [app] in *. rewrite <- app_assoc. cbn [app].
    change (?a :: ?b :: (?m ++ ?k :: ?t))%list with ((a :: b :: m) ++ k :: t)%list.
    apply guarded_by_key; [|reflexivity].
    cbn [forallb].
    now rewrite (forallb_weaken harmless _ _ harmless_not_forced
                   (legacy_menu_lines_harmless _)).
  - apply guarded_by_app; [exact Hfront|].
    unfold Legacy.main_selected. rewrite trace_bind. apply guarded_by_app.
    { apply (legacy_main_filter_quiet o _ (fun e => negb (is_forced_deletion e))).
      reflexivity. }
    destruct (result_of (Legacy.main_filter o _ s5)); [|reflexivity].
    now apply legacy_main_delete_consent.
Qed.

Lemma legacy_main_closes : closes (@Legacy.main W host yesOrNo).
Proof.
  unfold Legacy.main, Legacy.main_selected, Legacy.main_filter,
    Legacy.main_delete, Legacy.main_menu, deleteBranches, getDetachedBranches,
    isGitRepo.
  repeat closes_step.
Qed.

Lemma legacy_menu_lines_sound (bs : list string) :
  forallb no_failure (Legacy.menu_lines bs) = true.
Proof.
  unfold Legacy.menu_lines. cbn [forallb]. rewrite forallb_app. cbn.
  rewrite andb_true_r. induction bs as [|b bs IH]; [reflexivity | exact IH].
Qed.

Lemma legacy_main_menu_settles (bs : list string) :
  settles (@Legacy.main_menu W host bs).
Proof.
  intros s. rewrite legacy_main_menu_run.
  pose proof (legacy_menu_lines_sound bs) as Hl.
  destruct (prompt_get_number optionSchema (world s)) as [[err|o] w1].
  - right.
    exists (Legacy.menu_lines bs), (EvPromptNumber optionSchema (inl err)), err,
      [EvErrorObj "Prompt error:" err].
    cbn [trace_of result_of fst snd]. rewrite <- app_assoc.
    repeat split; try assumption. left. now exists "Prompt error:".
  - left. destruct (Z.eqb o 4); cbn [trace_of fst];
      rewrite !forallb_app, Hl; reflexivity.
Qed.

Lemma legacy_main_settles : settles (@Legacy.main W host yesOrNo).
Proof.
  unfold Legacy.main, Legacy.main_selected, Legacy.main_filter,
    Legacy.main_delete, deleteBranches, isGitRepo.
  repeat first [apply legacy_main_menu_settles | settles_step].
Qed.

(** X21. How a run of the first version ends.  When it ends the process,
    the status is 0 right after a message on the standard output, or 1
    right after a message on the error stream.  And a failure that a
    function hands to its callback (a failed prompt, a failed reading of
    the current branch, a failed listing) ends the run: the run prints the
    error on the error stream and ends the process with status 1, and does
    nothing else. *)
Theorem legacy_run_endings (w : W) :
  (forall c,
     result_of (Legacy.run yesOrNo w) = Exit c ->
     (c = 0%Z /\
      exists pre msg,
        trace_of (Legacy.run yesOrNo w) = (pre ++ [EvLog msg])%list) \/
     (c = 1%Z /\
      exists pre e,
        trace_of (Legacy.run yesOrNo w) = (pre ++ [e])%list /\
        is_failure_report e = true)) /\
  (forall pre ev post e,
     trace_of (Legacy.run yesOrNo w) = (pre ++ ev :: post)%list ->
     failure_of ev = Some e ->
     result_of (Legacy.run yesOrNo w) = Exit 1 /\
     ((exists msg, post = [EvErrorObj msg e]) \/
      post = [EvError (error_message e)]) /\
     forallb no_failure pre = true).
Proof.
  unfold Legacy.run. split.
  - intros c Hc. destruct (legacy_main_closes (PState w false) c Hc)
      as [[-> (pre & e & E & He)]|[-> (pre & e & E & He)]]; [left | right];
      (split; [reflexivity|]).
    + destruct e; try discriminate He. eauto.
    + eauto.
  - intros pre ev post e E Hf.
    assert (Hev : no_failure ev = false) by (unfold no_failure; now rewrite Hf).
    destruct (legacy_main_settles (PState w false))
      as [Hs|(pre' & ev' & e' & post' & E' & Hp & Hf' & Hrep & Hres)].
    + exfalso. rewrite E, forallb_app in Hs. cbn in Hs. rewrite Hev in Hs.
      now rewrite andb_false_r in Hs.
    + rewrite E in E'.
      destruct (failure_place _ _ _ _ _ _ E' Hev Hp (reported_sound _ _ Hrep))
        as (-> & -> & ->).
      rewrite Hf in Hf'. injection Hf' as <-. auto.
Qed.

End LegacyRuns.

(** ** Sample sessions *)

Lemma engine_never_deletes_current_sample :
  let t := trace_of (deleteBranches ["alpha"; "beta"] true (PState skip_session false)) in
  (nth_error t 1 = Some (EvExec "git branch -D alpha" (ExecResult false "" "")) /\
   is_deletion_cmd "git branch -D alpha" = true) /\
  exists j r b,
    1 = S j /\ nth_error t j = Some (EvExec revParseCmd r) /\
    failed r = false /\ In b ["alpha"; "beta"] /\
    "git branch -D alpha" = delCmd true b /\ trim (stdout r) <> b.
Proof.
  split; [split; reflexivity|].
  apply (proj1 (engine_never_deletes_current ["alpha"; "beta"] true
                  (PState skip_session false))
           1 "git branch -D alpha" (ExecResult false "" ""));
    reflexivity.
Defined.

Lemma lister_classifies_lines_sample :
  all_in is_space "   " = true /\
  (match_line "   " = None /\ stale_of_line "   " = []).
Proof.
  split; [reflexivity|].
  apply (proj1 (proj2 lister_classifies_lines)). reflexivity.
Defined.

Lemma disclaimer_gates_deletion_sample :
  let t := trace_of (run cleanup_session) in
  let e := EvExec "git branch -d bugfix"
             (ExecResult true ""
                "error: The branch 'bugfix' is not fully merged.") in
  (t = (firstn 21 t ++ e :: skipn 22 t)%list /\ is_deletion e = true) /\
  existsb is_affirmation (firstn 21 t) = true.
Proof.
  split; [split; vm_compute; reflexivity|].
  apply (proj1 (disclaimer_gates_deletion cleanup_session)
           (firstn 21 (trace_of (run cleanup_session)))
           (EvExec "git branch -d bugfix"
              (ExecResult true ""
                 "error: The branch 'bugfix' is not fully merged."))
           (skipn 22 (trace_of (run cleanup_session))));
    vm_compute; reflexivity.
Defined.

Lemma forced_retry_offer_sample :
  let t := trace_of (run cleanup_session) in
  let pre := firstn 26 t in
  let post := skipn 27 t in
  (t = (pre ++ EvPrompt forceSchema (inr "y") :: post)%list /\
   name forceSchema = "force") /\
  forceSchema = forceSchema /\
  unmerged_in pre <> [] /\
  forallb (fun e => negb (is_forced_deletion e)) pre = true /\
  existsb is_force_offer pre = false /\
  (exists s2,
     post = trace_of (forced_closing (deleteBranches (unmerged_in pre) true s2)) /\
     result_of (run cleanup_session) =
       result_of (forced_closing (deleteBranches (unmerged_in pre) true s2))) /\
  (forall e, In e t -> is_forced_deletion e = true ->
             exists b d, In b (unmerged_in pre) /\ e = EvExec (delCmd true b) d).
Proof.
  intros t pre post.
  assert (E : t = (pre ++ EvPrompt forceSchema (inr "y") :: post)%list)
    by (vm_compute; reflexivity).
  split; [split; [exact E | reflexivity]|].
  exact (proj2 (proj2 (forced_retry_offer cleanup_session))
           pre forceSchema (inr "y") post E eq_refl).
Defined.

Lemma engine_survives_deletion_failures_sample :
  let x := deleteBranches ["alpha"] false (PState failure_session false) in
  let d := ExecResult true "" "error: branch 'alpha' not found." in
  (nth_error (trace_of x) 1 = Some (EvExec (delCmd false "alpha") d) /\
   failed d = true) /\
  nth_error (trace_of x) 2 =
    Some (EvError "Error deleting branch alpha: error: branch 'alpha' not found.").
Proof.
  intros x d. split; [split; reflexivity|].
  destruct (engine_survives_deletion_failures ["alpha"] false
              (PState failure_session false)) as (out & _ & _ & Hreport).
  exact (Hreport 1 "alpha" d eq_refl eq_refl).
Defined.

Lemma guard_adjusts_targets_sample :
  let s := PState stay_session false in
  let x := preCleanupCheck ["alpha"; "beta"] (Some "main") s in
  let r := ExecResult false "beta" "" in
  ("main" <> "" /\
   child_exec revParseCmd (world s) = (r, [says "no"]) /\
   failed r = false /\
   toLowerCase (trim (stdout r)) <> toLowerCase "main" /\
   prompt_get (switchSchema "main") [says "no"] = (inr "no", [])) /\
  result_of x = Ret (inr ["alpha"]) /\
  state_of x = PState [] false /\
  ~ In "beta" ["alpha"] /\
  (forall b, In b ["alpha"] <->
             In b ["alpha"; "beta"] /\ toLowerCase b <> toLowerCase "beta").
Proof.
  intros s x r.
  assert (Hd : "main" <> "") by discriminate.
  assert (Hx : child_exec revParseCmd (world s) = (r, [says "no"]))
    by reflexivity.
  assert (Hr : failed r = false) by reflexivity.
  assert (Hl : toLowerCase (trim (stdout r)) <> toLowerCase "main")
    by discriminate.
  assert (Hp : prompt_get (switchSchema "main") [says "no"] = (inr "no", []))
    by reflexivity.
  split; [auto 10|].
  exact (proj2 (proj1 (proj2 (guard_adjusts_targets ["alpha"; "beta"]
                                (Some "main") s))
                  "main" r _ eq_refl Hd Hx Hr) Hl "no" _ Hp).
Defined.

(** The existence query fails. *)
Lemma resolver_policy_sample :
  let s := PState [exec_fail "fatal: not a git repository"] false in
  let r := fst (child_exec (listCmd "main") (world s)) in
  failed r = true /\ exists_of r = false.
Proof.
  intros s r. split; [reflexivity|].
  apply (proj1 (resolver_policy s) "main"). reflexivity.
Defined.

Lemma no_stale_run_sample :
  let r := ExecResult false "* main 1a2b3c4 [origin/main] msg" "" in
  (In (EvExec listingCmd r) (trace_of (run no_stale_session)) /\
   failed r = false /\
   parseDetachedBranches (stdout r) = []) /\
  result_of (run no_stale_session) = Exit 0 /\
  exists r1 r2 asked,
    trace_of (run no_stale_session) =
      (EvExists ".git" true :: EvExec (listCmd "main") r1 ::
       EvExec (listCmd "master") r2 ::
       asked ++ [EvExec listingCmd r; EvLog noneFound])%list /\
    (if exists_of r1 && exists_of r2
     then exists answer,
            asked = [EvPromptStart; EvPrompt defaultSchema (inr answer)]
     else asked = []).
Proof.
  intros r.
  assert (Hin : In (EvExec listingCmd r) (trace_of (run no_stale_session)))
    by (vm_compute; tauto).
  assert (Hp : parseDetachedBranches (stdout r) = [])
    by (vm_compute; reflexivity).
  split; [auto|].
  exact (no_stale_run no_stale_session r Hin eq_refl Hp).
Defined.

Lemma engine_skip_is_case_sensitive_sample :
  let t := trace_of (deleteBranches ["Feature"] false (PState case_session false)) in
  let r := ExecResult false "feature" "" in
  (nth_error t 0 = Some (EvExec revParseCmd r) /\
   failed r = false /\
   nth_error ["Feature"] (step_of t 0) = Some "Feature" /\
   "Feature" <> trim (stdout r) /\
   toLowerCase "Feature" = toLowerCase (trim (stdout r))) /\
  (exists d,
     nth_error t 1 = Some (EvExec (delCmd false "Feature") d) /\
     is_deletion (EvExec (delCmd false "Feature") d) = true) /\
  ~ In "Feature" (filter (differsIgnoringCase (trim (stdout r))) ["Feature"]).
Proof.
  intros t r.
  assert (Hne : "Feature" <> trim (stdout r)) by discriminate.
  split; [repeat split; exact Hne|].
  exact (engine_skip_is_case_sensitive ["Feature"] false
           (PState case_session false) 0 r "Feature"
           eq_refl eq_refl eq_refl Hne eq_refl).
Defined.

(** Option 3 when the default is the only stale branch. *)
Lemma empty_target_list_ends_run_sample :
  let s : pstate script := PState [] false in
  ("main" <> "" /\ filter (differsIgnoringCase "main") ["Main"] = []) /\
  main_target (Some "main") ["Main"] 3 s =
    ([EvLog (filteredNotice "main")], Exit 0, s) /\
  is_empty_notice (filteredNotice "main") = true.
Proof.
  intros s.
  assert (Hd : "main" <> "") by discriminate.
  split; [split; [exact Hd | reflexivity]|].
  exact (proj1 empty_target_list_ends_run "main" ["Main"] s Hd eq_refl).
Defined.

(** ** More sample sessions *)

Lemma lister_names_are_tokens_sample :
  In "bugfix" (parseDetachedBranches scenarioA) /\
  ("bugfix" <> "" /\ all_in non_space "bugfix" = true /\
   exists pre post, scenarioA = pre ++ "bugfix" ++ post).
Proof.
  assert (H : In "bugfix" (parseDetachedBranches scenarioA))
    by (vm_compute; tauto).
  split; [exact H|].
  exact (proj1 (lister_names_are_tokens scenarioA) "bugfix" H).
Defined.

Lemma listing_line_round_trip_sample :
  let line := "* oldfeat 9a8b7c6 [origin/oldfeat: gone] msg" in
  ("oldfeat" <> "" /\ all_in non_space "oldfeat" = true /\
   " " <> "" /\ all_in is_space " " = true /\
   "9a8b7c6" <> "" /\ all_in is_hex "9a8b7c6" = true /\
   "origin/oldfeat: gone" <> "" /\
   all_in (not_char "]") "origin/oldfeat: gone" = true) /\
  match_line line = Some (Some "oldfeat", Some "origin/oldfeat: gone") /\
  stale_of_line line = ["oldfeat"].
Proof.
  assert (Hn : "oldfeat" <> "") by discriminate.
  assert (Hw : " " <> "") by discriminate.
  assert (Hh : "9a8b7c6" <> "") by discriminate.
  assert (Hb : "origin/oldfeat: gone" <> "") by discriminate.
  split; [repeat split; assumption|].
  exact (listing_line_round_trip true "oldfeat" " " "9a8b7c6" " " " msg"
           (Some "origin/oldfeat: gone")
           Hn eq_refl Hw eq_refl Hh eq_refl Hw eq_refl (conj Hb eq_refl)).
Defined.

Lemma current_branch_is_trimmed_sample :
  let s := PState current_branch_session false in
  let r := fst (child_exec revParseCmd (world s)) in
  ("main" <> "" /\ all_in non_space "main" = true /\
   exists l r', stdout r = l ++ "main" ++ r' /\
                all_in is_space l = true /\ all_in is_space r' = true) /\
  "main" = trim (stdout r).
Proof.
  intros s r.
  assert (Hn : "main" <> "") by discriminate.
  assert (Hx : exists l r', stdout r = l ++ "main" ++ r' /\
                 all_in is_space l = true /\ all_in is_space r' = true)
    by (exists "", (String "010" ""); repeat split).
  split; [repeat split; assumption|].
  exact (proj2 (proj2 (proj2 (proj2 (current_branch_is_trimmed s)))
                  "main" Hn eq_refl) Hx).
Defined.

Lemma engine_accounts_for_every_name_sample :
  let x := deleteBranches ["alpha"; "beta"] true (PState skip_session false) in
  result_of x = Ret (inr []) /\
  count is_deletion (trace_of x) + count is_skip (trace_of x) = 2 /\
  count is_message (trace_of x) = 2.
Proof.
  intros x. split; [reflexivity|].
  exact (proj2 (engine_accounts_for_every_name ["alpha"; "beta"] true
                  (PState skip_session false)) [] eq_refl).
Defined.

Lemma engine_keeps_batch_order_sample :
  let x := deleteBranches ["bugfix"] false (PState retry_session false) in
  result_of x = Ret (inr ["bugfix"]) /\
  subseq ["bugfix"] (deletion_targets (trace_of x)) /\
  (false = true -> ["bugfix"] = []).
Proof.
  intros x. split; [reflexivity|].
  exact (proj2 (engine_keeps_batch_order ["bugfix"] false
                  (PState retry_session false)) ["bugfix"] eq_refl).
Defined.

Lemma disclaimer_once_per_execution_sample :
  let x := confirmDisclaimer (PState [says "yes"] false) in
  result_of x = Ret tt /\
  disclaimerConfirmed (state_of x) = true /\
  confirmDisclaimer (state_of x) = ([], Ret tt, state_of x).
Proof.
  intros x. split; [reflexivity|].
  exact (proj1 (proj2 (disclaimer_once_per_execution (PState [says "yes"] false)))
           tt eq_refl).
Defined.

Lemma run_deletes_only_listed_sample :
  let x := ExecResult false "Deleted branch oldfeat." "" in
  (In (EvExec "git branch -d oldfeat" x) (trace_of (run cleanup_session)) /\
   is_deletion_cmd "git branch -d oldfeat" = true) /\
  (exists l,
     In (EvExec listingCmd l) (trace_of (run cleanup_session)) /\
     failed l = false /\
     In (deletion_target "git branch -d oldfeat")
       (parseDetachedBranches (stdout l))) /\
  In (EvLog ("  " ++ bullet ++ " " ++ deletion_target "git branch -d oldfeat"))
    (trace_of (run cleanup_session)).
Proof.
  intros x.
  assert (Hin : In (EvExec "git branch -d oldfeat" x)
                  (trace_of (run cleanup_session)))
    by (vm_compute; tauto).
  split; [split; [exact Hin | reflexivity]|].
  exact (run_deletes_only_listed cleanup_session "git branch -d oldfeat" x
           Hin eq_refl).
Defined.

Lemma option_three_keeps_default_sample :
  let w := option_three_session in
  let x := ExecResult false "Deleted branch bugfix." "" in
  (result_of (getDefaultMainBranch
                (PState (snd (fs_existsSync ".git" w)) false)) =
     Ret (inr (Some "main")) /\
   "main" <> "" /\
   In (EvPromptNumber optionSchema (inr 3%Z)) (trace_of (run w)) /\
   In (EvExec "git branch -d bugfix" x) (trace_of (run w)) /\
   is_deletion_cmd "git branch -d bugfix" = true) /\
  toLowerCase (deletion_target "git branch -d bugfix") <> toLowerCase "main".
Proof.
  intros w x.
  assert (Hd : "main" <> "") by discriminate.
  assert (Ho : In (EvPromptNumber optionSchema (inr 3%Z)) (trace_of (run w)))
    by (vm_compute; tauto).
  assert (Hin : In (EvExec "git branch -d bugfix" x) (trace_of (run w)))
    by (vm_compute; tauto).
  split; [repeat split; assumption|].
  exact (option_three_keeps_default w "main" "git branch -d bugfix" x
           eq_refl Hd Ho Hin eq_refl).
Defined.

Lemma cancel_ends_run_sample :
  In (EvPromptNumber optionSchema (inr 4%Z)) (trace_of (run scenarioB_session)) /\
  result_of (run scenarioB_session) = Exit 0 /\
  (exists pre,
     trace_of (run scenarioB_session) =
     (pre ++ [EvPromptNumber optionSchema (inr 4%Z);
              EvLog "Operation cancelled."])%list) /\
  forallb harmless (trace_of (run scenarioB_session)) = true.
Proof.
  assert (Ho : In (EvPromptNumber optionSchema (inr 4%Z))
                 (trace_of (run scenarioB_session)))
    by (vm_compute; tauto).
  split; [exact Ho|].
  exact (cancel_ends_run scenarioB_session optionSchema Ho).
Defined.

Lemma unknown_option_falls_through_sample :
  result_of (run unknown_option_session) = Ret tt /\
  exists o,
    In (EvPromptNumber optionSchema (inr o)) (trace_of (run unknown_option_session)) /\
    conform o = false /\
    existsb is_affirmation (trace_of (run unknown_option_session)) = true /\
    forallb (fun e => negb (is_deletion e)) (trace_of (run unknown_option_session))
      = true.
Proof.
  split; [reflexivity|].
  exact (proj1 (unknown_option_falls_through unknown_option_session) tt eq_refl).
Defined.

Lemma forced_deletion_needs_consent_sample :
  let t := trace_of (run cleanup_session) in
  let e := EvExec "git branch -D bugfix"
             (ExecResult false "Deleted branch bugfix." "") in
  (t = (firstn 28 t ++ e :: skipn 29 t)%list /\ is_forced_deletion e = true) /\
  existsb is_force_consent (firstn 28 t) = true.
Proof.
  split; [split; vm_compute; reflexivity|].
  apply (forced_deletion_needs_consent cleanup_session
           (firstn 28 (trace_of (run cleanup_session)))
           (skipn 29 (trace_of (run cleanup_session)))
           (EvExec "git branch -D bugfix"
              (ExecResult false "Deleted branch bugfix." "")));
    vm_compute; reflexivity.
Defined.

Lemma run_exit_status_sample :
  result_of (run no_stale_session) = Exit 0 /\
  ((0 = 0 /\
    exists pre msg, trace_of (run no_stale_session) = (pre ++ [EvLog msg])%list) \/
   (0 = 1 /\
    exists pre e, trace_of (run no_stale_session) = (pre ++ [e])%list /\
                  is_failure_report e = true))%Z.
Proof.
  split; [reflexivity|].
  exact (run_exit_status no_stale_session 0 eq_refl).
Defined.

Lemma failures_end_run_sample :
  let t := trace_of (run listing_failure_session) in
  let ev := EvExec listingCmd (ExecResult true "" "fatal: bad object") in
  (t = (firstn 3 t ++ ev :: skipn 4 t)%list /\
   failure_of ev = Some listingError) /\
  result_of (run listing_failure_session) = Exit 1 /\
  ((exists msg, skipn 4 t = [EvErrorObj msg listingError]) \/
   skipn 4 t = [EvError (error_message listingError)]) /\
  forallb no_failure (firstn 3 t) = true.
Proof.
  split; [split; vm_compute; reflexivity|].
  apply (failures_end_run listing_failure_session
           (firstn 3 (trace_of (run listing_failure_session)))
           (skipn 4 (trace_of (run listing_failure_session)))
           (EvExec listingCmd (ExecResult true "" "fatal: bad object"))
           listingError);
    vm_compute; reflexivity.
Defined.

Lemma yes_no_pattern_agrees_sample :
  saysYes "Y" = true /\ accepts_yes_no "Y" = true.
Proof.
  split; [reflexivity|].
  exact (proj1 (proj2 (yes_no_pattern_agrees "Y")) eq_refl).
Defined.

Lemma legacy_lists_before_it_asks_sample :
  let w := legacy_no_stale_session in
  let l := ExecResult false "* main 1a2b3c4 [origin/main] msg" "" in
  (In (EvExec listingCmd l) (trace_of (Legacy.run PatYesNo w)) /\
   failed l = false /\ parseDetachedBranches (stdout l) = []) /\
  trace_of (Legacy.run PatYesNo w) =
    [EvExists ".git" true; EvExec listingCmd l; EvLog noneFound] /\
  result_of (Legacy.run PatYesNo w) = Exit 0.
Proof.
  intros w l.
  assert (Hin : In (EvExec listingCmd l) (trace_of (Legacy.run PatYesNo w)))
    by (vm_compute; tauto).
  assert (Hp : parseDetachedBranches (stdout l) = [])
    by (vm_compute; reflexivity).
  split; [repeat split; assumption|].
  exact (proj2 (legacy_lists_before_it_asks PatYesNo w) l Hin eq_refl Hp).
Defined.

Lemma legacy_option_three_keeps_main_master_sample :
  let w := legacy_option_three_session in
  let x := ExecResult false "Deleted branch bugfix." "" in
  (In (EvPromptNumber optionSchema (inr 3%Z)) (trace_of (Legacy.run PatYesNo w)) /\
   In (EvExec "git branch -d bugfix" x) (trace_of (Legacy.run PatYesNo w)) /\
   is_deletion_cmd "git branch -d bugfix" = true) /\
  toLowerCase (deletion_target "git branch -d bugfix") <> "main" /\
  toLowerCase (deletion_target "git branch -d bugfix") <> "master".
Proof.
  intros w x.
  assert (Ho : In (EvPromptNumber optionSchema (inr 3%Z))
                 (trace_of (Legacy.run PatYesNo w)))
    by (vm_compute; tauto).
  assert (Hin : In (EvExec "git branch -d bugfix" x)
                  (trace_of (Legacy.run PatYesNo w)))
    by (vm_compute; tauto).
  split; [repeat split; assumption|].
  exact (legacy_option_three_keeps_main_master PatYesNo w
           "git branch -d bugfix" x Ho Hin eq_refl).
Defined.

Lemma legacy_run_deletions_sample :
  let w := legacy_forced_session in
  let x := ExecResult false "Deleted branch bugfix." "" in
  (In (EvExec "git branch -D bugfix" x) (trace_of (Legacy.run PatYesNo w)) /\
   is_deletion_cmd "git branch -D bugfix" = true) /\
  (exists l,
     In (EvExec listingCmd l) (trace_of (Legacy.run PatYesNo w)) /\
     failed l = false /\
     In (deletion_target "git branch -D bugfix")
       (parseDetachedBranches (stdout l))) /\
  In (EvLog ("  " ++ bullet ++ " " ++ deletion_target "git branch -D bugfix"))
    (trace_of (Legacy.run PatYesNo w)).
Proof.
  intros w x.
  assert (Hin : In (EvExec "git branch -D bugfix" x)
                  (trace_of (Legacy.run PatYesNo w)))
    by (vm_compute; tauto).
  split; [split; [exact Hin | reflexivity]|].
  exact (proj2 (legacy_run_deletions PatYesNo w) "git branch -D bugfix" x
           Hin eq_refl).
Defined.

Lemma legacy_forced_deletion_needs_consent_sample :
  let t := trace_of (Legacy.run PatYesNo legacy_forced_session) in
  let e := EvExec "git branch -D bugfix"
             (ExecResult false "Deleted branch bugfix." "") in
  (t = (firstn 16 t ++ e :: skipn 17 t)%list /\ is_forced_deletion e = true) /\
  existsb Legacy.is_force_consent (firstn 16 t) = true.
Proof.
  intros t e.
  assert (E : t = (firstn 16 t ++ e :: skipn 17 t)%list)
    by (vm_compute; reflexivity).
  assert (F : is_forced_deletion e = true) by reflexivity.
  split; [split; assumption|].
  exact (proj1 (legacy_forced_deletion_needs_consent PatYesNo
                  legacy_forced_session (firstn 16 t) (skipn 17 t) e E F)).
Defined.

Lemma legacy_run_endings_sample :
  result_of (Legacy.run PatYesNo legacy_no_stale_session) = Exit 0 /\
  ((0 = 0 /\
    exists pre msg,
      trace_of (Legacy.run PatYesNo legacy_no_stale_session) =
      (pre ++ [EvLog msg])%list) \/
   (0 = 1 /\
    exists pre e,
      trace_of (Legacy.run PatYesNo legacy_no_stale_session) =
      (pre ++ [e])%list /\ is_failure_report e = true))%Z.
Proof.
  split; [reflexivity|].
  exact (proj1 (legacy_run_endings PatYesNo legacy_no_stale_session) 0%Z eq_refl).
Defined.
